(** * Kaggle-to-S3 ingestion pipeline: a shallow embedding

    This development embeds [scripts/kaggle_to_s3_ingestion.py] and proves
    properties of its chunked filter-and-upload loop, of the run summary and
    of the control flow of [main].

    Conventions.  Python objects that are mutated in place (the [Summary]
    instance, the file system, the standard clock) live in a [World] that is
    threaded through a small state-and-exception monad.  Calls into pandas,
    boto3, requests, zipfile and os are not part of the script: their
    behaviour is supplied by an environment of oracles ([Env]), and the
    way [pd.to_datetime] reads a whole column, which may raise, is a
    parameter of the development.

    Scope.  [print] calls are left out: the development is about runs whose
    standard output takes the text the script prints (a stream that cannot
    encode it would make [print] raise).  In the loop, [to_csv] of line 264
    and [os.remove] of lines 277 and 280 are recorded in the trace and do
    not raise.  The duration of the summary is rounded on the exact
    rational, not on the binary double Python holds. *)

From Stdlib Require Import List String Ascii ZArith Lia Bool QArith.
From Stdlib Require Import DecimalString DecimalNat.
Import ListNotations.
Open Scope list_scope.
Open Scope string_scope.

Set Implicit Arguments.
Set Warnings "-register-all".

(* ================================================================== *)
(** ** Python exceptions *)

(** The exception classes the script distinguishes in its [except] clauses,
    as an outside call can raise them.  [KeyboardInterrupt] derives from
    [BaseException] only, so [except Exception] does not catch it.
    [SystemExit], which only [sys.exit] raises here and which no clause of
    the script catches, is a separate outcome of the monad below. *)
Inductive exn : Type :=
| ClientError (msg : string)        (* botocore.exceptions.ClientError *)
| RequestException (msg : string)   (* requests.exceptions.RequestException *)
| OtherException (msg : string)     (* any other subclass of Exception *)
| KeyboardInterrupt.

Definition isinstance_Exception (e : exn) : bool :=
  match e with
  | ClientError _ | RequestException _ | OtherException _ => true
  | KeyboardInterrupt => false
  end.

(** [str(e)], the text interpolated by [f"...{e}"]. *)
Definition str_exn (e : exn) : string :=
  match e with
  | ClientError m | RequestException m | OtherException m => m
  | KeyboardInterrupt => ""
  end.

(* ================================================================== *)
(** ** String formatting *)

Module Fmt.

(** [str(n)] for a non-negative integer. *)
Definition decimal (n : nat) : string :=
  NilZero.string_of_uint (Nat.to_uint n).

Fixpoint zeros (k : nat) : string :=
  match k with
  | O => ""
  | S k' => String "0" (zeros k')
  end.

(** [f"{n:0wd}"] for a non-negative integer: the decimal digits, padded on
    the left with zeros up to width [w]; longer numbers are not cut. *)
Definition zero_pad (w n : nat) : string :=
  let s := decimal n in
  zeros (w - String.length s) ++ s.

(** [f"{n:04d}"]. *)
Definition d04 (n : nat) : string := zero_pad 4 n.

(** [int(s)] for a string of decimal digits. *)
Definition read_decimal (s : string) : option nat :=
  option_map Nat.of_uint (NilEmpty.uint_of_string s).

End Fmt.

(* ================================================================== *)
(** ** Configuration (class [Config]) *)

Record Config : Type := mkConfig {
  KAGGLE_USERNAME : option string;     (* os.getenv: None when unset *)
  KAGGLE_KEY : option string;
  AWS_ACCESS_KEY : option string;
  AWS_SECRET_KEY : option string;
  AWS_REGION : string;
  S3_BUCKET : string;
  S3_PREFIX : string;
  CHUNK_ROWS : Z;
  ZIP_PATH : string;
  EXTRACTED_CSV : string;
  SUMMARY_FILE : string
}.

(** Python truthiness of an [os.getenv] result: [None] and [""] are falsy. *)
Definition truthy (v : option string) : bool :=
  match v with
  | None => false
  | Some s => negb (String.eqb s "")
  end.

(** [Config.validate]: only the two Kaggle variables are checked. *)
Definition validate (cfg : Config) : bool :=
  let required := [("KAGGLE_USERNAME", KAGGLE_USERNAME cfg);
                   ("KAGGLE_KEY", KAGGLE_KEY cfg)] in
  let missing := filter (fun kv => negb (truthy (snd kv))) required in
  match missing with
  | [] => true
  | _ :: _ => false
  end.

(* ================================================================== *)
(** ** Timestamps and data frames (the pandas values the script handles) *)

(** A [pd.Timestamp]: the wall-clock reading in nanoseconds since
    1970-01-01T00:00:00 of its own zone, and the zone's UTC offset when the
    value is zone-aware. *)
Record Timestamp : Type := mkTimestamp {
  wall_clock : Z;
  utc_offset : option Z
}.

(** [.tz_localize(None)]: drop the zone, keep the wall-clock reading. *)
Definition tz_localize_None (t : Timestamp) : Timestamp :=
  {| wall_clock := wall_clock t; utc_offset := None |}.

(** Comparison [a >= b] of two naive timestamps. *)
Definition ts_ge (a b : Timestamp) : bool := (wall_clock b <=? wall_clock a)%Z.

(** A cell of a data frame.  With [dtype=str] every field is read as text or
    as the missing value NaN; after [pd.to_datetime] the timestamp column
    holds timestamps or NaT. *)
Inductive cell : Type :=
| Text (s : string)
| NaN
| Ts (t : Timestamp)
| NaT.

Definition Row : Type := list cell.

Record DataFrame : Type := mkDataFrame {
  columns : list string;
  rows : list Row
}.

(** [len(df)]. *)
Definition len (df : DataFrame) : nat := List.length (rows df).

Fixpoint index_of (name : string) (cols : list string) : option nat :=
  match cols with
  | [] => None
  | c :: cols' =>
      if String.eqb c name then Some O
      else option_map S (index_of name cols')
  end.

(** The cell of a row in column [j]; rows shorter than the header read as
    NaN there. *)
Definition cell_at (j : nat) (r : Row) : cell := nth j r NaN.

Fixpoint set_cell (j : nat) (c : cell) (r : Row) : Row :=
  match j, r with
  | O, [] => [c]
  | O, _ :: r' => c :: r'
  | S j', [] => NaN :: set_cell j' c []
  | S j', x :: r' => x :: set_cell j' c r'
  end.

(** [df[name]] for the column at index [j]: its cells, row by row. *)
Definition column (j : nat) (df : DataFrame) : list cell :=
  map (cell_at j) (rows df).

(** [pd.Timestamp('2026-01-19')]: midnight of 19 January 2026, naive. *)
Definition cutoff_date : Timestamp :=
  {| wall_clock := 1768780800000000000; utc_offset := None |}.

Definition video_published_at : string := "video_published_at".

(** How a column of timestamps is read: the text of a cell to its
    timestamp, [None] standing for NaT, the result of a text that does not
    parse. *)
Definition Reading : Type := string -> option Timestamp.

(** [pd.to_datetime(column, errors='coerce')] with the [.dt] accessor that
    line 252 applies to its result.  pandas reads the column as a whole:
    it infers one format from the first value that is not missing and gives
    NaT to every value that does not match it, so the same text can read
    differently in two columns; and on some columns (values with different
    UTC offsets, for one) the call or the accessor raises.  A parser gives
    for a column either the exception raised or the reading of its cells. *)
Definition Parser : Type := list cell -> exn + Reading.

Section Pandas.

(** The reading pandas has settled on for the column at hand. *)
Variable read : Reading.

(** One element of the parsed column. *)
Definition to_datetime (c : cell) : cell :=
  match c with
  | Text s =>
      match read s with
      | Some t => Ts t
      | None => NaT
      end
  | NaN => NaT
  | Ts t => Ts t
  | NaT => NaT
  end.

(** One element of [series.dt.tz_localize(None) >= cutoff]: a comparison
    with NaT is false. *)
Definition ge_cutoff (cutoff : Timestamp) (c : cell) : bool :=
  match c with
  | Ts t => ts_ge (tz_localize_None t) cutoff
  | _ => false
  end.

(** The row filter of lines 249-252 on one record whose timestamp column
    sits at index [j], under the reading of its column. *)
Definition accepts (j : nat) (cutoff : Timestamp) (r : Row) : bool :=
  ge_cutoff cutoff (to_datetime (cell_at j r)).

(** Line 249: the column is replaced by its parsed values. *)
Definition parse_column (j : nat) (df : DataFrame) : DataFrame :=
  {| columns := columns df;
     rows := map (fun r => set_cell j (to_datetime (cell_at j r)) r) (rows df) |}.

(** Line 252: boolean-mask selection. *)
Definition select_ge (j : nat) (cutoff : Timestamp) (df : DataFrame) : DataFrame :=
  {| columns := columns df;
     rows := filter (fun r => ge_cutoff cutoff (cell_at j r)) (rows df) |}.

End Pandas.

Close Scope Q_scope.

(* ================================================================== *)
(** ** The run summary (class [Summary]) *)

(** A [datetime]: microseconds since the epoch, UTC, naive. *)
Definition datetime : Type := Z.

(** A Python number as [json.dump] sees it: an [int], or a [float], the
    latter idealised as a rational. *)
Inductive number : Type :=
| PyInt (z : Z)
| PyFloat (q : Q).

(** [round(x, 2)]: an [int] stays the same [int]; a [float] is rounded
    half to even at two decimals, here on the exact rational.  Python
    rounds the binary double, so the two differ on a value such as 2.675,
    which the double holds as slightly less (Python gives 2.67). *)
Definition round2 (x : number) : number :=
  match x with
  | PyInt z => PyInt z
  | PyFloat q =>
      let n := (Qnum q * 100)%Z in
      let d := Zpos (Qden q) in
      let fl := (n / d)%Z in
      let up :=
        match (2 * (n mod d) ?= d)%Z with
        | Lt => false
        | Gt => true
        | Eq => Z.odd fl
        end in
      PyFloat (Qmake (if up then fl + 1 else fl) 100)
  end.

(** One entry of [Summary.errors]; [timestamp] stands for the text
    [datetime.isoformat()] of the instant. *)
Record ErrorEntry : Type := mkErrorEntry {
  timestamp : datetime;
  error : string
}.

Record Summary : Type := mkSummary {
  start_time : datetime;
  end_time : option datetime;
  status : string;
  total_rows : nat;
  files_uploaded : list string;
  errors : list ErrorEntry;
  download_size_mb : number
}.

(** The document built by [to_dict] and written by [json.dump]. *)
Inductive json : Type :=
| JNull
| JNumber (x : number)
| JString (s : string)
| JIsoformat (t : datetime)          (* the string [t.isoformat()] *)
| JArray (l : list json)
| JObject (fields : list (string * json)).

Definition JInt (n : nat) : json := JNumber (PyInt (Z.of_nat n)).

Definition json_of_error (e : ErrorEntry) : json :=
  JObject [("timestamp", JIsoformat (timestamp e)); ("error", JString (error e))].

(** [Summary.to_dict] (lines 104-124). *)
Definition to_dict (cfg : Config) (s : Summary) : json :=
  let duration :=
    match end_time s with
    | Some e => PyFloat (Qmake (e - start_time s) 1000000)
    | None => PyInt 0
    end in
  JObject [
    ("status", JString (status s));
    ("start_time", JIsoformat (start_time s));
    ("end_time", match end_time s with
                 | Some e => JIsoformat e
                 | None => JNull
                 end);
    ("duration_seconds", JNumber (round2 duration));
    ("total_rows_processed", JInt (total_rows s));
    ("files_uploaded", JInt (List.length (files_uploaded s)));
    ("file_list", JArray (map JString (files_uploaded s)));
    ("download_size_mb", JNumber (round2 (download_size_mb s)));
    ("errors", JArray (map json_of_error (errors s)));
    ("configuration", JObject [
       ("s3_bucket", JString (S3_BUCKET cfg));
       ("s3_prefix", JString (S3_PREFIX cfg));
       ("chunk_size", JNumber (PyInt (CHUNK_ROWS cfg)));
       ("aws_region", JString (AWS_REGION cfg))])
  ].

(** Lookup of a key of a JSON object. *)
Fixpoint assoc (k : string) (l : list (string * json)) : option json :=
  match l with
  | [] => None
  | (k', v) :: l' => if String.eqb k' k then Some v else assoc k l'
  end.

Definition field (k : string) (doc : json) : option json :=
  match doc with
  | JObject l => assoc k l
  | _ => None
  end.

Definition keys (doc : json) : list string :=
  match doc with
  | JObject l => map fst l
  | _ => []
  end.

(** The updates the script makes to the fields of a [Summary]. *)
Definition s_add_rows (n : nat) (s : Summary) : Summary :=
  {| start_time := start_time s; end_time := end_time s; status := status s;
     total_rows := total_rows s + n; files_uploaded := files_uploaded s;
     errors := errors s; download_size_mb := download_size_mb s |}.

Definition s_append_file (url : string) (s : Summary) : Summary :=
  {| start_time := start_time s; end_time := end_time s; status := status s;
     total_rows := total_rows s;
     files_uploaded := (files_uploaded s ++ [url])%list;
     errors := errors s; download_size_mb := download_size_mb s |}.

Definition s_add_error (now : datetime) (msg : string) (s : Summary) : Summary :=
  {| start_time := start_time s; end_time := end_time s; status := status s;
     total_rows := total_rows s; files_uploaded := files_uploaded s;
     errors := (errors s ++ [{| timestamp := now; error := msg |}])%list;
     download_size_mb := download_size_mb s |}.

Definition s_complete (now : datetime) (success : bool) (s : Summary) : Summary :=
  {| start_time := start_time s; end_time := Some now;
     status := if success then "success" else "failed";
     total_rows := total_rows s; files_uploaded := files_uploaded s;
     errors := errors s; download_size_mb := download_size_mb s |}.

Definition s_set_download_size (x : number) (s : Summary) : Summary :=
  {| start_time := start_time s; end_time := end_time s; status := status s;
     total_rows := total_rows s; files_uploaded := files_uploaded s;
     errors := errors s; download_size_mb := x |}.

Definition s_init (now : datetime) : Summary :=
  {| start_time := now; end_time := None; status := "running";
     total_rows := 0; files_uploaded := []; errors := [];
     download_size_mb := PyInt 0 |}.

(* ================================================================== *)
(** ** The source file and the chunked reader *)

(** A line of the CSV file after the header: its fields as the tokenizer
    splits them ([None] for an empty field, no field at all for a blank
    line), or a line on which the tokenizer raises
    whatever its fields (bytes that do not decode, a quote left open), with
    the text of the exception. *)
Inductive line : Type :=
| Fields (fs : list (option string))
| Malformed (msg : string).

Record csv_file : Type := mkCsv {
  header : list string;
  lines : list line
}.

(** The texts [read_csv] takes for a missing value by default, beside the
    empty field ([keep_default_na=True]); [dtype=str] does not change
    that. *)
Definition na_values : list string :=
  ["#N/A"; "#N/A N/A"; "#NA"; "-1.#IND"; "-1.#QNAN"; "-NaN"; "-nan";
   "1.#IND"; "1.#QNAN"; "<NA>"; "N/A"; "NA"; "NULL"; "NaN"; "None";
   "n/a"; "nan"; "null"].

Definition is_na (s : string) : bool :=
  String.eqb s EmptyString || existsb (String.eqb s) na_values.

Definition cell_of_field (f : option string) : cell :=
  match f with
  | Some s => if is_na s then NaN else Text s
  | None => NaN
  end.

(** A line with no character at all has no field: the tokenizer skips it
    ([skip_blank_lines=True]), though it counts it among the lines of the
    file. *)
Definition is_blank (l : line) : bool :=
  match l with
  | Fields [] => true
  | _ => false
  end.

(** The first line that is not blank. *)
Fixpoint first_line (ls : list line) : option line :=
  match ls with
  | [] => None
  | l :: ls' => if is_blank l then first_line ls' else Some l
  end.

(** The number of fields the tokenizer expects on every line: that of the
    first data line, or of the header when there is none or it is
    shorter. *)
Definition width (f : csv_file) : nat :=
  match first_line (lines f) with
  | Some (Fields fs) => Nat.max (List.length (header f)) (List.length fs)
  | _ => List.length (header f)
  end.

(** A line with fewer fields than expected is filled up with missing
    values.  When the lines have more fields than the header has names, the
    leading fields are the index of the frame and the names stand over the
    last ones. *)
Definition row_of_fields (w h : nat) (fs : list (option string)) : Row :=
  let cells := map cell_of_field fs in
  skipn (w - h) (cells ++ repeat NaN (w - List.length cells))%list.

(** The text of the [ParserError] for a line with too many fields. *)
Definition too_many_fields (w lineno k : nat) : string :=
  "Error tokenizing data. C error: Expected " ++ Fmt.decimal w
  ++ " fields in line " ++ Fmt.decimal lineno
  ++ ", saw " ++ Fmt.decimal k ++ String "010" EmptyString.

(** What the tokenizer makes of the data line number [i] (from 0; the
    header is line 1 of the file and the data lines follow it one per
    line): a row, or the exception it raises. *)
Definition read_line (w h : nat) (i : nat) (l : line) : exn + Row :=
  match l with
  | Malformed m => inl (OtherException m)
  | Fields fs =>
      if Nat.ltb w (List.length fs)
      then inl (OtherException (too_many_fields w (i + 2) (List.length fs)))
      else inr (row_of_fields w h fs)
  end.

Fixpoint read_lines (w h : nat) (i : nat) (ls : list line) : list (exn + Row) :=
  match ls with
  | [] => []
  | l :: ls' =>
      if is_blank l then read_lines w h (S i) ls'
      else read_line w h i l :: read_lines w h (S i) ls'
  end.

(** The data lines of a file as the tokenizer reads them. *)
Definition tokenized (f : csv_file) : list (exn + Row) :=
  read_lines (width f) (List.length (header f)) 0 (lines f).

(** What one [next()] on the reader gives: a data frame, or an exception. *)
Inductive read_item : Type :=
| Chunk (df : DataFrame)
| ReadRaises (e : exn).

(** Reading a run of lines stops at the first one the tokenizer refuses. *)
Fixpoint tokenize (ls : list (exn + Row)) : exn + list Row :=
  match ls with
  | [] => inr []
  | inl e :: _ => inl e
  | inr r :: ls' =>
      match tokenize ls' with
      | inl e => inl e
      | inr rs => inr (r :: rs)
      end
  end.

(** Batches of [n] lines each, in file order; the batch that holds a
    refused line raises and ends the iteration. *)
Fixpoint chunks_from (fuel n : nat) (hdr : list string) (ls : list (exn + Row))
  : list read_item :=
  match fuel with
  | O => []
  | S fuel' =>
      match ls with
      | [] => []
      | _ :: _ =>
          match tokenize (firstn n ls) with
          | inl e => [ReadRaises e]
          | inr rs =>
              Chunk {| columns := hdr; rows := rs |}
                :: chunks_from fuel' n hdr (skipn n ls)
          end
      end
  end.

(** [pd.read_csv(path, chunksize=N, dtype=str, low_memory=False)] as the
    list of results of its successive [next()] calls.  A chunk size below 1
    is refused; a file with a header and no data line gives one empty
    frame. *)
Definition read_csv (chunksize : Z) (f : csv_file) : list read_item :=
  if (chunksize <? 1)%Z then
    [ReadRaises (OtherException "'chunksize' must be an integer >=1")]
  else
    match tokenized f with
    | [] => [Chunk {| columns := header f; rows := [] |}]
    | ls => chunks_from (List.length ls) (Z.to_nat chunksize) (header f) ls
    end.

(* ================================================================== *)
(** ** The world, its events and the effect monad *)

(** What the script does to the outside, in the order it happens. *)
Inductive event : Type :=
| EvRead (n : nat)                                   (* reader gave a batch of n rows *)
| EvReadError (e : exn)                              (* reader raised *)
| EvToCsv (path : string) (df : DataFrame)           (* chunk.to_csv(path) *)
| EvUpload (file bucket key : string) (r : option exn)  (* upload_file; None = done *)
| EvRemove (path : string)                           (* os.remove(path) *)
| EvCleanup (r : option exn)                         (* cleanup_files *)
| EvSave (path : string) (doc : json) (r : option exn)  (* Summary.save *)
.

Record World : Type := mkWorld {
  summary : Summary;
  ticks : nat;                 (* readings of the clock so far *)
  cleanups : nat;              (* calls of cleanup_files so far *)
  trace : list event
}.

(** How a computation ends: with a value, with an exception in flight, or
    with [sys.exit(code)] under way. *)
Inductive result (A : Type) : Type :=
| Ok (a : A)
| Raised (e : exn)
| Exit (code : Z).
Arguments Ok {A} a.
Arguments Raised {A} e.
Arguments Exit {A} code.

Definition M (A : Type) : Type := World -> result A * World.

Definition ret {A} (a : A) : M A := fun w => (Ok a, w).

Definition raise {A} (e : exn) : M A := fun w => (Raised e, w).

Definition bind {A B} (m : M A) (k : A -> M B) : M B :=
  fun w =>
    match m w with
    | (Ok a, w') => k a w'
    | (Raised e, w') => (Raised e, w')
    | (Exit c, w') => (Exit c, w')
    end.

(** [try: body except <class> as e: handler e]; [handler e = None] when the
    exception is not of a class the clause names. *)
Definition try_except {A} (body : M A) (handler : exn -> option (M A)) : M A :=
  fun w =>
    match body w with
    | (Ok a, w') => (Ok a, w')
    | (Raised e, w') =>
        match handler e with
        | Some h => h w'
        | None => (Raised e, w')
        end
    | (Exit c, w') => (Exit c, w')
    end.

Declare Scope monad_scope.
Delimit Scope monad_scope with monad.
Notation "x <- m ;; k" := (bind m (fun x => k))
  (at level 100, m at next level, right associativity) : monad_scope.
Notation "m ;; k" := (bind m (fun _ => k))
  (at level 100, right associativity) : monad_scope.
Open Scope monad_scope.

(** The three ways the world changes. *)
Definition logged (ev : event) (w : World) : World :=
  {| summary := summary w; ticks := ticks w;
     cleanups := cleanups w; trace := (trace w ++ [ev])%list |}.

Definition with_summary (f : Summary -> Summary) (w : World) : World :=
  {| summary := f (summary w); ticks := ticks w;
     cleanups := cleanups w; trace := trace w |}.

Definition ticked (w : World) : World :=
  {| summary := summary w; ticks := S (ticks w);
     cleanups := cleanups w; trace := trace w |}.

Definition log (ev : event) : M unit := fun w => (Ok tt, logged ev w).

Definition get_summary : M Summary := fun w => (Ok (summary w), w).

Definition modify_summary (f : Summary -> Summary) : M unit :=
  fun w => (Ok tt, with_summary f w).

(** [value_or_raise r]: the value an outside call gives, or the exception
    it raises. *)
Definition value_or_raise {A} (r : exn + A) : M A :=
  match r with
  | inr a => ret a
  | inl e => raise e
  end.

(** [or_raise r]: the outcome of an outside call that may raise. *)
Definition or_raise (r : option exn) : M unit :=
  match r with
  | None => ret tt
  | Some e => raise e
  end.

(* ================================================================== *)
(** ** The environment: what the outside calls answer *)

(** The S3 client handed to the pipeline. *)
Record S3Client : Type := mkS3 {
  (** [upload_file(Filename, Bucket, Key)]: [None] when the object was
      stored, [Some e] when the call raises [e]. *)
  upload_file : string -> string -> string -> option exn;
  (** [head_bucket(Bucket=...)]. *)
  head_bucket : string -> option exn
}.

(** How [download_kaggle_dataset] ends, seen from [main]. *)
Inductive download_outcome : Type :=
| Downloaded (bytes : Z)             (* all chunks written, [bytes] in total *)
| DownloadFails (e : exn).           (* raised inside the [with] block *)

(** How [extract_csv_from_zip] ends. *)
Inductive extract_outcome : Type :=
| Extracted                          (* a .csv member was extracted and renamed *)
| NoCsvInArchive                     (* [csv_files] is empty *)
| ExtractFails (e : exn).            (* raised inside the [try] *)

Record Env : Type := mkEnv {
  (** the successive readings of [datetime.utcnow()] *)
  clock : nat -> datetime;
  (** [boto3.client(...)]: the client, or the exception it raises *)
  boto3_client : exn + S3Client;
  download : download_outcome;
  extract : extract_outcome;
  (** what [pd.read_csv] finds at a path: [None] when there is no such file *)
  open_csv : string -> option csv_file;
  (** the successive calls of [cleanup_files]: [Some e] when [os.remove] raises *)
  cleanup_outcome : nat -> option exn;
  (** writing the summary to a path: [Some e] when [open] or [json.dump] raises *)
  save_outcome : string -> option exn
}.

Section Pipeline.

Variable parse_datetime : Parser.
Variable env : Env.

(** [datetime.utcnow()]. *)
Definition utcnow : M datetime :=
  fun w => (Ok (clock env (ticks w)), ticked w).

(** *** Methods of [Summary] *)

(** [Summary.__init__] (lines 83-90). *)
Definition Summary_init : M unit :=
  now <- utcnow ;;
  modify_summary (fun _ => s_init now).

(** [Summary.complete] (lines 92-95). *)
Definition complete (success : bool) : M unit :=
  now <- utcnow ;;
  modify_summary (s_complete now success).

(** [Summary.add_error] (lines 97-102). *)
Definition add_error (msg : string) : M unit :=
  now <- utcnow ;;
  modify_summary (s_add_error now msg).

(** [Summary.save] (lines 126-130). *)
Definition save (cfg : Config) (filepath : string) : M unit :=
  s <- get_summary ;;
  log (EvSave filepath (to_dict cfg s) (save_outcome env filepath)) ;;
  or_raise (save_outcome env filepath).

(** [summary.total_rows += n] (line 259). *)
Definition add_total_rows (n : nat) : M unit :=
  modify_summary (s_add_rows n).

(** [summary.files_uploaded.append(url)] (line 271). *)
Definition append_file (url : string) : M unit :=
  modify_summary (s_append_file url).

(** [summary.download_size_mb = x] (line 192). *)
Definition set_download_size (x : number) : M unit :=
  modify_summary (s_set_download_size x).

(** *** [process_and_upload_data] (lines 233-291) *)

(** The names built at lines 263, 267 and 270. *)
Definition temp_file_name (part_number : nat) : string :=
  "part_" ++ Fmt.d04 part_number ++ ".csv".

Definition s3_key_of (cfg : Config) (part_number : nat) : string :=
  S3_PREFIX cfg ++ temp_file_name part_number.

Definition s3_url_of (cfg : Config) (part_number : nat) : string :=
  "s3://" ++ S3_BUCKET cfg ++ "/" ++ s3_key_of cfg part_number.

(** [chunk['video_published_at']]: the position of the column, or the
    [KeyError] pandas raises when the frame has no such column. *)
Definition getitem_video_published_at (df : DataFrame) : M nat :=
  match index_of video_published_at (columns df) with
  | Some j => ret j
  | None => raise (OtherException "'video_published_at'")
  end.

(** Lines 249-252: parse the column, keep the rows at or after the cutoff;
    or the exception [pd.to_datetime] or the accessor raises on this
    column. *)
Definition filter_chunk (j : nat) (chunk : DataFrame) : exn + DataFrame :=
  match parse_datetime (column j chunk) with
  | inl e => inl e
  | inr read => inr (select_ge j cutoff_date (parse_column read j chunk))
  end.

(** How one turn of the [for] loop ends. *)
Inductive loop_ctl : Type :=
| NextChunk (part_number : nat)    (* [continue], or the end of the body *)
| Return (b : bool).               (* [return b] *)

(** The body of the loop, lines 247-281, for one chunk. *)
Definition loop_body (cfg : Config) (s3 : S3Client)
           (chunk : DataFrame) (part_number : nat) : M loop_ctl :=
  j <- getitem_video_published_at chunk ;;
  chunk <- value_or_raise (filter_chunk j chunk) ;;
  if Nat.eqb (len chunk) 0 then
    ret (NextChunk part_number)
  else
    let chunk_size := len chunk in
    add_total_rows chunk_size ;;
    let temp_file := temp_file_name part_number in
    log (EvToCsv temp_file chunk) ;;
    let s3_key := S3_PREFIX cfg ++ temp_file in
    returned <-
      try_except
        (let r := upload_file s3 temp_file (S3_BUCKET cfg) s3_key in
         log (EvUpload temp_file (S3_BUCKET cfg) s3_key r) ;;
         or_raise r ;;
         let s3_url := "s3://" ++ S3_BUCKET cfg ++ "/" ++ s3_key in
         append_file s3_url ;;
         ret None)
        (fun e =>
           match e with
           | ClientError _ =>
               Some (let error_msg :=
                       "Upload failed for " ++ temp_file ++ ": " ++ str_exn e in
                     add_error error_msg ;;
                     log (EvRemove temp_file) ;;
                     ret (Some false))
           | _ => None
           end) ;;
    match returned with
    | Some b => ret (Return b)
    | None =>
        log (EvRemove temp_file) ;;
        ret (NextChunk (part_number + 1))
    end.

(** The [for] loop over the reader, lines 241-285. *)
Fixpoint for_chunks (cfg : Config) (s3 : S3Client)
         (reader : list read_item) (part_number : nat) : M bool :=
  match reader with
  | [] => ret true
  | ReadRaises e :: _ =>
      log (EvReadError e) ;;
      raise e
  | Chunk chunk :: reader' =>
      log (EvRead (len chunk)) ;;
      ctl <- loop_body cfg s3 chunk part_number ;;
      match ctl with
      | NextChunk part_number' => for_chunks cfg s3 reader' part_number'
      | Return b => ret b
      end
  end.

(** The reader that [pd.read_csv] builds on the extracted file. *)
Definition open_reader (cfg : Config) : list read_item :=
  match open_csv env (EXTRACTED_CSV cfg) with
  | Some f => read_csv (CHUNK_ROWS cfg) f
  | None =>
      [ReadRaises
         (OtherException ("[Errno 2] No such file or directory: '"
                          ++ EXTRACTED_CSV cfg ++ "'"))]
  end.

(** The whole function on a given reader: the loop inside
    [try: ... except Exception as e:] (lines 237, 287-291). *)
Definition process_reader (cfg : Config) (s3 : S3Client)
           (reader : list read_item) : M bool :=
  try_except
    (for_chunks cfg s3 reader 1)
    (fun e =>
       if isinstance_Exception e then
         Some (let error_msg := "Processing failed: " ++ str_exn e in
               add_error error_msg ;;
               ret false)
       else None).

Definition process_and_upload_data (cfg : Config) (s3 : S3Client) : M bool :=
  process_reader cfg s3 (open_reader cfg).

End Pipeline.

(* ================================================================== *)
(** ** The other stages and [main] *)

Section Main.

Variable parse_datetime : Parser.
Variable env : Env.

(** [initialize_s3_client] (lines 134-147): both branches call
    [boto3.client]. *)
Definition initialize_s3_client (cfg : Config) : M S3Client :=
  match boto3_client env with
  | inr s3 => ret s3
  | inl e => raise e
  end.

(** [verify_s3_access] (lines 149-163): a [ClientError] gives [False],
    anything else propagates. *)
Definition verify_s3_access (s3 : S3Client) (bucket : string) : M bool :=
  try_except
    (or_raise (head_bucket s3 bucket) ;; ret true)
    (fun e =>
       match e with
       | ClientError _ => Some (ret false)
       | _ => None
       end).

(** [download_kaggle_dataset] (lines 165-200). *)
Definition download_kaggle_dataset (cfg : Config) : M bool :=
  try_except
    (match download env with
     | Downloaded bytes =>
         set_download_size (PyFloat (Qmake bytes (1024 * 1024))) ;;
         ret true
     | DownloadFails e => raise e
     end)
    (fun e =>
       match e with
       | RequestException _ =>
           Some (let error_msg := "Download failed: " ++ str_exn e in
                 add_error env error_msg ;;
                 ret false)
       | _ => None
       end).

(** [extract_csv_from_zip] (lines 202-231). *)
Definition extract_csv_from_zip (cfg : Config) : M bool :=
  try_except
    (match extract env with
     | Extracted => ret true
     | NoCsvInArchive =>
         let error_msg := "No CSV file found in archive" in
         add_error env error_msg ;;
         ret false
     | ExtractFails e => raise e
     end)
    (fun e =>
       if isinstance_Exception e then
         Some (let error_msg := "Extraction failed: " ++ str_exn e in
               add_error env error_msg ;;
               ret false)
       else None).

(** [cleanup_files] (lines 293-300): nothing in it catches what
    [os.remove] raises. *)
Definition cleanup_files (cfg : Config) : M unit :=
  fun w =>
    let r := cleanup_outcome env (cleanups w) in
    or_raise r
      {| summary := summary w; ticks := ticks w;
         cleanups := S (cleanups w);
         trace := (trace w ++ [EvCleanup r])%list |}.

(** [sys.exit(code)]. *)
Definition sys_exit {A} (code : Z) : M A := fun w => (Exit code, w).

(** The [try] block of [main], lines 314-367. *)
Definition main_try (cfg : Config) : M unit :=
  if negb (validate cfg) then
    complete env false ;;
    save env cfg (SUMMARY_FILE cfg) ;;
    sys_exit 1
  else
    s3_client <- initialize_s3_client cfg ;;
    ok <- verify_s3_access s3_client (S3_BUCKET cfg) ;;
    if negb ok then
      add_error env "S3 bucket not accessible" ;;
      complete env false ;;
      save env cfg (SUMMARY_FILE cfg) ;;
      sys_exit 1
    else
      success <-
        (downloaded <- download_kaggle_dataset cfg ;;
         if negb downloaded then ret false
         else
           extracted <- extract_csv_from_zip cfg ;;
           if negb extracted then ret false
           else
             processed <- process_and_upload_data parse_datetime env cfg s3_client ;;
             if negb processed then ret false
             else ret true) ;;
      cleanup_files cfg ;;
      complete env success ;;
      save env cfg (SUMMARY_FILE cfg) ;;
      if success then sys_exit 0 else sys_exit 1.

(** [main] (lines 304-383): the summary is created before the [try]; the
    two handlers are tried in the order they are written. *)
Definition main (cfg : Config) : M unit :=
  Summary_init env ;;
  try_except
    (main_try cfg)
    (fun e =>
       match e with
       | KeyboardInterrupt =>
           Some (add_error env "Pipeline interrupted by user" ;;
                 complete env false ;;
                 cleanup_files cfg ;;
                 save env cfg (SUMMARY_FILE cfg) ;;
                 sys_exit 1)
       | _ =>
           Some (let error_msg := "Unexpected error: " ++ str_exn e in
                 add_error env error_msg ;;
                 complete env false ;;
                 cleanup_files cfg ;;
                 save env cfg (SUMMARY_FILE cfg) ;;
                 sys_exit 1)
       end).

End Main.

(** The two closing sequences of [main], named for the proofs: the end of
    the [try] block (lines 343-367) and the body shared by the two handlers
    (lines 371-375 and 379-383). *)
Definition closing_body (env : Env) (cfg : Config) (success : bool) : M unit :=
  cleanup_files env cfg ;;
  complete env success ;;
  save env cfg (SUMMARY_FILE cfg) ;;
  if success then sys_exit 0 else sys_exit 1.

Definition handler_body (env : Env) (cfg : Config) (msg : string) : M unit :=
  add_error env msg ;;
  complete env false ;;
  cleanup_files env cfg ;;
  save env cfg (SUMMARY_FILE cfg) ;;
  sys_exit 1.

(** The early exits of lines 316-318 and 328-330, after the error entry
    of the second one. *)
Definition early_body (env : Env) (cfg : Config) : M unit :=
  complete env false ;;
  save env cfg (SUMMARY_FILE cfg) ;;
  sys_exit 1.

(** The message each handler records. *)
Definition handler_message (e : exn) : string :=
  match e with
  | KeyboardInterrupt => "Pipeline interrupted by user"
  | _ => "Unexpected error: " ++ str_exn e
  end.

(** [try: m except KeyboardInterrupt / except Exception], as [main] has
    it around its body. *)
Definition with_handlers (env : Env) (cfg : Config) (m : M unit) : M unit :=
  fun w =>
    match m w with
    | (Raised e, w') => handler_body env cfg (handler_message e) w'
    | out => out
    end.

(** The events of the closing sequences. *)
Definition is_closing (ev : event) : bool :=
  match ev with
  | EvCleanup _ | EvSave _ _ _ => true
  | _ => false
  end.

(** The world before the process starts. *)
Definition boot : World :=
  {| summary := {| start_time := 0%Z; end_time := None; status := "";
                   total_rows := 0; files_uploaded := []; errors := [];
                   download_size_mb := PyInt 0 |};
     ticks := 0; cleanups := 0; trace := [] |}.

(** A run of the script: how the process ends and the world it leaves. *)
Definition run_main (parse_datetime : Parser)
           (env : Env) (cfg : Config) : result unit * World :=
  main parse_datetime env cfg boot.

(** The world after [Summary()] at line 310, and the world after an
    [add_error] call. *)
Definition fresh_world (env : Env) : World :=
  with_summary (fun _ => s_init (clock env 0)) (ticked boot).

Definition error_added (env : Env) (msg : string) (w : World) : World :=
  with_summary (s_add_error (clock env (ticks w)) msg) (ticked w).

(* ================================================================== *)
(** ** Reading the trace *)

(** The keys handed to [upload_file], in call order. *)
Fixpoint upload_calls (tr : list event) : list string :=
  match tr with
  | [] => []
  | EvUpload _ _ key _ :: tr' => key :: upload_calls tr'
  | _ :: tr' => upload_calls tr'
  end.

(** The (bucket, key) pairs of the calls that stored their object. *)
Fixpoint delivered (tr : list event) : list (string * string) :=
  match tr with
  | [] => []
  | EvUpload _ bucket key None :: tr' => (bucket, key) :: delivered tr'
  | _ :: tr' => delivered tr'
  end.

(** The URL line 270 builds for a stored upload. *)
Definition url_of_delivery (bk : string * string) : string :=
  "s3://" ++ fst bk ++ "/" ++ snd bk.

(** The row counts of the frames written to a temporary file. *)
Fixpoint written_rows (tr : list event) : nat :=
  match tr with
  | [] => 0
  | EvToCsv _ df :: tr' => len df + written_rows tr'
  | _ :: tr' => written_rows tr'
  end.

Definition is_read (ev : event) : bool :=
  match ev with
  | EvRead _ | EvReadError _ => true
  | _ => false
  end.

Definition is_upload (ev : event) : bool :=
  match ev with
  | EvUpload _ _ _ _ => true
  | _ => false
  end.

Definition is_failed_upload (ev : event) : bool :=
  match ev with
  | EvUpload _ _ _ (Some _) => true
  | _ => false
  end.

(** The documents written by [Summary.save] calls that did not raise. *)
Fixpoint saved (tr : list event) : list json :=
  match tr with
  | [] => []
  | EvSave _ doc None :: tr' => doc :: saved tr'
  | _ :: tr' => saved tr'
  end.

(* ================================================================== *)
(** ** The worlds one turn of the loop can leave *)

Section Turns.

Variable env : Env.
Variable cfg : Config.

(** After lines 258-269: the rows of the filtered frame [df] are counted,
    the frame is written to its temporary file and [upload_file] has
    answered [r]. *)
Definition attempted (pn : nat) (df : DataFrame) (r : option exn)
           (w : World) : World :=
  logged (EvUpload (temp_file_name pn) (S3_BUCKET cfg) (s3_key_of cfg pn) r)
    (logged (EvToCsv (temp_file_name pn) df)
       (with_summary (s_add_rows (len df)) w)).

(** The upload was stored: lines 270-272, 280. *)
Definition turn_delivered (pn : nat) (df : DataFrame) (w : World) : World :=
  logged (EvRemove (temp_file_name pn))
    (with_summary (s_append_file (s3_url_of cfg pn))
       (attempted pn df None w)).

(** The upload raised a [ClientError]: lines 273-278. *)
Definition turn_refused (pn : nat) (df : DataFrame) (e : exn)
           (w : World) : World :=
  let w1 := attempted pn df (Some e) w in
  logged (EvRemove (temp_file_name pn))
    (with_summary
       (s_add_error (clock env (ticks w1))
          ("Upload failed for " ++ temp_file_name pn ++ ": " ++ str_exn e))
       (ticked w1)).

(** The handler of line 287 has recorded [e]. *)
Definition processing_failed (e : exn) (w : World) : World :=
  with_summary
    (s_add_error (clock env (ticks w)) ("Processing failed: " ++ str_exn e))
    (ticked w).

End Turns.

(* ================================================================== *)
(** ** The loop as a relation *)

(** [loop_run reader pn w out]: the [for] loop, entered with the reader's
    remaining results [reader], the part number [pn] and the world [w], ends
    as [out].  One constructor per path through lines 241-285. *)
Section LoopRun.

Variable parse_datetime : Parser.
Variable env : Env.
Variable cfg : Config.
Variable s3 : S3Client.

Inductive loop_run : list read_item -> nat -> World -> result bool * World -> Prop :=
| run_exhausted pn w :
    loop_run [] pn w (Ok true, w)
| run_read_raises e rest pn w :
    loop_run (ReadRaises e :: rest) pn w
             (Raised e, logged (EvReadError e) w)
| run_no_column chunk rest pn w :
    index_of video_published_at (columns chunk) = None ->
    loop_run (Chunk chunk :: rest) pn w
             (Raised (OtherException "'video_published_at'"),
              logged (EvRead (len chunk)) w)
| run_filter_raises chunk rest pn w j e :
    index_of video_published_at (columns chunk) = Some j ->
    filter_chunk parse_datetime j chunk = inl e ->
    loop_run (Chunk chunk :: rest) pn w
             (Raised e, logged (EvRead (len chunk)) w)
| run_skipped chunk rest pn w j df out :
    index_of video_published_at (columns chunk) = Some j ->
    filter_chunk parse_datetime j chunk = inr df ->
    len df = 0 ->
    loop_run rest pn (logged (EvRead (len chunk)) w) out ->
    loop_run (Chunk chunk :: rest) pn w out
| run_delivered chunk rest pn w j df out :
    index_of video_published_at (columns chunk) = Some j ->
    filter_chunk parse_datetime j chunk = inr df ->
    len df <> 0 ->
    upload_file s3 (temp_file_name pn) (S3_BUCKET cfg) (s3_key_of cfg pn) = None ->
    loop_run rest (pn + 1)
             (turn_delivered cfg pn df (logged (EvRead (len chunk)) w)) out ->
    loop_run (Chunk chunk :: rest) pn w out
| run_refused chunk rest pn w j df m :
    index_of video_published_at (columns chunk) = Some j ->
    filter_chunk parse_datetime j chunk = inr df ->
    len df <> 0 ->
    upload_file s3 (temp_file_name pn) (S3_BUCKET cfg) (s3_key_of cfg pn)
      = Some (ClientError m) ->
    loop_run (Chunk chunk :: rest) pn w
             (Ok false,
              turn_refused env cfg pn df (ClientError m)
                (logged (EvRead (len chunk)) w))
| run_raised chunk rest pn w j df e :
    index_of video_published_at (columns chunk) = Some j ->
    filter_chunk parse_datetime j chunk = inr df ->
    len df <> 0 ->
    upload_file s3 (temp_file_name pn) (S3_BUCKET cfg) (s3_key_of cfg pn) = Some e ->
    (forall m, e <> ClientError m) ->
    loop_run (Chunk chunk :: rest) pn w
             (Raised e,
              attempted cfg pn df (Some e) (logged (EvRead (len chunk)) w)).

End LoopRun.

(* ================================================================== *)
(** ** The five endings of the loop *)

Definition is_read_error (ev : event) : bool :=
  match ev with
  | EvReadError _ => true
  | _ => false
  end.

(** A stretch of the trace in which no upload failed and no read raised. *)
Definition quiet (tr : list event) : Prop :=
  Forall (fun ev => is_failed_upload ev = false /\ is_read_error ev = false) tr.

Section LoopEnd.

Variable env : Env.
Variable cfg : Config.

(** [loop_end w out]: how a loop entered in world [w] can end, with the
    events it added, the error entries it added and the clock readings it
    made.  [tr] is the quiet stretch before the last events. *)
Inductive loop_end (w : World) : result bool * World -> Prop :=
| end_completed tr w' :
    quiet tr ->
    trace w' = (trace w ++ tr)%list ->
    errors (summary w') = errors (summary w) ->
    ticks w' = ticks w ->
    loop_end w (Ok true, w')
| end_read_failed tr e w' :
    quiet tr ->
    trace w' = (trace w ++ tr ++ [EvReadError e])%list ->
    errors (summary w') = errors (summary w) ->
    ticks w' = ticks w ->
    loop_end w (Raised e, w')
| end_filter_failed tr e w' :
    quiet tr ->
    trace w' = (trace w ++ tr)%list ->
    errors (summary w') = errors (summary w) ->
    ticks w' = ticks w ->
    loop_end w (Raised e, w')
| end_refused tr i df m w' :
    quiet tr ->
    trace w' =
      (trace w ++ tr
       ++ [EvToCsv (temp_file_name i) df;
           EvUpload (temp_file_name i) (S3_BUCKET cfg) (s3_key_of cfg i)
                    (Some (ClientError m));
           EvRemove (temp_file_name i)])%list ->
    errors (summary w') =
      (errors (summary w)
       ++ [{| timestamp := clock env (ticks w);
              error := "Upload failed for " ++ temp_file_name i ++ ": " ++ m |}])%list ->
    ticks w' = S (ticks w) ->
    loop_end w (Ok false, w')
| end_raised tr i df e w' :
    quiet tr ->
    (forall m, e <> ClientError m) ->
    trace w' =
      (trace w ++ tr
       ++ [EvToCsv (temp_file_name i) df;
           EvUpload (temp_file_name i) (S3_BUCKET cfg) (s3_key_of cfg i) (Some e)])%list ->
    errors (summary w') = errors (summary w) ->
    ticks w' = ticks w ->
    loop_end w (Raised e, w').

End LoopEnd.

(** The events a computation added when it took the world from [w] to [w']. *)
Definition events_since (w w' : World) : list event :=
  skipn (List.length (trace w)) (trace w').

(* ================================================================== *)
(** ** Counting the rows of the input *)

Definition is_row (x : exn + Row) : bool :=
  match x with
  | inr _ => true
  | inl _ => false
  end.

(** Every data line of the file is read: none has more fields than
    expected, none is refused for another reason. *)
Definition well_formed (f : csv_file) : bool := forallb is_row (tokenized f).

Fixpoint rows_of (ls : list (exn + Row)) : list Row :=
  match ls with
  | [] => []
  | inr r :: ls' => r :: rows_of ls'
  | inl _ :: ls' => rows_of ls'
  end.

(** The rows of a file as [read_csv] hands them on, in file order. *)
Definition file_rows (f : csv_file) : list Row := rows_of (tokenized f).

(** Lines 249-252 on a frame: the frame kept, or the exception raised
    (the [KeyError] of the subscript included). *)
Definition filter_frame (parse_datetime : Parser) (df : DataFrame)
  : exn + DataFrame :=
  match index_of video_published_at (columns df) with
  | Some j => filter_chunk parse_datetime j df
  | None => inl (OtherException "'video_published_at'")
  end.

(** The number of rows of a frame that lines 249-252 keep (none when they
    raise). *)
Definition count_accepted (parse_datetime : Parser) (df : DataFrame) : nat :=
  match filter_frame parse_datetime df with
  | inr kept => len kept
  | inl _ => 0
  end.

(** The count summed over the frames a reader gives. *)
Fixpoint reader_accepted (parse_datetime : Parser)
         (reader : list read_item) : nat :=
  match reader with
  | [] => 0
  | Chunk df :: reader' =>
      count_accepted parse_datetime df + reader_accepted parse_datetime reader'
  | ReadRaises _ :: reader' => reader_accepted parse_datetime reader'
  end.

(** The number of rows of a file whose timestamp field, under one reading
    for the whole file, parses and, with its zone dropped, is at or after
    the cutoff. *)
Definition accepted_rows (read : Reading) (f : csv_file) : nat :=
  match index_of video_published_at (header f) with
  | Some j => List.length (filter (accepts read j cutoff_date) (file_rows f))
  | None => 0
  end.

(** The timestamp column of a frame reads as [read] does: [pd.to_datetime]
    does not raise on it, and the reading it settles on for that column
    gives every text of the column the value [read] gives it. *)
Definition reads_as (parse_datetime : Parser) (read : Reading) (j : nat)
           (df : DataFrame) : Prop :=
  exists read',
    parse_datetime (column j df) = inr read'
    /\ forall s, In (Text s) (column j df) -> read' s = read s.

(** The same count when each field is parsed on its own, as a column of
    one value. *)
Definition accepted_alone (parse_datetime : Parser) (j : nat) (r : Row) : bool :=
  match parse_datetime [cell_at j r] with
  | inr read => accepts read j cutoff_date r
  | inl _ => false
  end.

Definition rows_accepted_alone (parse_datetime : Parser) (f : csv_file) : nat :=
  match index_of video_published_at (header f) with
  | Some j => List.length (filter (accepted_alone parse_datetime j) (file_rows f))
  | None => 0
  end.

(** A reader result that is a frame with the timestamp column. *)
Definition has_column (it : read_item) : bool :=
  match it with
  | Chunk df =>
      match index_of video_published_at (columns df) with
      | Some _ => true
      | None => false
      end
  | ReadRaises _ => false
  end.

(** A reader result on which lines 249-252 do not raise: a frame that has
    the timestamp column and whose column [pd.to_datetime] reads. *)
Definition filters (parse_datetime : Parser) (it : read_item) : bool :=
  match it with
  | Chunk df =>
      match filter_frame parse_datetime df with
      | inr _ => true
      | inl _ => false
      end
  | ReadRaises _ => false
  end.

(** The rows of all the frames a reader gives, in order. *)
Fixpoint reader_rows (reader : list read_item) : list Row :=
  match reader with
  | [] => []
  | Chunk df :: reader' => (rows df ++ reader_rows reader')%list
  | ReadRaises _ :: reader' => reader_rows reader'
  end.

(** Every result of the reader is a frame with the given header. *)
Definition frames_of (hdr : list string) (reader : list read_item) : Prop :=
  Forall (fun it => exists df, it = Chunk df /\ columns df = hdr) reader.

(** The list [first, first+1, ..., first+k-1] of part numbers. *)
Definition parts (first k : nat) : list nat := seq first k.

(* ================================================================== *)
(** ** How a run of [main] ends *)

Section MainEnd.

Variable parse_datetime : Parser.
Variable env : Env.
Variable cfg : Config.

(** What a sequence that ends the process leaves behind, from world [w]:
    which fields of the summary it kept, that it finalized the summary, that
    it added only closing events, and that an exit goes with exactly one
    written document, that of the final summary. *)
Definition ends_run (must_fail : bool) (w : World) (out : result unit * World) : Prop :=
  (status (summary (snd out)) = "failed"
   \/ (must_fail = false /\ status (summary (snd out)) = "success"))
  /\ (exists t, end_time (summary (snd out)) = Some t)
  /\ files_uploaded (summary (snd out)) = files_uploaded (summary w)
  /\ total_rows (summary (snd out)) = total_rows (summary w)
  /\ (exists more, errors (summary (snd out)) = (errors (summary w) ++ more)%list)
  /\ (exists tail,
        trace (snd out) = (trace w ++ tail)%list
        /\ forallb is_closing tail = true
        /\ (forall c, fst out = Exit c ->
              saved tail = [to_dict cfg (summary (snd out))]))
  /\ (forall c, fst out = Exit c -> (c = 0%Z <-> status (summary (snd out)) = "success"))
  /\ fst out <> Ok tt
  /\ ((forall n, cleanup_outcome env n = None) ->
      save_outcome env (SUMMARY_FILE cfg) = None ->
      exists c, fst out = Exit c).

(** The stage the run had reached when its closing sequence began: [wp] is
    the fresh world, or the world [process_and_upload_data] left; [mf] tells
    whether the run can only end as failed. *)
Definition stage (wp : World) (mf : bool) : Prop :=
  (trace wp = [] /\ files_uploaded (summary wp) = []
   /\ total_rows (summary wp) = 0 /\ mf = true)
  \/ (exists s3 w0 r,
        boto3_client env = inr s3
        /\ trace w0 = [] /\ files_uploaded (summary w0) = []
        /\ total_rows (summary w0) = 0 /\ errors (summary w0) = []
        /\ process_and_upload_data parse_datetime env cfg s3 w0 = (r, wp)
        /\ (r <> Ok true -> mf = true)).

Definition try_ends_as (w1 : World) (mf : bool) : Prop :=
  main_try parse_datetime env cfg (fresh_world env) = early_body env cfg w1
  \/ (exists e, main_try parse_datetime env cfg (fresh_world env) = (Raised e, w1))
  \/ (exists b, main_try parse_datetime env cfg (fresh_world env)
                = closing_body env cfg b w1
                /\ (mf = true -> b = false)).

End MainEnd.

Definition same_uploads (w1 wp : World) : Prop :=
  trace w1 = trace wp
  /\ files_uploaded (summary w1) = files_uploaded (summary wp)
  /\ total_rows (summary w1) = total_rows (summary wp)
  /\ exists more, errors (summary w1) = (errors (summary wp) ++ more)%list.

(** An event that is neither a read nor an upload. *)
Definition neither_read_nor_upload (ev : event) : bool :=
  negb (is_read ev) && negb (is_upload ev).

(* ================================================================== *)
(** ** What the loop writes, batch by batch *)

(** The frames handed to [chunk.to_csv], in order. *)
Fixpoint written_frames (tr : list event) : list DataFrame :=
  match tr with
  | [] => []
  | EvToCsv _ df :: tr' => df :: written_frames tr'
  | _ :: tr' => written_frames tr'
  end.

(** The rows of a list of frames, in order. *)
Definition frames_rows (dfs : list DataFrame) : list Row := flat_map rows dfs.

(** The rows the loop keeps of what a reader gives: frame by frame, the
    rows of the filtered frame (none for a frame on which lines 249-252
    raise). *)
Fixpoint reader_kept (parse_datetime : Parser)
         (reader : list read_item) : list Row :=
  match reader with
  | [] => []
  | Chunk df :: reader' =>
      (match filter_frame parse_datetime df with
       | inr kept => rows kept
       | inl _ => []
       end ++ reader_kept parse_datetime reader')%list
  | ReadRaises _ :: reader' => reader_kept parse_datetime reader'
  end.

(** The temporary files on disk after the events [tr], starting from the
    files [acc]: [to_csv] creates one, [os.remove] deletes one. *)
Fixpoint temp_files (acc : list string) (tr : list event) : list string :=
  match tr with
  | [] => acc
  | EvToCsv path _ :: tr' => temp_files (acc ++ [path])%list tr'
  | EvRemove path :: tr' =>
      temp_files (filter (fun p => negb (String.eqb p path)) acc) tr'
  | _ :: tr' => temp_files acc tr'
  end.

(** The text of the error entry an upload failure leaves (lines 274 and
    288): the [ClientError] clause names the partition file, the outer
    clause does not. *)
Definition upload_error_text (file : string) (e : exn) : string :=
  match e with
  | ClientError m => "Upload failed for " ++ file ++ ": " ++ m
  | _ => "Processing failed: " ++ str_exn e
  end.

(** The files of the uploads that raised something the clause of line 273
    does not catch: the only [os.remove] calls are at lines 277 and 280,
    after that clause or after a stored upload. *)
Fixpoint escaped_files (tr : list event) : list string :=
  match tr with
  | [] => []
  | EvUpload file _ _ (Some (ClientError _)) :: tr' => escaped_files tr'
  | EvUpload file _ _ (Some _) :: tr' => file :: escaped_files tr'
  | _ :: tr' => escaped_files tr'
  end.

(* ================================================================== *)
(** ** The worlds the closing sequences of [main] leave *)

(** After [summary.complete(success)]. *)
Definition completed (env : Env) (success : bool) (w : World) : World :=
  with_summary (s_complete (clock env (ticks w)) success) (ticked w).

(** After a [cleanup_files] call that did not raise. *)
Definition cleaned (w : World) : World :=
  {| summary := summary w; ticks := ticks w;
     cleanups := S (cleanups w);
     trace := (trace w ++ [EvCleanup None])%list |}.

(** After a [summary.save] call that did not raise. *)
Definition summary_saved (cfg : Config) (w : World) : World :=
  logged (EvSave (SUMMARY_FILE cfg) (to_dict cfg (summary w)) None) w.

(** After a [summary.save] call that raised [e]. *)
Definition summary_unsaved (cfg : Config) (e : exn) (w : World) : World :=
  logged (EvSave (SUMMARY_FILE cfg) (to_dict cfg (summary w)) (Some e)) w.

(** After line 192 of a download of [bytes] bytes. *)
Definition downloaded_world (env : Env) (bytes : Z) : World :=
  with_summary (s_set_download_size (PyFloat (Qmake bytes (1024 * 1024))))
               (fresh_world env).

(** The entry [extract_csv_from_zip] records when it returns [False]
    (lines 211 and 228); [None] when it records none. *)
Definition extract_error_text (x : extract_outcome) : option string :=
  match x with
  | Extracted => None
  | NoCsvInArchive => Some "No CSV file found in archive"
  | ExtractFails e =>
      if isinstance_Exception e then Some ("Extraction failed: " ++ str_exn e)
      else None
  end.

(* ================================================================== *)
(** ** Inside the stages: the download loop *)

Module Download.

(** What [response.iter_content] yields: a chunk of bytes, or the
    exception the stream raises when it breaks. *)
Inductive stream_item : Type :=
| Piece (chunk : list Byte.byte)
| Broken (e : exn).

(** The response of [requests.get], as lines 177-184 use it. *)
Record Response : Type := mkResponse {
  (** [response.raise_for_status()] *)
  raise_for_status : option exn;
  (** [int(response.headers.get('content-length', 0))] *)
  total_size : exn + Z;
  iter_content : list stream_item
}.

(** The local state of lines 181-190: the bytes written to [ZIP_PATH] so
    far and the counter [downloaded]. *)
Record progress : Type := mkProgress {
  file : list Byte.byte;
  downloaded : Z
}.

(** The [for] loop of lines 184-190; the progress line is only printed.
    [Broken e] stands for the turn in which [e] is raised, by the stream or
    by [file.write]: the loop ends there with what was written before. *)
Fixpoint write_chunks (items : list stream_item) (p : progress)
  : option exn * progress :=
  match items with
  | [] => (None, p)
  | Broken e :: _ => (Some e, p)
  | Piece chunk :: items' =>
      match chunk with
      | [] => write_chunks items' p
      | _ :: _ =>
          write_chunks items'
            {| file := (file p ++ chunk)%list;
               downloaded := (downloaded p + Z.of_nat (List.length chunk))%Z |}
      end
  end.

(** Lines 173-193 up to the handler: how the [with] block ends, and what
    [ZIP_PATH] holds afterwards ([None] when the file was not opened).
    [get] is what [requests.get] gives, [open_zip] the outcome of the
    [open] of line 183. *)
Definition fetch (get : exn + Response) (open_zip : option exn)
  : download_outcome * option (list Byte.byte) :=
  match get with
  | inl e => (DownloadFails e, None)
  | inr response =>
      match raise_for_status response with
      | Some e => (DownloadFails e, None)
      | None =>
          match total_size response with
          | inl e => (DownloadFails e, None)
          | inr _ =>
              match open_zip with
              | Some e => (DownloadFails e, None)
              | None =>
                  match write_chunks (iter_content response)
                                     {| file := []; downloaded := 0 |} with
                  | (Some e, p) => (DownloadFails e, Some (file p))
                  | (None, p) => (Downloaded (downloaded p), Some (file p))
                  end
              end
          end
      end
  end.

(** All the bytes of the stream, in order, up to the first break. *)
Fixpoint payload (items : list stream_item) : list Byte.byte :=
  match items with
  | [] => []
  | Broken _ :: _ => []
  | Piece chunk :: items' => (chunk ++ payload items')%list
  end.

Fixpoint unbroken (items : list stream_item) : bool :=
  match items with
  | [] => true
  | Broken _ :: _ => false
  | Piece _ :: items' => unbroken items'
  end.

End Download.

(* ================================================================== *)
(** ** Inside the stages: the member of the archive *)

Module Zip.

(** [s.endswith(suffix)]. *)
Fixpoint endswith (s suffix : string) : bool :=
  if String.eqb s suffix then true
  else match s with
       | EmptyString => false
       | String _ s' => endswith s' suffix
       end.

(** Line 208. *)
Definition csv_files (namelist : list string) : list string :=
  filter (fun f => endswith f ".csv") namelist.

(** Lines 207-222: [archive] is what opening [ZIP_PATH] gives, the names
    of its members or the exception raised; [extract_rename] is the
    outcome of lines 217-222 for the member chosen. *)
Definition outcome (archive : exn + list string)
           (extract_rename : string -> option exn) : extract_outcome :=
  match archive with
  | inl e => ExtractFails e
  | inr namelist =>
      match csv_files namelist with
      | [] => NoCsvInArchive
      | csv_file :: _ =>
          match extract_rename csv_file with
          | None => Extracted
          | Some e => ExtractFails e
          end
      end
  end.

End Zip.

(* ================================================================== *)
(** ** Inside the stages: [cleanup_files] on a directory of files *)

Module Files.

(** What a path names. *)
Inductive node : Type :=
| File
| Directory.

(** The working directory: what each path names, if anything. *)
Definition FileSystem : Type := string -> option node.

(** [os.path.exists(path)]. *)
Definition os_path_exists (path : string) (d : FileSystem) : bool :=
  match d path with
  | Some _ => true
  | None => false
  end.

(** [os.remove(path)]: removes a file; raises [IsADirectoryError] on a
    directory and [FileNotFoundError] on a missing path. *)
Definition os_remove (path : string) (d : FileSystem) : exn + FileSystem :=
  match d path with
  | Some File => inr (fun p => if String.eqb p path then None else d p)
  | Some Directory => inl (OtherException ("[Errno 21] Is a directory: '" ++ path ++ "'"))
  | None => inl (OtherException ("[Errno 2] No such file or directory: '" ++ path ++ "'"))
  end.

(** The loop of lines 297-300 over a list of paths. *)
Fixpoint remove_each (paths : list string) (d : FileSystem)
  : option exn * FileSystem :=
  match paths with
  | [] => (None, d)
  | file_path :: paths' =>
      if os_path_exists file_path d then
        match os_remove file_path d with
        | inr d' => remove_each paths' d'
        | inl e => (Some e, d)
        end
      else remove_each paths' d
  end.

(** [cleanup_files] (lines 293-300). *)
Definition cleanup_files (cfg : Config) (d : FileSystem) : option exn * FileSystem :=
  remove_each [ZIP_PATH cfg; EXTRACTED_CSV cfg] d.

(** The outcome of the call number [n] (from 0) of [cleanup_files] when
    nothing else touches the directory in between: the answers the
    [cleanup_outcome] oracle of a run gives on such a directory. *)
Fixpoint nth_cleanup (cfg : Config) (d : FileSystem) (n : nat) : option exn :=
  match n with
  | 0 => fst (cleanup_files cfg d)
  | S n' => nth_cleanup cfg (snd (cleanup_files cfg d)) n'
  end.

End Files.

(* ================================================================== *)
(** ** What the bucket receives *)

(** The partition files on the local disk, with the frame each holds. *)
Definition disk : Type := list (string * DataFrame).

Definition disk_remove (path : string) (d : disk) : disk :=
  filter (fun e => negb (String.eqb (fst e) path)) d.

Definition disk_write (path : string) (df : DataFrame) (d : disk) : disk :=
  (path, df) :: disk_remove path d.

Definition disk_read (path : string) (d : disk) : option DataFrame :=
  match find (fun e => String.eqb (fst e) path) d with
  | Some e => Some (snd e)
  | None => None
  end.

(** The objects the client has stored after the events [tr], in the order
    of the calls: [upload_file(file, bucket, key)] stores under [key] what
    [file] holds at the time of the call. *)
Fixpoint stored_objects (d : disk) (tr : list event)
  : list (string * string * DataFrame) :=
  match tr with
  | [] => []
  | EvToCsv path df :: tr' => stored_objects (disk_write path df d) tr'
  | EvRemove path :: tr' => stored_objects (disk_remove path d) tr'
  | EvUpload file bucket key None :: tr' =>
      match disk_read file d with
      | Some df => (bucket, key, df) :: stored_objects d tr'
      | None => stored_objects d tr'
      end
  | _ :: tr' => stored_objects d tr'
  end.

(** The filtered frames of a reader that keep at least one row, in order. *)
Fixpoint reader_batches (parse_datetime : Parser)
         (reader : list read_item) : list DataFrame :=
  match reader with
  | [] => []
  | Chunk df :: reader' =>
      match filter_frame parse_datetime df with
      | inr kept =>
          if Nat.eqb (len kept) 0
          then reader_batches parse_datetime reader'
          else kept :: reader_batches parse_datetime reader'
      | inl _ => reader_batches parse_datetime reader'
      end
  | ReadRaises _ :: reader' => reader_batches parse_datetime reader'
  end.

(** The objects of the partitions [first], [first+1], ... holding the
    given frames. *)
Definition partition_objects (cfg : Config) (first : nat) (frames : list DataFrame)
  : list (string * string * DataFrame) :=
  map (fun ib => (S3_BUCKET cfg, s3_key_of cfg (fst ib), snd ib))
      (combine (seq first (List.length frames)) frames).

(* ================================================================== *)
(** ** A parser instance and sample data for the examples *)

(** Two formats of timestamps, as [pd.to_datetime] reads them once it has
    settled on one: the format the script names at line 248,
    [2024-10-11T00:00:06Z], whose zone can also be written [+hh:mm] or
    [-hh:mm]; and the date [mm/dd/yyyy]. *)
Module Iso8601.

Definition digit (c : ascii) : option Z :=
  let n := nat_of_ascii c in
  if andb (48 <=? n)%nat (n <=? 57)%nat then Some (Z.of_nat (n - 48))
  else None.

Fixpoint number (s : string) (acc : Z) : option Z :=
  match s with
  | EmptyString => Some acc
  | String c s' =>
      match digit c with
      | Some d => number s' (10 * acc + d)%Z
      | None => None
      end
  end.

Definition field (s : string) (start n : nat) : option Z :=
  let f := substring start n s in
  if (String.length f =? n)%nat then number f 0 else None.

Definition sep (s : string) (i : nat) (c : ascii) : bool :=
  match String.get i s with
  | Some c' => Ascii.eqb c c'
  | None => false
  end.

Definition leap (y : Z) : bool :=
  ((y mod 4 =? 0) && (negb (y mod 100 =? 0) || (y mod 400 =? 0)))%Z%bool.

Definition days_in_month (y m : Z) : Z :=
  if (m =? 2)%Z then (if leap y then 29 else 28)%Z
  else if ((m =? 4) || (m =? 6) || (m =? 9) || (m =? 11))%Z%bool then 30%Z
  else 31%Z.

(** Days from 1970-01-01 to the given date of the proleptic Gregorian
    calendar. *)
Definition days_from_civil (y m d : Z) : Z :=
  let y' := (if m <=? 2 then y - 1 else y)%Z in
  let era := (y' / 400)%Z in
  let yoe := (y' - era * 400)%Z in
  let mp := (if m <=? 2 then m + 9 else m - 3)%Z in
  let doy := ((153 * mp + 2) / 5 + d - 1)%Z in
  let doe := (yoe * 365 + yoe / 4 - yoe / 100 + doy)%Z in
  (era * 146097 + doe - 719468)%Z.

(** The wall-clock reading of the given fields, in nanoseconds. *)
Definition civil (y mo d h mi sec : Z) : option Z :=
  if ((1 <=? mo) && (mo <=? 12) && (1 <=? d) && (d <=? days_in_month y mo)
      && (h <=? 23) && (mi <=? 59) && (sec <=? 59))%Z%bool
  then Some ((days_from_civil y mo d * 86400
              + h * 3600 + mi * 60 + sec) * 1000000000)%Z
  else None.

(** The zone written from position 19 on, in seconds east of UTC. *)
Definition zone (s : string) : option Z :=
  let z := substring 19 (String.length s - 19) s in
  if String.eqb z "Z" then Some 0%Z
  else if ((String.length z =? 6)%nat && sep z 3 ":")%bool then
    match field z 1 2, field z 4 2 with
    | Some h, Some m =>
        if ((h <=? 23) && (m <=? 59))%Z%bool then
          if sep z 0 "+" then Some (h * 3600 + m * 60)%Z
          else if sep z 0 "-" then Some (- (h * 3600 + m * 60))%Z
          else None
        else None
    | _, _ => None
    end
  else None.

(** The format [%Y-%m-%dT%H:%M:%S%z]: the value keeps its own zone. *)
Definition parse (s : string) : option Timestamp :=
  if (sep s 4 "-" && sep s 7 "-" && sep s 10 "T"
      && sep s 13 ":" && sep s 16 ":")%bool
  then
    match field s 0 4, field s 5 2, field s 8 2,
          field s 11 2, field s 14 2, field s 17 2, zone s with
    | Some y, Some mo, Some d, Some h, Some mi, Some sec, Some off =>
        match civil y mo d h mi sec with
        | Some wall => Some {| wall_clock := wall; utc_offset := Some off |}
        | None => None
        end
    | _, _, _, _, _, _, _ => None
    end
  else None.

(** The format [%m/%d/%Y]: midnight of the day, with no zone. *)
Definition parse_date (s : string) : option Timestamp :=
  if ((String.length s =? 10)%nat && sep s 2 "/" && sep s 5 "/")%bool
  then
    match field s 0 2, field s 3 2, field s 6 4 with
    | Some mo, Some d, Some y =>
        match civil y mo d 0 0 0 with
        | Some wall => Some {| wall_clock := wall; utc_offset := None |}
        | None => None
        end
    | _, _, _ => None
    end
  else None.

End Iso8601.

(** An instance of the parser parameter for the examples: [pd.to_datetime]
    on columns whose values are in the two formats above.  The format is
    that of the first value that is not missing; the values that do not
    match it are NaT.  When the first value is in neither format, none is
    inferred and each value is parsed on its own.  Values read with
    different UTC offsets make lines 249-252 raise (the text of the
    exception is that of pandas 3; pandas 2 raises at the accessor of line
    252). *)
Module Inferred.

Fixpoint first_text (col : list cell) : option string :=
  match col with
  | [] => None
  | Text s :: _ => Some s
  | _ :: col' => first_text col'
  end.

Definition read_any : Reading :=
  fun s =>
    match Iso8601.parse s with
    | Some t => Some t
    | None => Iso8601.parse_date s
    end.

Definition reading_of (col : list cell) : Reading :=
  match first_text col with
  | Some s =>
      match Iso8601.parse s, Iso8601.parse_date s with
      | Some _, _ => Iso8601.parse
      | None, Some _ => Iso8601.parse_date
      | None, None => read_any
      end
  | None => read_any
  end.

(** The zones of the values of a column that a reading reads. *)
Fixpoint offsets (read : Reading) (col : list cell) : list (option Z) :=
  match col with
  | [] => []
  | Text s :: col' =>
      match read s with
      | Some t => utc_offset t :: offsets read col'
      | None => offsets read col'
      end
  | _ :: col' => offsets read col'
  end.

Definition same_zone (a b : option Z) : bool :=
  match a, b with
  | Some x, Some y => (x =? y)%Z
  | None, None => true
  | _, _ => false
  end.

Definition one_zone (l : list (option Z)) : bool :=
  match l with
  | [] => true
  | o :: l' => forallb (same_zone o) l'
  end.

Definition parse : Parser :=
  fun col =>
    let read := reading_of col in
    if one_zone (offsets read col) then inr read
    else inl (OtherException
                ("Mixed timezones detected. Pass utc=True in to_datetime "
                 ++ "or tz='UTC' in DatetimeIndex to convert to a common timezone.")).

End Inferred.

Module Sample.

(** The configuration with the defaults of class [Config] and both Kaggle
    variables set. *)
Definition config : Config :=
  {| KAGGLE_USERNAME := Some "user"; KAGGLE_KEY := Some "key";
     AWS_ACCESS_KEY := None; AWS_SECRET_KEY := None;
     AWS_REGION := "us-east-1";
     S3_BUCKET := "bronze-03"; S3_PREFIX := "final-raw/";
     CHUNK_ROWS := 100000;
     ZIP_PATH := "youtube.zip"; EXTRACTED_CSV := "youtube.csv";
     SUMMARY_FILE := "ingestion_summary.json" |}.

Definition with_chunk_rows (n : Z) : Config :=
  {| KAGGLE_USERNAME := KAGGLE_USERNAME config; KAGGLE_KEY := KAGGLE_KEY config;
     AWS_ACCESS_KEY := None; AWS_SECRET_KEY := None;
     AWS_REGION := AWS_REGION config;
     S3_BUCKET := S3_BUCKET config; S3_PREFIX := S3_PREFIX config;
     CHUNK_ROWS := n;
     ZIP_PATH := ZIP_PATH config; EXTRACTED_CSV := EXTRACTED_CSV config;
     SUMMARY_FILE := SUMMARY_FILE config |}.

Definition hdr : list string := ["video_id"; "video_published_at"].

Definition row (id ts : string) : line := Fields [Some id; Some ts].

(** Published after, exactly at, and before the cutoff; and with no
    timestamp at all. *)
Definition late : line := row "a" "2026-02-01T10:00:00Z".
Definition at_cutoff : line := row "b" "2026-01-19T00:00:00Z".
Definition early : line := row "c" "2024-10-11T00:00:06Z".
Definition blank : line := Fields [Some "d"; None].
Definition garbled : line := row "e" "yesterday".

(** In another format; with a zone two hours east, just after the cutoff
    on its own clock; with a zone two hours west, just before it. *)
Definition other_format : line := row "r" "03/15/2026".
Definition east : line := row "p" "2026-01-19T00:30:00+02:00".
Definition west : line := row "m" "2026-01-18T23:30:00-02:00".

Definition frame (ls : list line) : DataFrame :=
  {| columns := hdr;
     rows := map (fun l => match l with
                           | Fields fs => map cell_of_field fs
                           | Malformed _ => []
                           end) ls |}.

(** A client whose every call succeeds, and one that refuses a given key
    with the given exception. *)
Definition s3_ok : S3Client :=
  {| upload_file := fun _ _ _ => None; head_bucket := fun _ => None |}.

Definition s3_refusing (key : string) (e : exn) : S3Client :=
  {| upload_file := fun _ _ k => if String.eqb k key then Some e else None;
     head_bucket := fun _ => None |}.

(** The clock of the examples ticks once a second from the epoch. *)
Definition env_of (s3 : S3Client) (f : csv_file) : Env :=
  {| clock := fun k => (Z.of_nat k * 1000000)%Z;
     boto3_client := inr s3;
     download := Downloaded 3145728;
     extract := Extracted;
     open_csv := fun path => if String.eqb path "youtube.csv" then Some f else None;
     cleanup_outcome := fun _ => None;
     save_outcome := fun _ => None |}.

(** The run on an archive whose first [.csv] member is
    [youtube.csv/data.csv]: [zip_ref.extract] makes the directory
    [youtube.csv], the rename of the member onto it fails, and every later
    [cleanup_files] call finds [youtube.csv] and fails to [os.remove] it. *)
Definition env_cleanup_fails (s3 : S3Client) (f : csv_file) : Env :=
  {| clock := fun k => (Z.of_nat k * 1000000)%Z;
     boto3_client := inr s3;
     download := Downloaded 3145728;
     extract :=
       ExtractFails
         (OtherException
            "[Errno 39] Directory not empty: 'youtube.csv/data.csv' -> 'youtube.csv'");
     open_csv := fun path => if String.eqb path "youtube.csv" then Some f else None;
     cleanup_outcome :=
       fun _ => Some (OtherException "[Errno 21] Is a directory: 'youtube.csv'");
     save_outcome := fun _ => None |}.

Definition world0 : World :=
  {| summary := {| start_time := 0%Z; end_time := None; status := "running";
                   total_rows := 0; files_uploaded := []; errors := [];
                   download_size_mb := PyInt 0 |};
     ticks := 1; cleanups := 0; trace := [] |}.

End Sample.

(* ================================================================== *)
(** * Properties *)

Unset Implicit Arguments.

(** ** Formatting *)

Module FmtFacts.

Lemma read_zeros (k : nat) (s : string) :
  Fmt.read_decimal (Fmt.zeros k ++ s) = Fmt.read_decimal s.
Proof.
  unfold Fmt.read_decimal. induction k as [|k IH]; simpl; [reflexivity|].
  unfold uint_of_char. simpl. rewrite <- IH.
  destruct (NilEmpty.uint_of_string (Fmt.zeros k ++ s)) as [d|]; reflexivity.
Qed.

Lemma read_decimal_decimal (n : nat) : Fmt.read_decimal (Fmt.decimal n) = Some n.
Proof.
  unfold Fmt.read_decimal, Fmt.decimal, NilZero.string_of_uint.
  pose proof (DecimalNat.Unsigned.of_to n) as H.
  destruct (Nat.to_uint n) as [| | | | | | | | | |] eqn:E;
    try (rewrite NilEmpty.usu; simpl; congruence).
  cbv in H. subst n. reflexivity.
Qed.

(** Reading back what [{:04d}] printed gives the number: the format loses
    nothing, whatever the width of the number. *)
Lemma read_d04 (n : nat) : Fmt.read_decimal (Fmt.d04 n) = Some n.
Proof.
  unfold Fmt.d04, Fmt.zero_pad. rewrite read_zeros. apply read_decimal_decimal.
Qed.

Lemma d04_inj (n m : nat) : Fmt.d04 n = Fmt.d04 m -> n = m.
Proof.
  intros H. pose proof (read_d04 n) as Hn. rewrite H, read_d04 in Hn. congruence.
Qed.

Lemma length_append (a b : string) :
  String.length (a ++ b) = String.length a + String.length b.
Proof. induction a as [|c a IH]; simpl; [reflexivity|]. now rewrite IH. Qed.

Lemma append_inv_head (a x y : string) : a ++ x = a ++ y -> x = y.
Proof. induction a as [|c a IH]; simpl; intros H; [assumption|]. injection H; auto. Qed.

Lemma append_inv_tail (z x y : string) : x ++ z = y ++ z -> x = y.
Proof.
  revert y. induction x as [|c x IH]; intros [|d y] H; simpl in *.
  - reflexivity.
  - apply (f_equal String.length) in H. simpl in H. rewrite length_append in H. lia.
  - apply (f_equal String.length) in H. simpl in H. rewrite length_append in H. lia.
  - injection H as -> H. f_equal. auto.
Qed.

Lemma temp_file_name_inj (n m : nat) : temp_file_name n = temp_file_name m -> n = m.
Proof.
  unfold temp_file_name. intros H.
  apply append_inv_head, append_inv_tail in H. now apply d04_inj.
Qed.

Lemma s3_key_of_inj (cfg : Config) (n m : nat) :
  s3_key_of cfg n = s3_key_of cfg m -> n = m.
Proof.
  unfold s3_key_of. intros H. apply append_inv_head in H.
  now apply temp_file_name_inj.
Qed.

Lemma s3_url_is_not_key (cfg : Config) (n : nat) : s3_url_of cfg n <> s3_key_of cfg n.
Proof.
  unfold s3_url_of. intros H. apply (f_equal String.length) in H.
  rewrite !length_append in H. simpl in H. lia.
Qed.

Lemma NoDup_map_inj {A B : Type} (f : A -> B) (l : list A) :
  (forall x y, f x = f y -> x = y) -> NoDup l -> NoDup (map f l).
Proof.
  intros I. induction 1 as [|x l N _ IH]; simpl; constructor; auto.
  intros H. apply in_map_iff in H. destruct H as (y & E & Hy).
  apply I in E. subst. contradiction.
Qed.

End FmtFacts.

(** ** The row filter *)

Section FilterFacts.

Variable read : Reading.

Lemma cell_at_set_cell (j : nat) (c : cell) (r : Row) :
  cell_at j (set_cell j c r) = c.
Proof.
  unfold cell_at. revert r.
  induction j as [|j IH]; intros [|x r]; simpl; auto.
Qed.

(** The frame kept under a reading: the accepted rows, in order, with the
    timestamp cell parsed. *)
Lemma select_rows (j : nat) (cutoff : Timestamp) (df : DataFrame) :
  rows (select_ge j cutoff (parse_column read j df)) =
  map (fun r => set_cell j (to_datetime read (cell_at j r)) r)
      (filter (accepts read j cutoff) (rows df)).
Proof.
  unfold select_ge, parse_column; simpl.
  induction (rows df) as [|r rs IH]; simpl; [reflexivity|].
  rewrite cell_at_set_cell. unfold accepts at 1.
  destruct (ge_cutoff cutoff (to_datetime read (cell_at j r)));
    simpl; rewrite IH; reflexivity.
Qed.

Lemma accepts_unparsed (j : nat) (cutoff : Timestamp) (r : Row) :
  to_datetime read (cell_at j r) = NaT ->
  accepts read j cutoff r = false.
Proof. unfold accepts; intros ->; reflexivity. Qed.

Lemma accepts_parsed (j : nat) (cutoff : Timestamp) (r : Row) (t : Timestamp) :
  to_datetime read (cell_at j r) = Ts t ->
  accepts read j cutoff r = (wall_clock cutoff <=? wall_clock t)%Z.
Proof. unfold accepts; intros ->; reflexivity. Qed.

End FilterFacts.

Section ChunkFacts.

Variable parse_datetime : Parser.

(** What lines 249-252 keep of a chunk, when they do not raise. *)
Lemma filter_chunk_rows (j : nat) (df kept : DataFrame) :
  filter_chunk parse_datetime j df = inr kept ->
  exists read,
    parse_datetime (column j df) = inr read
    /\ columns kept = columns df
    /\ rows kept =
       map (fun r => set_cell j (to_datetime read (cell_at j r)) r)
           (filter (accepts read j cutoff_date) (rows df)).
Proof.
  unfold filter_chunk.
  destruct (parse_datetime (column j df)) as [e|read]; [discriminate|].
  intros H. injection H as <-. exists read.
  split; [reflexivity|]. split; [reflexivity|apply select_rows].
Qed.

Lemma len_filter_chunk (j : nat) (df kept : DataFrame) :
  filter_chunk parse_datetime j df = inr kept -> len kept <= len df.
Proof.
  intros H. destruct (filter_chunk_rows _ _ _ H) as (read & _ & _ & R).
  unfold len. rewrite R, length_map. apply filter_length_le.
Qed.

Lemma columns_filter_chunk (j : nat) (df kept : DataFrame) :
  filter_chunk parse_datetime j df = inr kept -> columns kept = columns df.
Proof.
  intros H. destruct (filter_chunk_rows _ _ _ H) as (read & _ & C & _). exact C.
Qed.

End ChunkFacts.

(** ** One turn of the loop *)

Section TurnFacts.

Variable parse_datetime : Parser.
Variable env : Env.
Variable cfg : Config.
Variable s3 : S3Client.

Abbreviation body := (loop_body parse_datetime env cfg s3).
Abbreviation filtered := (filter_chunk parse_datetime).
Abbreviation answer pn :=
  (upload_file s3 (temp_file_name pn) (S3_BUCKET cfg) (s3_key_of cfg pn)).

Lemma loop_body_no_column (chunk : DataFrame) (pn : nat) (w : World) :
  index_of video_published_at (columns chunk) = None ->
  body chunk pn w = (Raised (OtherException "'video_published_at'"), w).
Proof.
  intros H. unfold loop_body, getitem_video_published_at, bind.
  rewrite H. reflexivity.
Qed.

Lemma loop_body_filter_raises (chunk : DataFrame) (pn j : nat) (w : World) (e : exn) :
  index_of video_published_at (columns chunk) = Some j ->
  filtered j chunk = inl e ->
  body chunk pn w = (Raised e, w).
Proof.
  intros H F. unfold loop_body, getitem_video_published_at, bind.
  rewrite H. simpl. rewrite F. reflexivity.
Qed.

Lemma loop_body_empty (chunk : DataFrame) (pn j : nat) (w : World) (df : DataFrame) :
  index_of video_published_at (columns chunk) = Some j ->
  filtered j chunk = inr df ->
  len df = 0 ->
  body chunk pn w = (Ok (NextChunk pn), w).
Proof.
  intros H F E. unfold loop_body, getitem_video_published_at, bind.
  rewrite H. simpl. rewrite F. simpl. rewrite E. reflexivity.
Qed.

Lemma loop_body_delivered (chunk : DataFrame) (pn j : nat) (w : World) (df : DataFrame) :
  index_of video_published_at (columns chunk) = Some j ->
  filtered j chunk = inr df ->
  len df <> 0 ->
  answer pn = None ->
  body chunk pn w =
  (Ok (NextChunk (pn + 1)), turn_delivered cfg pn df w).
Proof.
  intros H F E U. unfold loop_body, getitem_video_published_at, bind.
  rewrite H. simpl. rewrite F. simpl.
  destruct (Nat.eqb_spec (len df) 0) as [E0|_]; [contradiction|].
  unfold try_except, bind, s3_key_of in *. simpl. rewrite U. reflexivity.
Qed.

Lemma loop_body_refused (chunk : DataFrame) (pn j : nat) (w : World)
      (df : DataFrame) (m : string) :
  index_of video_published_at (columns chunk) = Some j ->
  filtered j chunk = inr df ->
  len df <> 0 ->
  answer pn = Some (ClientError m) ->
  body chunk pn w =
  (Ok (Return false), turn_refused env cfg pn df (ClientError m) w).
Proof.
  intros H F E U. unfold loop_body, getitem_video_published_at, bind.
  rewrite H. simpl. rewrite F. simpl.
  destruct (Nat.eqb_spec (len df) 0) as [E0|_]; [contradiction|].
  unfold try_except, bind, s3_key_of in *. simpl. rewrite U. reflexivity.
Qed.

Lemma loop_body_raised (chunk : DataFrame) (pn j : nat) (w : World)
      (df : DataFrame) (e : exn) :
  index_of video_published_at (columns chunk) = Some j ->
  filtered j chunk = inr df ->
  len df <> 0 ->
  answer pn = Some e ->
  (forall m, e <> ClientError m) ->
  body chunk pn w = (Raised e, attempted cfg pn df (Some e) w).
Proof.
  intros H F E U NC. unfold loop_body, getitem_video_published_at, bind.
  rewrite H. simpl. rewrite F. simpl.
  destruct (Nat.eqb_spec (len df) 0) as [E0|_]; [contradiction|].
  unfold try_except, bind, s3_key_of in *. simpl. rewrite U.
  destruct e; try reflexivity. exfalso; eapply NC; reflexivity.
Qed.

End TurnFacts.

(** ** Reading traces and worlds *)

Lemma upload_calls_app (a b : list event) :
  upload_calls (a ++ b) = (upload_calls a ++ upload_calls b)%list.
Proof.
  induction a as [|ev a IH]; simpl; [reflexivity|].
  destruct ev; simpl; rewrite IH; reflexivity.
Qed.

Lemma delivered_app (a b : list event) :
  delivered (a ++ b) = (delivered a ++ delivered b)%list.
Proof.
  induction a as [|ev a IH]; simpl; [reflexivity|].
  destruct ev as [| | |? ? ? [?|]| | |]; simpl; rewrite IH; reflexivity.
Qed.

Lemma written_rows_app (a b : list event) :
  written_rows (a ++ b) = written_rows a + written_rows b.
Proof.
  induction a as [|ev a IH]; simpl; [reflexivity|].
  destruct ev; simpl; rewrite IH; lia.
Qed.

Lemma saved_app (a b : list event) :
  saved (a ++ b) = (saved a ++ saved b)%list.
Proof.
  induction a as [|ev a IH]; simpl; [reflexivity|].
  destruct ev as [| | | | | |? ? [?|]]; simpl; rewrite IH; reflexivity.
Qed.

Section WorldFacts.

Variable env : Env.
Variable cfg : Config.

Lemma trace_attempted (pn : nat) (df : DataFrame) (r : option exn) (w : World) :
  trace (attempted cfg pn df r w) =
  (trace w ++ [EvToCsv (temp_file_name pn) df;
               EvUpload (temp_file_name pn) (S3_BUCKET cfg) (s3_key_of cfg pn) r])%list.
Proof. unfold attempted; simpl. rewrite <- app_assoc. reflexivity. Qed.

Lemma trace_turn_delivered (pn : nat) (df : DataFrame) (w : World) :
  trace (turn_delivered cfg pn df w) =
  (trace w ++ [EvToCsv (temp_file_name pn) df;
               EvUpload (temp_file_name pn) (S3_BUCKET cfg) (s3_key_of cfg pn) None;
               EvRemove (temp_file_name pn)])%list.
Proof.
  unfold turn_delivered. cbn [trace logged with_summary].
  rewrite trace_attempted, <- app_assoc. reflexivity.
Qed.

Lemma trace_turn_refused (pn : nat) (df : DataFrame) (e : exn) (w : World) :
  trace (turn_refused env cfg pn df e w) =
  (trace w ++ [EvToCsv (temp_file_name pn) df;
               EvUpload (temp_file_name pn) (S3_BUCKET cfg) (s3_key_of cfg pn) (Some e);
               EvRemove (temp_file_name pn)])%list.
Proof.
  unfold turn_refused. cbn [trace logged with_summary ticked].
  rewrite trace_attempted, <- app_assoc. reflexivity.
Qed.

Lemma summary_attempted (pn : nat) (df : DataFrame) (r : option exn) (w : World) :
  summary (attempted cfg pn df r w) = s_add_rows (len df) (summary w).
Proof. reflexivity. Qed.

Lemma summary_turn_delivered (pn : nat) (df : DataFrame) (w : World) :
  summary (turn_delivered cfg pn df w) =
  s_append_file (s3_url_of cfg pn) (s_add_rows (len df) (summary w)).
Proof. reflexivity. Qed.

Lemma summary_turn_refused (pn : nat) (df : DataFrame) (e : exn) (w : World) :
  summary (turn_refused env cfg pn df e w) =
  s_add_error (clock env (ticks w))
    ("Upload failed for " ++ temp_file_name pn ++ ": " ++ str_exn e)
    (s_add_rows (len df) (summary w)).
Proof. reflexivity. Qed.

End WorldFacts.

(** ** The loop follows the relation *)

Section LoopFacts.

Variable parse_datetime : Parser.
Variable env : Env.
Variable cfg : Config.
Variable s3 : S3Client.

Abbreviation loop := (for_chunks parse_datetime env cfg s3).
Abbreviation run := (loop_run parse_datetime env cfg s3).

Lemma for_chunks_chunk (chunk : DataFrame) (rest : list read_item)
      (pn : nat) (w : World) :
  loop (Chunk chunk :: rest) pn w =
  match loop_body parse_datetime env cfg s3 chunk pn (logged (EvRead (len chunk)) w) with
  | (Ok (NextChunk pn'), w') => loop rest pn' w'
  | (Ok (Return b), w') => (Ok b, w')
  | (Raised e, w') => (Raised e, w')
  | (Exit c, w') => (Exit c, w')
  end.
Proof.
  simpl. unfold bind at 1. unfold log at 1. unfold bind at 1.
  destruct (loop_body parse_datetime env cfg s3 chunk pn (logged (EvRead (len chunk)) w))
    as [[[pn'|b]|e|c] w']; reflexivity.
Qed.

(** The loop is total and ends as the relation says. *)
Lemma for_chunks_run (reader : list read_item) :
  forall pn w, run reader pn w (loop reader pn w).
Proof.
  induction reader as [|[chunk|e] rest IH]; intros pn w.
  - apply run_exhausted.
  - rewrite for_chunks_chunk.
    destruct (index_of video_published_at (columns chunk)) as [j|] eqn:Hj.
    + destruct (filter_chunk parse_datetime j chunk) as [e|df] eqn:Hf.
      { rewrite (loop_body_filter_raises _ _ _ _ _ _ _ _ _ Hj Hf).
        eapply run_filter_raises; eauto. }
      destruct (Nat.eq_dec (len df) 0) as [E|E].
      * rewrite (loop_body_empty _ _ _ _ _ _ _ _ _ Hj Hf E).
        eapply run_skipped; eauto.
      * destruct (upload_file s3 (temp_file_name pn) (S3_BUCKET cfg) (s3_key_of cfg pn))
          as [e|] eqn:U.
        -- destruct e as [m|m|m|].
           ++ rewrite (loop_body_refused _ _ _ _ _ _ _ _ _ _ Hj Hf E U).
              eapply run_refused; eauto.
           ++ rewrite (loop_body_raised _ _ _ _ _ _ _ _ _ _ Hj Hf E U) by discriminate.
              eapply run_raised; eauto; discriminate.
           ++ rewrite (loop_body_raised _ _ _ _ _ _ _ _ _ _ Hj Hf E U) by discriminate.
              eapply run_raised; eauto; discriminate.
           ++ rewrite (loop_body_raised _ _ _ _ _ _ _ _ _ _ Hj Hf E U) by discriminate.
              eapply run_raised; eauto; discriminate.
        -- rewrite (loop_body_delivered _ _ _ _ _ _ _ _ _ Hj Hf E U).
           eapply run_delivered; eauto.
    + rewrite (loop_body_no_column _ _ _ _ _ _ _ Hj).
      apply run_no_column; assumption.
  - simpl. apply run_read_raises.
Qed.

Lemma parts_succ (pn k : nat) : parts pn (S k) = pn :: parts (pn + 1) k.
Proof. unfold parts. simpl. rewrite Nat.add_1_r. reflexivity. Qed.

(** What a run adds to the uploads of the trace and to the list of the
    summary: the keys and URLs of the parts [pn, pn+1, ...], as many URLs as
    uploads stored, and at most one more call than that. *)
Lemma run_deliveries (reader : list read_item) (pn : nat) (w : World)
      (out : result bool * World) :
  run reader pn w out ->
  exists k a,
    delivered (trace (snd out)) =
      (delivered (trace w)
       ++ map (fun i => (S3_BUCKET cfg, s3_key_of cfg i)) (parts pn k))%list
    /\ files_uploaded (summary (snd out)) =
      (files_uploaded (summary w) ++ map (s3_url_of cfg) (parts pn k))%list
    /\ upload_calls (trace (snd out)) =
      (upload_calls (trace w) ++ map (s3_key_of cfg) (parts pn a))%list
    /\ (a = k \/ a = k + 1).
Proof.
  induction 1 as [pn w|e rest pn w|chunk rest pn w Hj|chunk rest pn w j e Hj Hf
                 |chunk rest pn w j df out Hj Hf E _ IH
                 |chunk rest pn w j df out Hj Hf E U _ IH
                 |chunk rest pn w j df m Hj Hf E U
                 |chunk rest pn w j df e Hj Hf E U NC].
  - exists 0, 0. simpl. rewrite !app_nil_r. auto.
  - exists 0, 0. simpl. rewrite delivered_app, upload_calls_app. simpl.
    rewrite !app_nil_r. auto.
  - exists 0, 0. simpl. rewrite delivered_app, upload_calls_app. simpl.
    rewrite !app_nil_r. auto.
  - exists 0, 0. simpl. rewrite delivered_app, upload_calls_app. simpl.
    rewrite !app_nil_r. auto.
  - destruct IH as (k & a & D & F & C & R). exists k, a.
    rewrite D, F, C. cbn [trace logged summary].
    rewrite delivered_app, upload_calls_app. simpl. rewrite !app_nil_r. auto.
  - destruct IH as (k & a & D & F & C & R). exists (S k), (S a).
    rewrite D, F, C, trace_turn_delivered, summary_turn_delivered.
    cbn [trace logged summary files_uploaded s_append_file s_add_rows].
    rewrite !delivered_app, !upload_calls_app, !parts_succ. simpl.
    rewrite !app_nil_r, <- !app_assoc. simpl. repeat split; auto. lia.
  - exists 0, 1. cbn [snd]. rewrite trace_turn_refused, summary_turn_refused.
    cbn [trace logged summary files_uploaded s_add_error s_add_rows].
    rewrite !delivered_app, !upload_calls_app. simpl.
    rewrite !app_nil_r. auto.
  - exists 0, 1. cbn [snd]. rewrite trace_attempted, summary_attempted.
    cbn [trace logged summary files_uploaded s_add_rows].
    rewrite !delivered_app, !upload_calls_app. simpl.
    rewrite !app_nil_r. auto.
Qed.

(** The running total grows by the rows of the frames written. *)
Lemma run_total_rows (reader : list read_item) (pn : nat) (w : World)
      (out : result bool * World) :
  run reader pn w out ->
  total_rows (summary (snd out)) + written_rows (trace w) =
  total_rows (summary w) + written_rows (trace (snd out)).
Proof.
  induction 1 as [pn w|e rest pn w|chunk rest pn w Hj|chunk rest pn w j e Hj Hf
                 |chunk rest pn w j df out Hj Hf E _ IH
                 |chunk rest pn w j df out Hj Hf E U _ IH
                 |chunk rest pn w j df m Hj Hf E U
                 |chunk rest pn w j df e Hj Hf E U NC]; cbn [snd].
  - reflexivity.
  - simpl. rewrite written_rows_app. simpl. lia.
  - simpl. rewrite written_rows_app. simpl. lia.
  - simpl. rewrite written_rows_app. simpl. lia.
  - revert IH. cbn [trace logged summary]. rewrite written_rows_app. simpl. lia.
  - revert IH. rewrite trace_turn_delivered, summary_turn_delivered.
    cbn [trace logged summary total_rows s_append_file s_add_rows].
    rewrite !written_rows_app. simpl. lia.
  - rewrite trace_turn_refused, summary_turn_refused.
    cbn [trace logged summary total_rows s_add_error s_add_rows].
    rewrite !written_rows_app. simpl. lia.
  - rewrite trace_attempted, summary_attempted.
    cbn [trace logged summary total_rows s_add_rows].
    rewrite !written_rows_app. simpl. lia.
Qed.

Lemma quiet_app (a b : list event) : quiet a -> quiet b -> quiet (a ++ b).
Proof. unfold quiet. intros; apply Forall_app; auto. Qed.

Lemma quiet_read (n : nat) : quiet [EvRead n].
Proof. repeat constructor. Qed.

Lemma quiet_turn (pn : nat) (df : DataFrame) :
  quiet [EvToCsv (temp_file_name pn) df;
         EvUpload (temp_file_name pn) (S3_BUCKET cfg) (s3_key_of cfg pn) None;
         EvRemove (temp_file_name pn)].
Proof. repeat constructor. Qed.

(** An ending seen from a later world is an ending seen from an earlier one
    when the stretch between the two is quiet. *)
Lemma loop_end_prepend (w w1 : World) (pre : list event)
      (out : result bool * World) :
  trace w1 = (trace w ++ pre)%list ->
  quiet pre ->
  errors (summary w1) = errors (summary w) ->
  ticks w1 = ticks w ->
  loop_end env cfg w1 out ->
  loop_end env cfg w out.
Proof.
  intros T Q E K H.
  destruct H as [tr w' Q' T' E' K'|tr e w' Q' T' E' K'|tr e w' Q' T' E' K'
                |tr i df m w' Q' T' E' K'|tr i df e w' Q' NC T' E' K'];
    rewrite T in T'; rewrite E in E'; rewrite ?K in E'; rewrite K in K';
    rewrite <- app_assoc in T'.
  - apply end_completed with (tr := (pre ++ tr)%list); auto using quiet_app.
  - apply end_read_failed with (tr := (pre ++ tr)%list); auto using quiet_app.
    rewrite T', <- !app_assoc. reflexivity.
  - apply end_filter_failed with (tr := (pre ++ tr)%list); auto using quiet_app.
  - apply end_refused with (tr := (pre ++ tr)%list) (df := df) (i := i) (m := m);
      auto using quiet_app.
    rewrite T', <- !app_assoc. reflexivity.
  - apply end_raised with (tr := (pre ++ tr)%list) (df := df) (i := i);
      auto using quiet_app.
    rewrite T', <- !app_assoc. reflexivity.
Qed.

(** Every run of the loop ends in one of the five ways. *)
Lemma run_loop_end (reader : list read_item) (pn : nat) (w : World)
      (out : result bool * World) :
  run reader pn w out -> loop_end env cfg w out.
Proof.
  induction 1 as [pn w|e rest pn w|chunk rest pn w Hj|chunk rest pn w j e Hj Hf
                 |chunk rest pn w j df out Hj Hf E _ IH
                 |chunk rest pn w j df out Hj Hf E U _ IH
                 |chunk rest pn w j df m Hj Hf E U
                 |chunk rest pn w j df e Hj Hf E U NC].
  - apply end_completed with (tr := []); auto. constructor. now rewrite app_nil_r.
  - apply end_read_failed with (tr := []); auto. constructor.
  - apply end_filter_failed with (tr := [EvRead (len chunk)]); auto using quiet_read.
  - apply end_filter_failed with (tr := [EvRead (len chunk)]); auto using quiet_read.
  - apply loop_end_prepend
      with (w1 := logged (EvRead (len chunk)) w) (pre := [EvRead (len chunk)]);
      auto using quiet_read.
  - apply loop_end_prepend
      with (w1 := turn_delivered cfg pn df (logged (EvRead (len chunk)) w))
           (pre := EvRead (len chunk)
                     :: [EvToCsv (temp_file_name pn) df;
                         EvUpload (temp_file_name pn) (S3_BUCKET cfg) (s3_key_of cfg pn) None;
                         EvRemove (temp_file_name pn)]); auto.
    + rewrite trace_turn_delivered. cbn [trace logged]. rewrite <- app_assoc. reflexivity.
    + apply (quiet_app [EvRead (len chunk)]); auto using quiet_read, quiet_turn.
  - apply end_refused with (tr := [EvRead (len chunk)])
      (df := df) (i := pn) (m := m); auto using quiet_read.
    rewrite trace_turn_refused. cbn [trace logged]. rewrite <- app_assoc. reflexivity.
  - apply end_raised with (tr := [EvRead (len chunk)])
      (df := df) (i := pn); auto using quiet_read.
    rewrite trace_attempted. cbn [trace logged]. rewrite <- app_assoc. reflexivity.
Qed.

(** The loop leaves the other fields of the summary and the cleanup count
    as they were. *)
Lemma run_frame (reader : list read_item) (pn : nat) (w : World)
      (out : result bool * World) :
  run reader pn w out ->
  start_time (summary (snd out)) = start_time (summary w)
  /\ end_time (summary (snd out)) = end_time (summary w)
  /\ status (summary (snd out)) = status (summary w)
  /\ download_size_mb (summary (snd out)) = download_size_mb (summary w)
  /\ cleanups (snd out) = cleanups w.
Proof.
  induction 1; cbn [snd] in *; auto.
Qed.

End LoopFacts.

(** ** The whole function *)

Section ProcessFacts.

Variable parse_datetime : Parser.
Variable env : Env.
Variable cfg : Config.
Variable s3 : S3Client.

Abbreviation process := (process_reader parse_datetime env cfg s3).

(** The [except Exception] clause of line 287 around the loop. *)
Lemma process_reader_unfold (reader : list read_item) (w : World) :
  process reader w =
  match for_chunks parse_datetime env cfg s3 reader 1 w with
  | (Ok b, w') => (Ok b, w')
  | (Raised e, w') =>
      if isinstance_Exception e then (Ok false, processing_failed env e w')
      else (Raised e, w')
  | (Exit c, w') => (Exit c, w')
  end.
Proof.
  unfold process_reader, try_except.
  destruct (for_chunks parse_datetime env cfg s3 reader 1 w) as [[b|e|c] w'];
    try reflexivity.
  destruct (isinstance_Exception e); reflexivity.
Qed.

(** The clause changes nothing but the error list and the clock. *)
Lemma process_reader_same (reader : list read_item) (w : World) :
  let out := process reader w in
  let inner := for_chunks parse_datetime env cfg s3 reader 1 w in
  trace (snd out) = trace (snd inner)
  /\ files_uploaded (summary (snd out)) = files_uploaded (summary (snd inner))
  /\ total_rows (summary (snd out)) = total_rows (summary (snd inner))
  /\ start_time (summary (snd out)) = start_time (summary (snd inner))
  /\ end_time (summary (snd out)) = end_time (summary (snd inner))
  /\ status (summary (snd out)) = status (summary (snd inner))
  /\ download_size_mb (summary (snd out)) = download_size_mb (summary (snd inner))
  /\ cleanups (snd out) = cleanups (snd inner).
Proof.
  cbv zeta. rewrite process_reader_unfold.
  destruct (for_chunks parse_datetime env cfg s3 reader 1 w) as [[b|e|c] w'];
    cbn [snd]; auto 10.
  destruct (isinstance_Exception e); cbn [snd]; auto 10.
Qed.

Lemma events_since_app (w w' : World) (tr : list event) :
  trace w' = (trace w ++ tr)%list -> events_since w w' = tr.
Proof.
  unfold events_since. intros ->.
  induction (trace w) as [|ev l IH]; simpl; auto.
Qed.

(** The loop never ends in [sys.exit]. *)
Lemma for_chunks_no_exit (reader : list read_item) (pn : nat) (w : World)
      (c : Z) (w' : World) :
  for_chunks parse_datetime env cfg s3 reader pn w <> (Exit c, w').
Proof.
  intros H. pose proof (for_chunks_run parse_datetime env cfg s3 reader pn w) as R.
  apply run_loop_end in R. rewrite H in R. inversion R.
Qed.

End ProcessFacts.

(** ** The chunked reader *)

Section ReaderFacts.

Lemma tokenize_rows (ls : list (exn + Row)) :
  forallb is_row ls = true -> tokenize ls = inr (rows_of ls).
Proof.
  induction ls as [|[e|r] ls IH]; simpl; intros H; try discriminate; auto.
  rewrite IH by assumption. reflexivity.
Qed.

Lemma rows_of_app (a b : list (exn + Row)) :
  rows_of (a ++ b) = (rows_of a ++ rows_of b)%list.
Proof.
  induction a as [|[e|r] a IH]; simpl; [reflexivity|exact IH|].
  rewrite IH. reflexivity.
Qed.

Lemma forallb_firstn {A} (p : A -> bool) (n : nat) (l : list A) :
  forallb p l = true -> forallb p (firstn n l) = true.
Proof.
  revert l. induction n as [|n IH]; intros [|x l]; simpl; auto.
  intros H. apply andb_prop in H. destruct H as [-> H]. simpl. auto.
Qed.

Lemma forallb_skipn {A} (p : A -> bool) (n : nat) (l : list A) :
  forallb p l = true -> forallb p (skipn n l) = true.
Proof.
  revert l. induction n as [|n IH]; intros [|x l]; simpl; auto.
  intros H. apply andb_prop in H. destruct H as [_ H]. auto.
Qed.

(** With a chunk size of at least one and enough fuel, lines that are all
    read are handed on whole, as frames that carry the header. *)
Lemma chunks_from_spec (hdr : list string) (n : nat) :
  1 <= n ->
  forall fuel ls,
    List.length ls <= fuel ->
    forallb is_row ls = true ->
    frames_of hdr (chunks_from fuel n hdr ls)
    /\ reader_rows (chunks_from fuel n hdr ls) = rows_of ls.
Proof.
  intros Hn. induction fuel as [|fuel IH]; intros ls Hl Hf.
  - destruct ls; simpl in *; [split; [constructor|reflexivity]|lia].
  - destruct ls as [|l ls]; [split; [constructor|reflexivity]|].
    cbn [chunks_from].
    rewrite (tokenize_rows (firstn n (l :: ls))) by (apply forallb_firstn; assumption).
    destruct (IH (skipn n (l :: ls))) as [F R].
    + rewrite length_skipn.
      change (List.length (l :: ls)) with (S (List.length ls)) in *. lia.
    + apply forallb_skipn; assumption.
    + split.
      * constructor; [eexists; split; reflexivity|exact F].
      * cbn [reader_rows rows]. rewrite R, <- rows_of_app, firstn_skipn. reflexivity.
Qed.

Lemma read_csv_spec (N : Z) (f : csv_file) :
  (1 <= N)%Z ->
  well_formed f = true ->
  frames_of (header f) (read_csv N f)
  /\ reader_rows (read_csv N f) = file_rows f.
Proof.
  intros HN Hf. unfold read_csv, file_rows, well_formed in *.
  destruct (Z.ltb_spec N 1) as [?|_]; [lia|].
  destruct (tokenized f) as [|l ls] eqn:E.
  - split; [repeat constructor; eexists; split; reflexivity|reflexivity].
  - apply chunks_from_spec; [lia|lia|exact Hf].
Qed.

Variable parse_datetime : Parser.

Lemma filter_frame_at (df : DataFrame) (j : nat) :
  index_of video_published_at (columns df) = Some j ->
  filter_frame parse_datetime df = filter_chunk parse_datetime j df.
Proof. intros H. unfold filter_frame. rewrite H. reflexivity. Qed.

Lemma count_accepted_at (df : DataFrame) (j : nat) (kept : DataFrame) :
  index_of video_published_at (columns df) = Some j ->
  filter_chunk parse_datetime j df = inr kept ->
  count_accepted parse_datetime df = len kept.
Proof.
  intros H F. unfold count_accepted. rewrite (filter_frame_at _ _ H), F. reflexivity.
Qed.

Lemma count_accepted_raises (df : DataFrame) (j : nat) (e : exn) :
  index_of video_published_at (columns df) = Some j ->
  filter_chunk parse_datetime j df = inl e ->
  count_accepted parse_datetime df = 0.
Proof.
  intros H F. unfold count_accepted. rewrite (filter_frame_at _ _ H), F. reflexivity.
Qed.

Lemma count_accepted_no_column (df : DataFrame) :
  index_of video_published_at (columns df) = None ->
  count_accepted parse_datetime df = 0.
Proof. intros H. unfold count_accepted, filter_frame. rewrite H. reflexivity. Qed.

(** Two readings that agree on the texts of a column accept the same rows
    of its frame. *)
Lemma accepts_agree (read read' : Reading) (j : nat) (cutoff : Timestamp)
      (df : DataFrame) :
  (forall s, In (Text s) (column j df) -> read' s = read s) ->
  filter (accepts read' j cutoff) (rows df) = filter (accepts read j cutoff) (rows df).
Proof.
  intros H. apply filter_ext_in. intros r Hr. unfold accepts.
  destruct (cell_at j r) as [s| |t|] eqn:E; try reflexivity.
  cbn [to_datetime]. rewrite (H s); [reflexivity|].
  unfold column. rewrite <- E. apply in_map. exact Hr.
Qed.

(** When the column of every frame reads as one reading does, counting
    frame by frame is counting over all the rows. *)
Lemma reader_accepted_rows (read : Reading) (hdr : list string) (j : nat)
      (reader : list read_item) :
  index_of video_published_at hdr = Some j ->
  frames_of hdr reader ->
  (forall df, In (Chunk df) reader -> reads_as parse_datetime read j df) ->
  reader_accepted parse_datetime reader =
  List.length (filter (accepts read j cutoff_date) (reader_rows reader)).
Proof.
  intros Hj Fr. induction Fr as [|it reader (df & -> & Hc) _ IH]; intros Hu; simpl;
    [reflexivity|].
  rewrite IH by (intros d Hd; apply Hu; right; exact Hd).
  rewrite filter_app, length_app. f_equal.
  destruct (Hu df (or_introl eq_refl)) as (read' & P & A).
  unfold count_accepted, filter_frame, filter_chunk. rewrite Hc, Hj, P.
  unfold len. rewrite select_rows, length_map.
  rewrite (accepts_agree read read' j cutoff_date df A). reflexivity.
Qed.

Lemma frames_have_column (hdr : list string) (reader : list read_item) (j : nat) :
  index_of video_published_at hdr = Some j ->
  frames_of hdr reader ->
  forallb has_column reader = true.
Proof.
  intros Hj. induction 1 as [|it reader (df & -> & Hc) _ IH]; simpl; auto.
  rewrite Hc, Hj. exact IH.
Qed.

(** Frames with the column, each of which [pd.to_datetime] reads, all pass
    lines 249-252. *)
Lemma frames_filter (read : Reading) (hdr : list string) (reader : list read_item)
      (j : nat) :
  index_of video_published_at hdr = Some j ->
  frames_of hdr reader ->
  (forall df, In (Chunk df) reader -> reads_as parse_datetime read j df) ->
  forallb (filters parse_datetime) reader = true.
Proof.
  intros Hj Fr. induction Fr as [|it reader (df & -> & Hc) _ IH]; intros Hu; simpl;
    [reflexivity|].
  destruct (Hu df (or_introl eq_refl)) as (read' & P & _).
  unfold filter_frame, filter_chunk. rewrite Hc, Hj, P.
  apply IH. intros d Hd. apply Hu. right. exact Hd.
Qed.

End ReaderFacts.

(** ** Counting over a run *)

Section CountFacts.

Variable parse_datetime : Parser.
Variable env : Env.
Variable cfg : Config.
Variable s3 : S3Client.

Abbreviation run := (loop_run parse_datetime env cfg s3).

Lemma run_trace_extends (reader : list read_item) (pn : nat) (w : World)
      (out : result bool * World) :
  run reader pn w out -> exists tr, trace (snd out) = (trace w ++ tr)%list.
Proof.
  intros R. apply run_loop_end in R.
  destruct R as [tr w' _ T _ _|tr e w' _ T _ _|tr e w' _ T _ _
                |tr i df m w' _ T _ _|tr i df e w' _ _ T _ _];
    cbn [snd]; rewrite T; eexists; reflexivity.
Qed.

(** No run counts more rows than the filtered frames of its reader hold. *)
Lemma run_total_le (reader : list read_item) (pn : nat) (w : World)
      (out : result bool * World) :
  run reader pn w out ->
  total_rows (summary (snd out)) <=
  total_rows (summary w) + reader_accepted parse_datetime reader.
Proof.
  induction 1 as [pn w|e rest pn w|chunk rest pn w Hj|chunk rest pn w j e Hj Hf
                 |chunk rest pn w j df out Hj Hf E _ IH
                 |chunk rest pn w j df out Hj Hf E U _ IH
                 |chunk rest pn w j df m Hj Hf E U
                 |chunk rest pn w j df e Hj Hf E U NC];
    cbn [snd reader_accepted]; try rewrite (count_accepted_at _ _ _ _ Hj Hf).
  - lia.
  - cbn. lia.
  - cbn. lia.
  - cbn. lia.
  - cbn [summary logged] in IH. lia.
  - rewrite summary_turn_delivered in IH.
    cbn [summary logged total_rows s_append_file s_add_rows] in IH. lia.
  - rewrite summary_turn_refused.
    cbn [summary logged total_rows s_add_error s_add_rows]. lia.
  - rewrite summary_attempted.
    cbn [summary logged total_rows s_add_rows]. lia.
Qed.

Ltac no_such_frame C Hj Hf :=
  unfold filter_frame in C; rewrite ?Hj, ?Hf in C; discriminate.

(** When lines 249-252 raise on no frame and no upload fails, the loop
    runs to its end and counts every row its filter keeps. *)
Lemma run_completes (reader : list read_item) (pn : nat) (w : World)
      (out : result bool * World) :
  run reader pn w out ->
  (forall file bucket key, upload_file s3 file bucket key = None) ->
  forallb (filters parse_datetime) reader = true ->
  fst out = Ok true
  /\ total_rows (summary (snd out)) =
     total_rows (summary w) + reader_accepted parse_datetime reader.
Proof.
  intros R U.
  induction R as [pn w|e rest pn w|chunk rest pn w Hj|chunk rest pn w j e Hj Hf
                 |chunk rest pn w j df out Hj Hf E _ IH
                 |chunk rest pn w j df out Hj Hf E U' _ IH
                 |chunk rest pn w j df m Hj Hf E U'
                 |chunk rest pn w j df e Hj Hf E U' NC];
    cbn [forallb filters reader_accepted]; intros C;
    try rewrite (count_accepted_at _ _ _ _ Hj Hf).
  - cbn. split; [reflexivity|lia].
  - discriminate.
  - no_such_frame C Hj Hj.
  - no_such_frame C Hj Hf.
  - rewrite (filter_frame_at _ _ _ Hj), Hf in C. destruct (IH C) as [F T].
    split; [exact F|]. cbn [summary logged] in T. lia.
  - rewrite (filter_frame_at _ _ _ Hj), Hf in C. destruct (IH C) as [F T].
    split; [exact F|]. rewrite summary_turn_delivered in T.
    cbn [summary logged total_rows s_append_file s_add_rows] in T. lia.
  - rewrite U in U'. discriminate.
  - rewrite U in U'. discriminate.
Qed.

(** A reader on whose frames lines 249-252 do not raise, and one of whose
    filtered frames holds a row, makes the loop call [upload_file] at
    least once. *)
Lemma run_uploads_some (reader : list read_item) (pn : nat) (w : World)
      (out : result bool * World) :
  run reader pn w out ->
  forallb (filters parse_datetime) reader = true ->
  0 < reader_accepted parse_datetime reader ->
  List.length (upload_calls (trace w)) < List.length (upload_calls (trace (snd out))).
Proof.
  induction 1 as [pn w|e rest pn w|chunk rest pn w Hj|chunk rest pn w j e Hj Hf
                 |chunk rest pn w j df out Hj Hf E _ IH
                 |chunk rest pn w j df out Hj Hf E U R _
                 |chunk rest pn w j df m Hj Hf E U
                 |chunk rest pn w j df e Hj Hf E U NC];
    cbn [forallb filters reader_accepted]; intros C A;
    try rewrite (count_accepted_at _ _ _ _ Hj Hf) in A.
  - lia.
  - discriminate.
  - no_such_frame C Hj Hj.
  - no_such_frame C Hj Hf.
  - rewrite (filter_frame_at _ _ _ Hj), Hf in C. specialize (IH C).
    cbn [trace logged] in IH.
    rewrite upload_calls_app in IH. simpl in IH. rewrite app_nil_r in IH.
    apply IH. lia.
  - destruct (run_deliveries _ _ _ _ _ _ _ _ R) as (k & a & _ & _ & Hc & _).
    rewrite Hc, trace_turn_delivered. cbn [trace logged].
    rewrite !upload_calls_app, !length_app. simpl. lia.
  - cbn [snd]. rewrite trace_turn_refused. cbn [trace logged].
    rewrite !upload_calls_app, !length_app. simpl. lia.
  - cbn [snd]. rewrite trace_attempted. cbn [trace logged].
    rewrite !upload_calls_app, !length_app. simpl. lia.
Qed.

End CountFacts.

(* ================================================================== *)
(** * The claims *)

(** C3, as the code has it.  [pd.to_datetime] reads the timestamp column
    of a chunk as a whole.  When lines 249-252 do not raise on the chunk,
    then under the reading settled on for that chunk: a record whose field
    is missing or does not parse under that reading is rejected, and nothing
    is raised; a record whose field parses is accepted exactly when the
    wall-clock reading of its timestamp, the zone dropped and not converted,
    is at or after the cutoff; and the frame the loop keeps holds exactly the
    accepted rows of the chunk, in order.  When they raise, no record is
    decided: the turn of the loop raises the same exception and the function
    returns [False] with a [Processing failed] entry. *)
Theorem row_filter_decides
        (parse_datetime : Parser) (env : Env) (cfg : Config) (s3 : S3Client)
        (chunk : DataFrame) (j : nat) :
  index_of video_published_at (columns chunk) = Some j ->
  match parse_datetime (column j chunk) with
  | inr read =>
      (forall cutoff r,
          (cell_at j r = NaN -> accepts read j cutoff r = false)
          /\ (forall s, cell_at j r = Text s -> read s = None ->
                        accepts read j cutoff r = false)
          /\ (forall s t, cell_at j r = Text s -> read s = Some t ->
                (accepts read j cutoff r = true
                 <-> (wall_clock cutoff <= wall_clock t)%Z)))
      /\ filter_chunk parse_datetime j chunk =
         inr {| columns := columns chunk;
                rows := map (fun r => set_cell j (to_datetime read (cell_at j r)) r)
                            (filter (accepts read j cutoff_date) (rows chunk)) |}
  | inl e =>
      filter_chunk parse_datetime j chunk = inl e
      /\ (forall pn w,
            loop_body parse_datetime env cfg s3 chunk pn w = (Raised e, w))
      /\ (forall rest w,
            isinstance_Exception e = true ->
            let out := process_reader parse_datetime env cfg s3 (Chunk chunk :: rest) w in
            fst out = Ok false
            /\ errors (summary (snd out)) =
               (errors (summary w)
                ++ [{| timestamp := clock env (ticks w);
                       error := "Processing failed: " ++ str_exn e |}])%list
            /\ total_rows (summary (snd out)) = total_rows (summary w))
  end.
Proof.
  intros Hj.
  destruct (parse_datetime (column j chunk)) as [e|read] eqn:P.
  - assert (F : filter_chunk parse_datetime j chunk = inl e)
      by (unfold filter_chunk; rewrite P; reflexivity).
    split; [exact F|]. split.
    + intros pn w. exact (loop_body_filter_raises _ _ _ _ _ _ _ _ _ Hj F).
    + intros rest w HE. cbv zeta.
      rewrite process_reader_unfold, for_chunks_chunk.
      rewrite (loop_body_filter_raises _ _ _ _ _ _ _ _ _ Hj F), HE.
      cbn [fst snd]. unfold processing_failed.
      cbn [with_summary ticked logged summary ticks errors s_add_error total_rows].
      auto.
  - split.
    + intros cutoff r. unfold accepts. split; [|split].
      * intros ->. reflexivity.
      * intros s -> H. simpl. rewrite H. reflexivity.
      * intros s t -> H. simpl. rewrite H. simpl. unfold ts_ge. simpl.
        apply Z.leb_le.
    + unfold filter_chunk. rewrite P. f_equal.
      pose proof (select_rows read j cutoff_date chunk) as R.
      destruct (select_ge j cutoff_date (parse_column read j chunk)) as [c rs] eqn:S.
      cbn [rows] in R. subst rs. f_equal.
      change c with (columns {| columns := c;
                                rows := map (fun r => set_cell j (to_datetime read (cell_at j r)) r)
                                            (filter (accepts read j cutoff_date) (rows chunk)) |}).
      rewrite <- S. reflexivity.
Qed.

(** Two chunks of one row each, whose zones lie two hours east and west
    of UTC: the first row is kept, though its instant is before the cutoff
    in UTC; the second is dropped, though its instant is after it. *)
Lemma row_filter_decides_witness :
  (exists kept,
      filter_chunk Inferred.parse 1 (Sample.frame [Sample.east]) = inr kept
      /\ map (cell_at 0) (rows kept) = [Text "p"])
  /\ (exists kept,
        filter_chunk Inferred.parse 1 (Sample.frame [Sample.west]) = inr kept
        /\ rows kept = [])
  /\ accepts Iso8601.parse 1 cutoff_date [Text "p"; Text "2026-01-19T00:30:00+02:00"]
     = true.
Proof.
  pose proof (row_filter_decides Inferred.parse
                (Sample.env_of Sample.s3_ok (mkCsv Sample.hdr [])) Sample.config
                Sample.s3_ok (Sample.frame [Sample.east]) 1 eq_refl) as E.
  pose proof (row_filter_decides Inferred.parse
                (Sample.env_of Sample.s3_ok (mkCsv Sample.hdr [])) Sample.config
                Sample.s3_ok (Sample.frame [Sample.west]) 1 eq_refl) as W.
  change (Inferred.parse (column 1 (Sample.frame [Sample.east])))
    with (@inr exn Reading Iso8601.parse) in E.
  change (Inferred.parse (column 1 (Sample.frame [Sample.west])))
    with (@inr exn Reading Iso8601.parse) in W.
  cbv beta iota in E, W. destruct E as [D E]. destruct W as [_ W].
  split; [|split].
  - eexists. split; [exact E|]. reflexivity.
  - eexists. split; [exact W|]. reflexivity.
  - destruct (D cutoff_date [Text "p"; Text "2026-01-19T00:30:00+02:00"])
      as (_ & _ & H).
    apply (H "2026-01-19T00:30:00+02:00"
             {| wall_clock := 1768782600000000000; utc_offset := Some 7200%Z |});
      [reflexivity|reflexivity|simpl; lia].
Defined.

(** C3 does not hold as stated.  The row [a] parses and is after the
    cutoff: alone in its chunk it is kept.  Beside a value of another
    format, from which [pd.to_datetime] takes the format of the column, the
    same row reads as NaT and is dropped.  And a chunk whose two values
    have different UTC offsets does not get its rows excluded without an
    error: lines 249-252 raise and the function returns [False]. *)
Lemma row_filter_depends_on_the_chunk :
  let alone := Sample.frame [Sample.late] in
  let beside := Sample.frame [Sample.other_format; Sample.late] in
  let mixed := Sample.frame [Sample.east; Sample.west] in
  let env := Sample.env_of Sample.s3_ok (mkCsv Sample.hdr []) in
  (exists kept,
      filter_chunk Inferred.parse 1 alone = inr kept
      /\ map (cell_at 0) (rows kept) = [Text "a"])
  /\ (exists kept,
        filter_chunk Inferred.parse 1 beside = inr kept
        /\ map (cell_at 0) (rows kept) = [Text "r"])
  /\ (exists e, filter_chunk Inferred.parse 1 mixed = inl e)
  /\ (let out := process_reader Inferred.parse env Sample.config Sample.s3_ok
                   [Chunk mixed] Sample.world0 in
      fst out = Ok false
      /\ List.length (errors (summary (snd out))) = 1).
Proof.
  cbv zeta. split; [|split; [|split; [|split]]].
  - eexists. split; [vm_compute; reflexivity|reflexivity].
  - eexists. split; [vm_compute; reflexivity|reflexivity].
  - eexists. vm_compute. reflexivity.
  - vm_compute. reflexivity.
  - vm_compute. reflexivity.
Qed.

(** C5.  An empty filtered batch.  When the rows of a batch are all
    filtered out, the turn of the loop leaves the world as it was (no frame
    is written, nothing is uploaded, no error is recorded, the clock is not
    read) and hands on the same part number; the loop then goes on with the
    next batch. *)
Theorem empty_batch_is_skipped
        (parse_datetime : Parser) (env : Env)
        (cfg : Config) (s3 : S3Client)
        (chunk : DataFrame) (rest : list read_item) (pn j : nat) (w : World)
        (df : DataFrame) :
  index_of video_published_at (columns chunk) = Some j ->
  filter_chunk parse_datetime j chunk = inr df ->
  len df = 0 ->
  loop_body parse_datetime env cfg s3 chunk pn w = (Ok (NextChunk pn), w)
  /\ for_chunks parse_datetime env cfg s3 (Chunk chunk :: rest) pn w =
     for_chunks parse_datetime env cfg s3 rest pn (logged (EvRead (len chunk)) w).
Proof.
  intros Hj Hf E. split.
  - apply loop_body_empty with (j := j) (df := df); assumption.
  - rewrite for_chunks_chunk.
    rewrite (loop_body_empty parse_datetime env cfg s3 chunk pn j _ df Hj Hf E).
    reflexivity.
Qed.

Lemma empty_batch_is_skipped_witness :
  let env := Sample.env_of Sample.s3_ok (mkCsv Sample.hdr []) in
  let chunk := Sample.frame [Sample.early; Sample.blank; Sample.garbled] in
  let rest := [Chunk (Sample.frame [Sample.late])] in
  loop_body Inferred.parse env Sample.config Sample.s3_ok chunk 1 Sample.world0
  = (Ok (NextChunk 1), Sample.world0)
  /\ for_chunks Inferred.parse env Sample.config Sample.s3_ok
       (Chunk chunk :: rest) 1 Sample.world0 =
     for_chunks Inferred.parse env Sample.config Sample.s3_ok
       rest 1 (logged (EvRead 3) Sample.world0).
Proof.
  cbv zeta.
  apply (empty_batch_is_skipped Inferred.parse
           (Sample.env_of Sample.s3_ok (mkCsv Sample.hdr [])) Sample.config
           Sample.s3_ok
           (Sample.frame [Sample.early; Sample.blank; Sample.garbled])
           [Chunk (Sample.frame [Sample.late])] 1 1 Sample.world0
           {| columns := Sample.hdr; rows := [] |});
    vm_compute; reflexivity.
Defined.

(** What the whole function adds: the calls, the stored uploads and the
    URLs of the parts 1, 2, ... *)
Lemma process_deliveries
      (parse_datetime : Parser) (env : Env)
      (cfg : Config) (s3 : S3Client) (reader : list read_item) (w : World) :
  let out := process_reader parse_datetime env cfg s3 reader w in
  let tr := events_since w (snd out) in
  trace (snd out) = (trace w ++ tr)%list
  /\ exists k a,
      delivered tr = map (fun i => (S3_BUCKET cfg, s3_key_of cfg i)) (parts 1 k)
      /\ files_uploaded (summary (snd out)) =
         (files_uploaded (summary w) ++ map (s3_url_of cfg) (parts 1 k))%list
      /\ upload_calls tr = map (s3_key_of cfg) (parts 1 a)
      /\ (a = k \/ a = k + 1).
Proof.
  cbv zeta.
  destruct (process_reader_same parse_datetime env cfg s3 reader w)
    as (T & F & _).
  pose proof (for_chunks_run parse_datetime env cfg s3 reader 1 w) as R.
  destruct (run_trace_extends _ _ _ _ _ _ _ _ R) as (tr & E).
  destruct (run_deliveries _ _ _ _ _ _ _ _ R) as (k & a & D & Fl & C & Hka).
  rewrite <- T in E, D, C. rewrite <- F in Fl.
  rewrite (events_since_app _ _ _ E).
  split; [exact E|]. exists k, a.
  rewrite E, delivered_app in D. apply app_inv_head in D.
  rewrite E, upload_calls_app in C. apply app_inv_head in C.
  auto.
Qed.

(** The running total grows by the rows of the frames the function wrote,
    however the run ends. *)
Lemma process_total_rows
      (parse_datetime : Parser) (env : Env)
      (cfg : Config) (s3 : S3Client) (reader : list read_item) (w : World) :
  let out := process_reader parse_datetime env cfg s3 reader w in
  total_rows (summary (snd out)) =
  total_rows (summary w) + written_rows (events_since w (snd out)).
Proof.
  cbv zeta.
  destruct (process_reader_same parse_datetime env cfg s3 reader w)
    as (T & _ & Tot & _).
  pose proof (for_chunks_run parse_datetime env cfg s3 reader 1 w) as R.
  destruct (process_deliveries parse_datetime env cfg s3 reader w) as (E & _).
  pose proof (run_total_rows _ _ _ _ _ _ _ _ R) as H.
  rewrite <- Tot, <- T, E, written_rows_app in H. lia.
Qed.

(** C4.  The keys of a run.  The keys handed to the sink are
    [{prefix}part_{i:04d}.csv] for i = 1, 2, ..., a in this order, and the
    keys of the stored uploads are those of i = 1, ..., k, where k = a or,
    when the last call failed, k = a - 1: the numbers start at 1, have no
    gap and none is used twice, and neither is any key.  A reader on whose
    frames lines 249-252 do not raise and one of whose filtered frames
    holds a row makes a >= 1. *)
Theorem partition_keys_are_sequential
        (parse_datetime : Parser) (env : Env)
        (cfg : Config) (s3 : S3Client) (reader : list read_item) (w : World) :
  let out := process_reader parse_datetime env cfg s3 reader w in
  let tr := events_since w (snd out) in
  exists k a,
    upload_calls tr =
      map (fun i => S3_PREFIX cfg ++ "part_" ++ Fmt.d04 i ++ ".csv") (seq 1 a)
    /\ map snd (delivered tr) =
      map (fun i => S3_PREFIX cfg ++ "part_" ++ Fmt.d04 i ++ ".csv") (seq 1 k)
    /\ (a = k \/ a = k + 1)
    /\ NoDup (upload_calls tr)
    /\ (forallb (filters parse_datetime) reader = true ->
        0 < reader_accepted parse_datetime reader -> 1 <= a).
Proof.
  cbv zeta.
  destruct (process_deliveries parse_datetime env cfg s3 reader w)
    as (E & k & a & D & _ & C & Hka).
  exists k, a. split; [exact C|]. split.
  - rewrite D, map_map. reflexivity.
  - split; [exact Hka|]. split.
    + rewrite C. apply FmtFacts.NoDup_map_inj.
      * intros x y. apply FmtFacts.s3_key_of_inj.
      * apply seq_NoDup.
    + intros Hc Ha.
      destruct (process_reader_same parse_datetime env cfg s3 reader w) as (T & _).
      pose proof (for_chunks_run parse_datetime env cfg s3 reader 1 w) as R.
      pose proof (run_uploads_some _ _ _ _ _ _ _ _ R Hc Ha) as L.
      rewrite <- T, E, upload_calls_app, length_app, C, length_map in L.
      unfold parts in L. rewrite length_seq in L. lia.
Qed.

Lemma partition_keys_are_sequential_witness :
  let f := mkCsv Sample.hdr [Sample.late; Sample.early; Sample.at_cutoff] in
  let reader := read_csv 1 f in
  let out := process_reader Inferred.parse (Sample.env_of Sample.s3_ok f)
               Sample.config Sample.s3_ok reader Sample.world0 in
  forallb (filters Inferred.parse) reader = true
  /\ 0 < reader_accepted Inferred.parse reader
  /\ upload_calls (trace (snd out)) =
     ["final-raw/part_0001.csv"; "final-raw/part_0002.csv"]
  /\ exists a,
      upload_calls (events_since Sample.world0 (snd out)) =
        map (fun i => "final-raw/" ++ "part_" ++ Fmt.d04 i ++ ".csv") (seq 1 a)
      /\ 1 <= a.
Proof.
  cbv zeta.
  split; [reflexivity|]. split; [vm_compute; lia|]. split; [reflexivity|].
  destruct (partition_keys_are_sequential Inferred.parse
              (Sample.env_of Sample.s3_ok
                 (mkCsv Sample.hdr [Sample.late; Sample.early; Sample.at_cutoff]))
              Sample.config Sample.s3_ok
              (read_csv 1 (mkCsv Sample.hdr [Sample.late; Sample.early; Sample.at_cutoff]))
              Sample.world0) as (k & a & C & _ & _ & _ & H).
  exists a. split; [exact C|]. apply H; [reflexivity|vm_compute; lia].
Defined.

(** C6, as the code has it.  A partition's row count is added to the
    running total when the filtered batch is found non-empty, before the
    upload is tried and whatever its outcome; its URL is appended to the
    list when, and only when, the upload was stored. *)
Theorem rows_are_counted_before_delivery
        (parse_datetime : Parser) (env : Env)
        (cfg : Config) (s3 : S3Client)
        (chunk : DataFrame) (pn j : nat) (w : World) (df : DataFrame) :
  index_of video_published_at (columns chunk) = Some j ->
  filter_chunk parse_datetime j chunk = inr df ->
  len df <> 0 ->
  let out := loop_body parse_datetime env cfg s3 chunk pn w in
  let answer :=
    upload_file s3 (temp_file_name pn) (S3_BUCKET cfg) (s3_key_of cfg pn) in
  total_rows (summary (snd out)) = total_rows (summary w) + len df
  /\ (answer = None ->
      files_uploaded (summary (snd out)) =
        (files_uploaded (summary w) ++ [s3_url_of cfg pn])%list)
  /\ (answer <> None ->
      files_uploaded (summary (snd out)) = files_uploaded (summary w)).
Proof.
  intros Hj Hf E. cbv zeta.
  destruct (upload_file s3 (temp_file_name pn) (S3_BUCKET cfg) (s3_key_of cfg pn))
    as [e|] eqn:U.
  - assert ((exists m, e = ClientError m) \/ (forall m, e <> ClientError m)) as [[m ->]|NC]
        by (destruct e; [left; eexists; reflexivity|right; discriminate..]).
    + rewrite (loop_body_refused parse_datetime env cfg s3 chunk pn j w df m Hj Hf E U).
      cbn [snd]. rewrite summary_turn_refused. cbn.
      split; [reflexivity|]. split; [discriminate|reflexivity].
    + rewrite (loop_body_raised parse_datetime env cfg s3 chunk pn j w df e Hj Hf E U NC).
      cbn [snd]. rewrite summary_attempted. cbn.
      split; [reflexivity|]. split; [discriminate|reflexivity].
  - rewrite (loop_body_delivered parse_datetime env cfg s3 chunk pn j w df Hj Hf E U).
    cbn [snd]. rewrite summary_turn_delivered. cbn.
    split; [reflexivity|]. split; [reflexivity|congruence].
Qed.

Lemma rows_are_counted_before_delivery_witness :
  let s3 := Sample.s3_refusing "final-raw/part_0002.csv" (ClientError "AccessDenied") in
  let env := Sample.env_of s3 (mkCsv Sample.hdr []) in
  let chunk := Sample.frame [Sample.late; Sample.early; Sample.at_cutoff] in
  total_rows (summary (snd (loop_body Inferred.parse env Sample.config s3 chunk 2
                                      Sample.world0))) = 0 + 2
  /\ files_uploaded (summary (snd (loop_body Inferred.parse env Sample.config s3 chunk 2
                                      Sample.world0))) = []
  /\ files_uploaded (summary (snd (loop_body Inferred.parse env Sample.config s3 chunk 1
                                      Sample.world0))) =
     ["s3://bronze-03/final-raw/part_0001.csv"].
Proof.
  cbv zeta.
  pose proof (rows_are_counted_before_delivery Inferred.parse
           (Sample.env_of
              (Sample.s3_refusing "final-raw/part_0002.csv" (ClientError "AccessDenied"))
              (mkCsv Sample.hdr []))
           Sample.config
           (Sample.s3_refusing "final-raw/part_0002.csv" (ClientError "AccessDenied"))
           (Sample.frame [Sample.late; Sample.early; Sample.at_cutoff])) as T.
  pose (kept := match filter_chunk Inferred.parse 1
                        (Sample.frame [Sample.late; Sample.early; Sample.at_cutoff]) with
                | inr k => k
                | inl _ => Sample.frame []
                end).
  split; [|split].
  - apply (T 2 1 Sample.world0 kept);
      [reflexivity|vm_compute; reflexivity|vm_compute; discriminate].
  - apply (T 2 1 Sample.world0 kept);
      [reflexivity|vm_compute; reflexivity|vm_compute; discriminate|].
    vm_compute. discriminate.
  - apply (T 1 1 Sample.world0 kept);
      [reflexivity|vm_compute; reflexivity|vm_compute; discriminate|].
    vm_compute. reflexivity.
Defined.

(** C6 does not hold as stated: here the upload of the one partition fails
    with a [ClientError], its URL is not recorded, and yet its row is in the
    running total. *)
Lemma failed_delivery_still_counts_rows :
  let s3 := Sample.s3_refusing "final-raw/part_0001.csv" (ClientError "AccessDenied") in
  let env := Sample.env_of s3 (mkCsv Sample.hdr []) in
  let out := loop_body Inferred.parse env Sample.config s3
               (Sample.frame [Sample.late]) 1 Sample.world0 in
  upload_file s3 "part_0001.csv" "bronze-03" "final-raw/part_0001.csv"
    = Some (ClientError "AccessDenied")
  /\ fst out = Ok (Return false)
  /\ files_uploaded (summary (snd out)) = files_uploaded (summary Sample.world0)
  /\ total_rows (summary Sample.world0) = 0
  /\ total_rows (summary (snd out)) = 1
  /\ total_rows (summary (snd out)) <> total_rows (summary Sample.world0).
Proof.
  cbv zeta. repeat (split; [vm_compute; reflexivity|]).
  vm_compute. discriminate.
Qed.

(** The count of a frame: the rows its own reading accepts. *)
Lemma count_accepted_spec (parse_datetime : Parser) (df : DataFrame) (j : nat)
      (read : Reading) :
  index_of video_published_at (columns df) = Some j ->
  parse_datetime (column j df) = inr read ->
  count_accepted parse_datetime df =
  List.length (filter (accepts read j cutoff_date) (rows df)).
Proof.
  intros Hj P. unfold count_accepted, filter_frame, filter_chunk.
  rewrite Hj, P. unfold len. rewrite select_rows, length_map. reflexivity.
Qed.

(** C1, as the code has it.  (1) For every chunk size and input, on every
    run, the running total grows by the sizes of the filtered batches the
    loop wrote.  (2) [pd.to_datetime] reads the column of each chunk as a
    whole, so which rows a batch keeps depends on the chunk they fall in:
    when the chunk size is at least 1, every line of the file is read,
    lines 249-252 raise on no chunk and no upload fails, the function
    returns [True], the chunks hold the rows of the file in order, and the
    total grows by the number of rows that are accepted within their own
    chunk, under the reading of that chunk.  (3) When the column of
    every chunk reads as one and the same reading does (one format
    throughout the file), that is the number of input rows whose timestamp
    parses and, zone dropped, is at or after the cutoff, whatever the chunk
    size. *)
Theorem total_rows_counts_accepted_rows
        (parse_datetime : Parser) (env : Env)
        (cfg : Config) (s3 : S3Client) (f : csv_file) (w : World) :
  let reader := read_csv (CHUNK_ROWS cfg) f in
  let out := process_reader parse_datetime env cfg s3 reader w in
  total_rows (summary (snd out)) =
    total_rows (summary w) + written_rows (events_since w (snd out))
  /\ ((1 <= CHUNK_ROWS cfg)%Z ->
      well_formed f = true ->
      (forall file bucket key, upload_file s3 file bucket key = None) ->
      forallb (filters parse_datetime) reader = true ->
      fst out = Ok true
      /\ reader_rows reader = file_rows f
      /\ total_rows (summary (snd out)) =
         total_rows (summary w) + reader_accepted parse_datetime reader
      /\ (forall df j read,
            index_of video_published_at (columns df) = Some j ->
            parse_datetime (column j df) = inr read ->
            count_accepted parse_datetime df =
            List.length (filter (accepts read j cutoff_date) (rows df))))
  /\ (forall read j,
        (1 <= CHUNK_ROWS cfg)%Z ->
        well_formed f = true ->
        (forall file bucket key, upload_file s3 file bucket key = None) ->
        index_of video_published_at (header f) = Some j ->
        (forall df, In (Chunk df) reader -> reads_as parse_datetime read j df) ->
        fst out = Ok true
        /\ total_rows (summary (snd out)) =
           total_rows (summary w) + accepted_rows read f).
Proof.
  cbv zeta.
  destruct (process_reader_same parse_datetime env cfg s3
              (read_csv (CHUNK_ROWS cfg) f) w) as (T & _ & Tot & _).
  pose proof (for_chunks_run parse_datetime env cfg s3
                (read_csv (CHUNK_ROWS cfg) f) 1 w) as R.
  assert (Done : (forall file bucket key, upload_file s3 file bucket key = None) ->
                 forallb (filters parse_datetime) (read_csv (CHUNK_ROWS cfg) f) = true ->
                 fst (process_reader parse_datetime env cfg s3
                        (read_csv (CHUNK_ROWS cfg) f) w) = Ok true
                 /\ total_rows (summary (snd (process_reader parse_datetime env cfg s3
                                                (read_csv (CHUNK_ROWS cfg) f) w))) =
                    total_rows (summary w)
                    + reader_accepted parse_datetime (read_csv (CHUNK_ROWS cfg) f)).
  { intros U C.
    destruct (run_completes _ _ _ _ _ _ _ _ R U C) as [Ok' Tot'].
    rewrite Tot, Tot'. split; [|reflexivity].
    rewrite process_reader_unfold.
    destruct (for_chunks parse_datetime env cfg s3
                (read_csv (CHUNK_ROWS cfg) f) 1 w) as [[b|e|c] w'];
      cbn [fst] in *; congruence. }
  split; [|split].
  - apply (process_total_rows parse_datetime env cfg s3
             (read_csv (CHUNK_ROWS cfg) f) w).
  - intros HN Hwf U C.
    destruct (read_csv_spec (CHUNK_ROWS cfg) f HN Hwf) as [Fr Rw].
    destruct (Done U C) as [D1 D2].
    split; [exact D1|]. split; [exact Rw|]. split; [exact D2|].
    intros df j read. apply count_accepted_spec.
  - intros read j HN Hwf U Hj Hu.
    destruct (read_csv_spec (CHUNK_ROWS cfg) f HN Hwf) as [Fr Rw].
    destruct (Done U (frames_filter parse_datetime read _ _ j Hj Fr Hu)) as [D1 D2].
    split; [exact D1|]. rewrite D2.
    rewrite (reader_accepted_rows parse_datetime read _ j _ Hj Fr Hu), Rw.
    unfold accepted_rows. rewrite Hj. reflexivity.
Qed.

Lemma total_rows_counts_accepted_rows_witness :
  let f := mkCsv Sample.hdr
             [Sample.late; Sample.early; Sample.at_cutoff; Sample.blank;
              Sample.garbled; Sample.late] in
  let cfg := Sample.with_chunk_rows 2 in
  let out := process_reader Inferred.parse (Sample.env_of Sample.s3_ok f) cfg
               Sample.s3_ok (read_csv 2 f) Sample.world0 in
  reader_accepted Inferred.parse (read_csv 2 f) = 3
  /\ fst out = Ok true
  /\ total_rows (summary (snd out)) = 0 + reader_accepted Inferred.parse (read_csv 2 f)
  /\ accepted_rows Iso8601.parse f = 3
  /\ total_rows (summary (snd out)) = 0 + accepted_rows Iso8601.parse f.
Proof.
  cbv zeta. split; [reflexivity|].
  destruct (total_rows_counts_accepted_rows Inferred.parse
              (Sample.env_of Sample.s3_ok
                 (mkCsv Sample.hdr
                    [Sample.late; Sample.early; Sample.at_cutoff; Sample.blank;
                     Sample.garbled; Sample.late]))
              (Sample.with_chunk_rows 2) Sample.s3_ok
              (mkCsv Sample.hdr
                 [Sample.late; Sample.early; Sample.at_cutoff; Sample.blank;
                  Sample.garbled; Sample.late])
              Sample.world0) as (_ & H & H3).
  destruct H as (Done & _ & Tot & _).
  - simpl. lia.
  - reflexivity.
  - intros; reflexivity.
  - reflexivity.
  - split; [exact Done|]. split; [exact Tot|]. split; [reflexivity|].
    destruct (H3 Iso8601.parse 1) as (_ & Tot3).
    + simpl. lia.
    + reflexivity.
    + intros; reflexivity.
    + reflexivity.
    + intros df HIn. vm_compute in HIn.
      destruct HIn as [E|[E|[E|[]]]]; injection E as <-;
        (eexists; split; [reflexivity|]);
        intros s Hs; vm_compute in Hs;
        repeat (destruct Hs as [Hs|Hs]; [try discriminate; injection Hs as <-; reflexivity|]);
        destruct Hs.
    + exact Tot3.
Defined.

(** C1 does not hold as stated: the total depends on the chunk size.  The
    file has two rows, each of which parses and is after the cutoff, in two
    formats.  Read one row at a time, both are kept and the total is 2.
    Read in one chunk, [pd.to_datetime] takes the format of the first value,
    the second reads as NaT, and the total is 1: no count of the rows of
    the input equals both. *)
Lemma total_rows_depends_on_the_chunk_size :
  let f := mkCsv Sample.hdr [Sample.other_format; Sample.late] in
  let run := fun N =>
    process_reader Inferred.parse (Sample.env_of Sample.s3_ok f)
      (Sample.with_chunk_rows N) Sample.s3_ok (read_csv N f) Sample.world0 in
  rows_accepted_alone Inferred.parse f = 2
  /\ fst (run 1%Z) = Ok true
  /\ total_rows (summary (snd (run 1%Z))) = 2
  /\ fst (run 100000%Z) = Ok true
  /\ total_rows (summary (snd (run 100000%Z))) = 1
  /\ total_rows (summary (snd (run 100000%Z))) <> rows_accepted_alone Inferred.parse f
  /\ total_rows (summary (snd (run 100000%Z))) <> total_rows (summary (snd (run 1%Z))).
Proof.
  cbv zeta. repeat (split; [vm_compute; reflexivity|]).
  split; vm_compute; discriminate.
Qed.

(* ================================================================== *)
(** * [main] *)

Section MainFacts.

Variable parse_datetime : Parser.
Variable env : Env.
Variable cfg : Config.

Lemma process_no_exit (s3 : S3Client) (w : World) (c : Z) (w' : World) :
  process_and_upload_data parse_datetime env cfg s3 w <> (Exit c, w').
Proof.
  unfold process_and_upload_data. rewrite process_reader_unfold.
  destruct (for_chunks parse_datetime env cfg s3 (open_reader env cfg) 1 w)
    as [[b|e|c'] w1] eqn:F; try discriminate.
  - destruct (isinstance_Exception e); discriminate.
  - exfalso. exact (for_chunks_no_exit _ _ _ _ _ _ _ _ _ F).
Qed.

(** *** The closing sequences *)

Lemma saved_closing_nil (tr : list event) :
  forallb (fun ev => negb (is_closing ev)) tr = true -> saved tr = [].
Proof.
  induction tr as [|ev tr IH]; simpl; [reflexivity|].
  intros H. apply andb_prop in H. destruct H as [H1 H2].
  destruct ev as [| | | | | |? ? [?|]]; simpl in *; auto; discriminate.
Qed.

Ltac close_tail :=
  eexists; split;
  [rewrite <- ?app_assoc; reflexivity
  |split; [reflexivity|first [discriminate|intros; reflexivity]]].

Lemma handler_body_ends (msg : string) (w : World) :
  ends_run env cfg true w (handler_body env cfg msg w).
Proof.
  unfold ends_run, handler_body, cleanup_files, complete, add_error, save,
    utcnow, modify_summary, get_summary, log, or_raise, bind, sys_exit, ret, raise.
  cbn.
  destruct (cleanup_outcome env (cleanups w)) as [e|] eqn:C; cbn.
  - repeat split; eauto; try discriminate; try close_tail.
    intros H. rewrite H in C. discriminate.
  - destruct (save_outcome env (SUMMARY_FILE cfg)) as [e|] eqn:S; cbn;
      repeat split; eauto; try discriminate; try close_tail.
    match goal with H : Exit _ = Exit _ |- _ => injection H as <- end.
    discriminate.
Qed.

#[local] Arguments handler_body : simpl never.

Lemma ends_run_weaken (b : bool) (w : World) (out : result unit * World) :
  ends_run env cfg true w out -> ends_run env cfg b w out.
Proof.
  unfold ends_run. intros (S & rest). split; [|exact rest].
  destruct S as [S|[? _]]; [left; exact S|discriminate].
Qed.

Lemma ends_run_weaken_false (b : bool) (w : World) (out : result unit * World) :
  ends_run env cfg b w out -> ends_run env cfg false w out.
Proof.
  unfold ends_run. intros (S & rest). split; [|exact rest].
  destruct S as [S|[_ S]]; [left; exact S|right; auto].
Qed.

(** The sequence ran from [w1], which earlier steps reached from [w] by
    adding the events [pre], none of them a written document, and error
    entries. *)
Lemma ends_run_after (b : bool) (w w1 : World) (pre : list event)
      (out : result unit * World) :
  trace w1 = (trace w ++ pre)%list ->
  forallb is_closing pre = true ->
  saved pre = [] ->
  files_uploaded (summary w1) = files_uploaded (summary w) ->
  total_rows (summary w1) = total_rows (summary w) ->
  (exists more, errors (summary w1) = (errors (summary w) ++ more)%list) ->
  ends_run env cfg b w1 out -> ends_run env cfg b w out.
Proof.
  unfold ends_run.
  intros T C Sv F N (m1 & E)
         (S & En & Fi & To & (m2 & Er) & (tail & Tr & Cl & Sd) & Ex & NOk & Fin).
  rewrite T in Tr. rewrite F in Fi. rewrite N in To. rewrite E in Er.
  split; [exact S|]. split; [exact En|]. split; [exact Fi|]. split; [exact To|].
  split; [exists (m1 ++ m2)%list; rewrite Er, app_assoc; reflexivity|].
  split; [|auto].
  exists (pre ++ tail)%list. split; [rewrite Tr, app_assoc; reflexivity|].
  split; [rewrite forallb_app, C, Cl; reflexivity|].
  intros c Hc. rewrite saved_app, Sv. simpl. eauto.
Qed.

Lemma early_body_ends (w : World) :
  ends_run env cfg true w (with_handlers env cfg (early_body env cfg) w).
Proof.
  unfold with_handlers, early_body, complete, save,
    utcnow, modify_summary, get_summary, log, or_raise, bind, sys_exit, ret, raise.
  cbn.
  destruct (save_outcome env (SUMMARY_FILE cfg)) as [e|] eqn:S; cbn.
  - eapply ends_run_after.
    7: apply handler_body_ends.
    1: cbn; rewrite <- ?app_assoc; reflexivity.
    1-4: reflexivity.
    exists []; cbn; rewrite app_nil_r; reflexivity.
  - unfold ends_run. cbn. rewrite S.
    repeat split; eauto; try discriminate; try close_tail.
    + exists []. rewrite app_nil_r. reflexivity.
    + match goal with H : Exit _ = Exit _ |- _ => injection H as <- end.
      discriminate.
Qed.

Lemma closing_body_ends (b : bool) (w : World) :
  ends_run env cfg (negb b) w (with_handlers env cfg (closing_body env cfg b) w).
Proof.
  unfold with_handlers, closing_body, cleanup_files, complete, save,
    utcnow, modify_summary, get_summary, log, or_raise, bind, sys_exit, ret, raise.
  cbn.
  destruct (cleanup_outcome env (cleanups w)) as [e|] eqn:C; cbn.
  - apply ends_run_weaken.
    eapply ends_run_after.
    7: apply handler_body_ends.
    1: cbn; rewrite <- ?app_assoc; reflexivity.
    1-4: reflexivity.
    exists []; cbn; rewrite app_nil_r; reflexivity.
  - destruct (save_outcome env (SUMMARY_FILE cfg)) as [e|] eqn:S; cbn.
    + apply ends_run_weaken.
      eapply ends_run_after.
      7: apply handler_body_ends.
      1: cbn; rewrite <- ?app_assoc; reflexivity.
      1-4: reflexivity.
      exists []; cbn; rewrite app_nil_r; reflexivity.
    + unfold ends_run. destruct b; cbn; rewrite ?S;
        repeat split; eauto; try discriminate; try close_tail;
        try (exists []; rewrite app_nil_r; reflexivity);
        try (match goal with H : Exit _ = Exit _ |- _ => injection H as <- end;
             first [discriminate|reflexivity]).
Qed.

(** *** The paths of [main] *)

Lemma main_eq :
  run_main parse_datetime env cfg =
  with_handlers env cfg (main_try parse_datetime env cfg) (fresh_world env).
Proof.
  unfold run_main, main, with_handlers, try_except, bind, Summary_init,
    utcnow, modify_summary.
  cbn. change (with_summary (fun _ => s_init (clock env 0)) (ticked boot))
    with (fresh_world env).
  destruct (main_try parse_datetime env cfg (fresh_world env)) as [[u|e|c] w];
    try reflexivity.
  destruct e; reflexivity.
Qed.

Ltac not_reached W :=
  exists W, true, (fresh_world env);
  split;
  [first [left; reflexivity
         |right; left; eexists; reflexivity
         |right; right; exists false; split; reflexivity]
  |split;
   [repeat split; try reflexivity; eexists; reflexivity
   |left; repeat split; reflexivity]].

Lemma main_try_cases :
  exists w1 mf wp, try_ends_as parse_datetime env cfg w1 mf /\ same_uploads w1 wp /\ stage parse_datetime env cfg wp mf.
Proof.
  unfold try_ends_as, same_uploads, stage, main_try.
  unfold initialize_s3_client, verify_s3_access, download_kaggle_dataset,
    extract_csv_from_zip, try_except, bind.
  destruct (validate cfg) eqn:V; cbn [negb].
  2: { not_reached (fresh_world env). }
  destruct (boto3_client env) as [e|s3] eqn:B.
  { not_reached (fresh_world env). }
  cbn.
  destruct (head_bucket s3 (S3_BUCKET cfg)) as [[m|m|m|]|] eqn:Hb; cbn.
  1: { not_reached (error_added env "S3 bucket not accessible" (fresh_world env)). }
  1-3: not_reached (fresh_world env).
  destruct (download env) as [bytes|[m|m|m|]] eqn:D; cbn.
  3: { not_reached (error_added env ("Download failed: " ++ m) (fresh_world env)). }
  2-4: not_reached (fresh_world env).
  match goal with
  | |- context [match extract env with _ => _ end ?W] => set (wd := W)
  end.
  destruct (extract env) as [| |[m|m|m|]] eqn:X; cbn.
  2: { not_reached (error_added env "No CSV file found in archive" wd). }
  2: { not_reached (error_added env ("Extraction failed: " ++ m) wd). }
  2: { not_reached (error_added env ("Extraction failed: " ++ m) wd). }
  2: { not_reached (error_added env ("Extraction failed: " ++ m) wd). }
  2: { not_reached wd. }
  destruct (process_and_upload_data parse_datetime env cfg s3 wd)
    as [[[|]|e|c] wp] eqn:HP; cbn.
  - exists wp, false, wp. split.
    + right; right. exists true. split; [reflexivity|discriminate].
    + split; [repeat split; exists []; rewrite app_nil_r; reflexivity|].
      right. exists s3, wd, (Ok true). repeat split; auto.
  - exists wp, true, wp. split.
    + right; right. exists false. split; [reflexivity|reflexivity].
    + split; [repeat split; exists []; rewrite app_nil_r; reflexivity|].
      right. exists s3, wd, (Ok false). repeat split; auto.
  - exists wp, true, wp. split.
    + right; left. exists e. reflexivity.
    + split; [repeat split; exists []; rewrite app_nil_r; reflexivity|].
      right. exists s3, wd, (Raised e). repeat split; auto.
  - exfalso. exact (process_no_exit _ _ _ _ HP).
Qed.

(** Every path through [main], seen from its end: the summary is
    finalized; after the stage reached, only [cleanup_files] and [save] add
    events; an exit goes with one written document; and the process exits
    whenever [cleanup_files] and the write do not raise. *)
Lemma main_spec :
  exists wp mf,
    ends_run env cfg mf wp (run_main parse_datetime env cfg) /\ stage parse_datetime env cfg wp mf.
Proof.
  destruct main_try_cases as (w1 & mf & wp & Hend & (T & F & N & E) & St).
  exists wp, mf. split; [|exact St].
  rewrite main_eq.
  apply ends_run_after with (w1 := w1) (pre := []); auto.
  { rewrite app_nil_r. exact T. }
  destruct Hend as [H|[(e & H)|(b & H & Hb)]].
  - apply ends_run_weaken. unfold with_handlers. rewrite H.
    apply early_body_ends.
  - apply ends_run_weaken. unfold with_handlers. rewrite H.
    apply handler_body_ends.
  - unfold with_handlers. rewrite H.
    destruct mf.
    + rewrite (Hb eq_refl). apply (closing_body_ends false).
    + apply (ends_run_weaken_false (negb b)). apply closing_body_ends.
Qed.

End MainFacts.

(** ** More on traces *)

Lemma closing_has_no_upload (tail : list event) :
  forallb is_closing tail = true ->
  delivered tail = [] /\ upload_calls tail = []
  /\ forall ev, In ev tail -> is_closing ev = true.
Proof.
  induction tail as [|ev tail IH]; simpl; intros H.
  - repeat split; auto; intros ev [].
  - apply andb_prop in H. destruct H as [H1 H2].
    destruct (IH H2) as (D & U & I).
    destruct ev; try discriminate; simpl; repeat split; auto;
      intros ev' [<-|H']; auto.
Qed.

Lemma quiet_no_failed_upload (tr : list event) (file bucket key : string) (e : exn) :
  quiet tr -> ~ In (EvUpload file bucket key (Some e)) tr.
Proof.
  intros Q H. unfold quiet in Q. rewrite Forall_forall in Q.
  destruct (Q _ H) as [F _]. discriminate.
Qed.


(** The loop writes no summary document. *)
Lemma run_saved
      (parse_datetime : Parser) (env : Env)
      (cfg : Config) (s3 : S3Client)
      (reader : list read_item) (pn : nat) (w : World)
      (out : result bool * World) :
  loop_run parse_datetime env cfg s3 reader pn w out ->
  saved (trace (snd out)) = saved (trace w).
Proof.
  induction 1 as [pn w|e rest pn w|chunk rest pn w Hj|chunk rest pn w j e Hj Hf
                 |chunk rest pn w j df out Hj Hf E _ IH
                 |chunk rest pn w j df out Hj Hf E U _ IH
                 |chunk rest pn w j df m Hj Hf E U
                 |chunk rest pn w j df e Hj Hf E U NC]; cbn [snd];
    rewrite ?IH, ?trace_turn_delivered, ?trace_turn_refused, ?trace_attempted;
    cbn [trace logged]; rewrite ?saved_app; simpl; rewrite ?app_nil_r; reflexivity.
Qed.

(** The URL built at line 270 from the bucket and the key of an upload. *)
Lemma urls_of_delivered (cfg : Config) (k : nat) :
  map url_of_delivery
      (map (fun i => (S3_BUCKET cfg, s3_key_of cfg i)) (parts 1 k))
  = map (s3_url_of cfg) (parts 1 k).
Proof. rewrite map_map. reflexivity. Qed.

(** C10.  What the list of the summary holds.  Whatever the reader gives
    and however the run ends, the function appends to [files_uploaded] the
    texts [s3://{bucket}/{prefix}part_{i:04d}.csv] for i = 1, ..., k and
    nothing else; at the end of [main] the list is exactly these texts; and
    such a text is never the bare key [{prefix}part_{i:04d}.csv].  As the
    reader is arbitrary, this covers the list after each turn of the loop. *)
Theorem uploaded_files_are_urls
        (parse_datetime : Parser) (env : Env) (cfg : Config) :
  let url := fun i =>
    "s3://" ++ S3_BUCKET cfg ++ "/" ++ S3_PREFIX cfg ++ "part_" ++ Fmt.d04 i ++ ".csv" in
  let key := fun i => S3_PREFIX cfg ++ "part_" ++ Fmt.d04 i ++ ".csv" in
  (forall s3 reader w,
      exists k,
        files_uploaded
          (summary (snd (process_reader parse_datetime env cfg s3 reader w)))
        = (files_uploaded (summary w) ++ map url (seq 1 k))%list)
  /\ (exists k,
        files_uploaded (summary (snd (run_main parse_datetime env cfg)))
        = map url (seq 1 k))
  /\ (forall i, url i <> key i).
Proof.
  cbv zeta. split; [|split].
  - intros s3 reader w.
    destruct (process_deliveries parse_datetime env cfg s3 reader w)
      as (_ & k & a & _ & F & _).
    exists k. exact F.
  - destruct (main_spec parse_datetime env cfg) as (wp & mf & En & St).
    destruct En as (_ & _ & F & _). rewrite F.
    destruct St as [(_ & F0 & _)|(s3 & w0 & r & _ & _ & F0 & _ & _ & P & _)].
    + exists 0. rewrite F0. reflexivity.
    + unfold process_and_upload_data in P.
      destruct (process_deliveries parse_datetime env cfg s3 (open_reader env cfg) w0)
        as (_ & k & a & _ & F1 & _).
      rewrite P in F1. cbn [snd] in F1. rewrite F0 in F1.
      exists k. exact F1.
  - intros i. apply (FmtFacts.s3_url_is_not_key cfg i).
Qed.

(** ** A failed delivery *)

Section FailureFacts.

Variable parse_datetime : Parser.
Variable env : Env.
Variable cfg : Config.
Variable s3 : S3Client.

Abbreviation process := (process_reader parse_datetime env cfg s3).

(** How the function ends, from how the loop ends. *)
Lemma process_ends (reader : list read_item) (w : World) :
  exists r1 w1,
    for_chunks parse_datetime env cfg s3 reader 1 w = (r1, w1)
    /\ loop_end env cfg w (r1, w1)
    /\ trace (snd (process reader w)) = trace w1
    /\ match r1 with
       | Ok b => process reader w = (Ok b, w1)
       | Raised e =>
           if isinstance_Exception e
           then process reader w = (Ok false, processing_failed env e w1)
           else process reader w = (Raised e, w1)
       | Exit c => False
       end.
Proof.
  pose proof (for_chunks_run parse_datetime env cfg s3 reader 1 w) as R.
  apply run_loop_end in R.
  destruct (process_reader_same parse_datetime env cfg s3 reader w) as (T & _).
  rewrite process_reader_unfold.
  rewrite process_reader_unfold in T.
  destruct (for_chunks parse_datetime env cfg s3 reader 1 w) as [r1 w1] eqn:F.
  exists r1, w1. split; [reflexivity|]. split; [exact R|].
  destruct r1 as [b|e|c]; cbn [snd] in *.
  - auto.
  - destruct (isinstance_Exception e); auto.
  - inversion R.
Qed.

Lemma skipn_length_app {A} (a b : list A) : skipn (List.length a) (a ++ b) = b.
Proof. induction a as [|x a IH]; simpl; auto. Qed.

(** When an upload fails with an exception of class [Exception], the
    function returns [False], has recorded exactly one error entry, and the
    failed call is followed by no read and no upload. *)
Lemma process_failed_delivery (reader : list read_item) (w : World)
      (file bucket key : string) (e : exn) :
  let out := process reader w in
  let tr := events_since w (snd out) in
  In (EvUpload file bucket key (Some e)) tr ->
  isinstance_Exception e = true ->
  fst out = Ok false
  /\ (exists t msg,
        errors (summary (snd out)) =
        (errors (summary w) ++ [{| timestamp := t; error := msg |}])%list)
  /\ (exists before after,
        tr = (before ++ EvUpload file bucket key (Some e) :: after)%list
        /\ quiet before
        /\ forallb neither_read_nor_upload after = true).
Proof.
  cbv zeta. intros HIn HEx.
  destruct (process_ends reader w) as (r1 & w1 & F & L & T & P).
  unfold events_since in *. rewrite T in *.
  inversion L as [tr w' Q Tr Er Ti|tr e0 w' Q Tr Er Ti|tr e0 w' Q Tr Er Ti
                 |tr i df m w' Q Tr Er Ti|tr i df e0 w' Q NC Tr Er Ti]; subst;
    rewrite Tr in *; rewrite skipn_length_app in *.
  - exfalso. exact (quiet_no_failed_upload _ _ _ _ _ Q HIn).
  - exfalso. apply in_app_or in HIn. destruct HIn as [H|[H|[]]].
    + exact (quiet_no_failed_upload _ _ _ _ _ Q H).
    + discriminate.
  - exfalso. exact (quiet_no_failed_upload _ _ _ _ _ Q HIn).
  - apply in_app_or in HIn. destruct HIn as [H|[H|[H|[H|[]]]]];
      try discriminate.
    + exfalso. exact (quiet_no_failed_upload _ _ _ _ _ Q H).
    + injection H as <- <- <- <-. rewrite P. cbn [fst snd].
      split; [reflexivity|]. split; [rewrite Er; eauto|].
      exists (tr ++ [EvToCsv (temp_file_name i) df])%list, [EvRemove (temp_file_name i)].
      split; [rewrite <- app_assoc; reflexivity|].
      split; [apply quiet_app; [exact Q|repeat constructor]|reflexivity].
  - apply in_app_or in HIn. destruct HIn as [H|[H|[H|[]]]];
      try discriminate.
    + exfalso. exact (quiet_no_failed_upload _ _ _ _ _ Q H).
    + injection H as <- <- <- <-. rewrite HEx in P. rewrite P. cbn [fst snd].
      split; [reflexivity|]. split.
      * unfold processing_failed. cbn. rewrite Er. eauto.
      * exists (tr ++ [EvToCsv (temp_file_name i) df])%list, [].
        split; [rewrite <- app_assoc; reflexivity|].
        split; [apply quiet_app; [exact Q|repeat constructor]|reflexivity].
Qed.


End FailureFacts.

(** C2.  Fail-fast on a failed delivery.  (1) After any run of the
    function, the list of the summary has grown by as many entries as
    uploads were stored.  (2) When an upload fails with an exception of
    class [Exception], the function returns [False] at once: exactly one
    error entry is appended, the failed call is followed by no read and no
    upload, the list holds the URLs of the uploads stored before it, the
    running total holds the rows of every batch written so far, and the
    start time and download size are as they were.  (3) In [main],
    a run whose trace has such a failed upload ends with status [failed],
    never exits with code 0, and its list still has one entry per stored
    upload. *)
Theorem delivery_failure_aborts_the_run
        (parse_datetime : Parser) (env : Env) (cfg : Config) :
  (forall s3 reader w,
      let out := process_reader parse_datetime env cfg s3 reader w in
      let tr := events_since w (snd out) in
      List.length (files_uploaded (summary (snd out))) =
        List.length (files_uploaded (summary w)) + List.length (delivered tr)
      /\ forall file bucket key e,
          In (EvUpload file bucket key (Some e)) tr ->
          isinstance_Exception e = true ->
          fst out = Ok false
          /\ (exists t msg,
                errors (summary (snd out)) =
                (errors (summary w) ++ [{| timestamp := t; error := msg |}])%list)
          /\ (exists before after,
                tr = (before ++ EvUpload file bucket key (Some e) :: after)%list
                /\ forallb neither_read_nor_upload after = true
                /\ delivered tr = delivered before)
          /\ files_uploaded (summary (snd out)) =
             (files_uploaded (summary w)
              ++ map url_of_delivery (delivered tr))%list
          /\ total_rows (summary (snd out)) =
             total_rows (summary w) + written_rows tr
          /\ start_time (summary (snd out)) = start_time (summary w)
          /\ download_size_mb (summary (snd out)) = download_size_mb (summary w))
  /\ (let out := run_main parse_datetime env cfg in
      List.length (files_uploaded (summary (snd out))) =
        List.length (delivered (trace (snd out)))
      /\ forall file bucket key e,
          In (EvUpload file bucket key (Some e)) (trace (snd out)) ->
          isinstance_Exception e = true ->
          status (summary (snd out)) = "failed"
          /\ fst out <> Exit 0
          /\ files_uploaded (summary (snd out)) =
             map url_of_delivery
                 (delivered (trace (snd out)))).
Proof.
  split.
  - intros s3 reader w. cbv zeta.
    destruct (process_deliveries parse_datetime env cfg s3 reader w)
      as (E & k & a & D & F & C & Hka).
    split.
    { rewrite F, D, length_app, !length_map. reflexivity. }
    intros file bucket key e HIn HEx.
    destruct (process_failed_delivery parse_datetime env cfg s3 reader w
                file bucket key e HIn HEx) as (R & Er & before & after & Tr & Q & A).
    split; [exact R|]. split; [exact Er|]. split.
    { exists before, after. split; [exact Tr|]. split; [exact A|].
      rewrite Tr, delivered_app. simpl.
      assert (delivered after = []) as ->.
      { clear -A. induction after as [|ev after IH]; simpl in *; auto.
        apply andb_prop in A. destruct A as [A1 A2].
        destruct ev as [| | |? ? ? [?|]| | |]; simpl in *; auto; discriminate. }
      rewrite app_nil_r. reflexivity. }
    split.
    { rewrite F, D, urls_of_delivered. reflexivity. }
    destruct (process_reader_same parse_datetime env cfg s3 reader w)
      as (_ & _ & _ & St & _ & _ & Dl & _).
    pose proof (for_chunks_run parse_datetime env cfg s3 reader 1 w) as Run.
    destruct (run_frame _ _ _ _ _ _ _ _ Run) as (St1 & _ & _ & Dl1 & _).
    split; [apply (process_total_rows parse_datetime env cfg s3 reader w)|].
    split; congruence.
  - cbv zeta.
    destruct (main_spec parse_datetime env cfg) as (wp & mf & En & St).
    destruct En as (Stat & _ & F & _ & _ & (tail & T & Cl & _) & Ex & _).
    destruct (closing_has_no_upload tail Cl) as (Dt & _ & Ict).
    assert (files_uploaded (summary wp) =
            map url_of_delivery (delivered (trace wp)))
      as Fwp.
    { destruct St as [(T0 & F0 & _)|(s3 & w0 & r & _ & T0 & F0 & _ & _ & P & _)].
      - rewrite T0, F0. reflexivity.
      - unfold process_and_upload_data in P.
        destruct (process_deliveries parse_datetime env cfg s3 (open_reader env cfg) w0)
          as (E & k & a & D & F1 & _).
        rewrite P in E, D, F1. cbn [snd] in E, D, F1.
        rewrite T0 in E. cbn in E. rewrite E, D, F1, F0, urls_of_delivered.
        reflexivity. }
    rewrite F, T, delivered_app, Dt, app_nil_r, Fwp. split.
    { rewrite length_map. reflexivity. }
    intros file bucket key e HIn HEx.
    apply in_app_or in HIn. destruct HIn as [HIn|HIn];
      [|apply Ict in HIn; discriminate].
    assert (mf = true) as ->.
    { destruct St as [(T0 & _ & _ & M)|(s3 & w0 & r & _ & T0 & _ & _ & _ & P & M)];
        [exact M|].
      apply M. unfold process_and_upload_data in P.
      assert (events_since w0 wp = trace wp) as Ev.
      { unfold events_since. rewrite T0. reflexivity. }
      pose proof (process_failed_delivery parse_datetime env cfg s3
                    (open_reader env cfg) w0 file bucket key e) as L.
      cbv zeta in L. rewrite P in L. cbn [fst snd] in L. rewrite Ev in L.
      destruct (L HIn HEx) as (R & _). congruence. }
    destruct Stat as [S|[? _]]; [|discriminate].
    split; [exact S|]. split; [|reflexivity].
    intros HE. apply Ex in HE. destruct HE as [HE _].
    rewrite S in HE. specialize (HE eq_refl). discriminate.
Qed.

Lemma delivery_failure_aborts_the_run_witness :
  let f := mkCsv Sample.hdr [Sample.late; Sample.at_cutoff; Sample.late] in
  let s3 := Sample.s3_refusing "final-raw/part_0002.csv" (ClientError "AccessDenied") in
  let env := Sample.env_of s3 f in
  let cfg := Sample.with_chunk_rows 1 in
  let out := process_reader Inferred.parse env cfg s3 (read_csv 1 f) Sample.world0 in
  fst out = Ok false
  /\ files_uploaded (summary (snd out)) = ["s3://bronze-03/final-raw/part_0001.csv"]
  /\ status (summary (snd (run_main Inferred.parse env cfg))) = "failed".
Proof.
  cbv zeta.
  destruct (delivery_failure_aborts_the_run Inferred.parse
              (Sample.env_of
                 (Sample.s3_refusing "final-raw/part_0002.csv" (ClientError "AccessDenied"))
                 (mkCsv Sample.hdr [Sample.late; Sample.at_cutoff; Sample.late]))
              (Sample.with_chunk_rows 1)) as [P M].
  destruct (P (Sample.s3_refusing "final-raw/part_0002.csv" (ClientError "AccessDenied"))
              (read_csv 1 (mkCsv Sample.hdr [Sample.late; Sample.at_cutoff; Sample.late]))
              Sample.world0) as [_ H].
  destruct (H "part_0002.csv" "bronze-03" "final-raw/part_0002.csv"
              (ClientError "AccessDenied")) as (R & _ & _ & F & _).
  { vm_compute. do 6 right. left. reflexivity. }
  { reflexivity. }
  split; [exact R|]. split; [rewrite F; reflexivity|].
  destruct M as [_ HM].
  destruct (HM "part_0002.csv" "bronze-03" "final-raw/part_0002.csv"
               (ClientError "AccessDenied")) as (S & _).
  { vm_compute. do 6 right. left. reflexivity. }
  { reflexivity. }
  exact S.
Defined.

(** ** A malformed line *)

Section MalformedFacts.










Variable parse_datetime : Parser.
Variable env : Env.
Variable cfg : Config.
Variable s3 : S3Client.


End MalformedFacts.




(** ** Writing the summary *)

(** C7 fails on the code.  The archive holds its CSV as
    [youtube.csv/data.csv]: the rename in [extract_csv_from_zip] fails and is
    caught there, the stage returns [False], and [cleanup_files] then raises
    on the directory [youtube.csv].  The handler of line 376 records the error, finalizes the
    summary, and calls [cleanup_files] again before [summary.save]; the call
    raises again, the exception leaves [main], and no summary document is
    ever written. *)
Theorem summary_is_lost_when_cleanup_raises :
  let env := Sample.env_cleanup_fails Sample.s3_ok (mkCsv Sample.hdr []) in
  let out := run_main Inferred.parse env Sample.config in
  fst out = Raised (OtherException "[Errno 21] Is a directory: 'youtube.csv'")
  /\ saved (trace (snd out)) = []
  /\ trace (snd out) =
     [EvCleanup (Some (OtherException "[Errno 21] Is a directory: 'youtube.csv'"));
      EvCleanup (Some (OtherException "[Errno 21] Is a directory: 'youtube.csv'"))]
  /\ status (summary (snd out)) = "failed"
  /\ map error (errors (summary (snd out))) =
     ["Extraction failed: [Errno 39] Directory not empty: 'youtube.csv/data.csv' -> 'youtube.csv'";
      "Unexpected error: [Errno 21] Is a directory: 'youtube.csv'"].
Proof.
  cbv zeta. split; [|split; [|split; [|split]]]; vm_compute; reflexivity.
Qed.

(** ** The document *)

(** C9.  Serializing a summary that was never finalized.  With [end_time]
    unset, the document has [end_time] null and [duration_seconds] the
    integer 0; and, finalized or not, it has the same ten keys in the same
    order, with the same four keys under [configuration]. *)
Theorem unfinalized_summary_serializes (cfg : Config) (s : Summary) :
  (end_time s = None ->
   field "end_time" (to_dict cfg s) = Some JNull
   /\ field "duration_seconds" (to_dict cfg s) = Some (JNumber (PyInt 0)))
  /\ keys (to_dict cfg s) =
     ["status"; "start_time"; "end_time"; "duration_seconds";
      "total_rows_processed"; "files_uploaded"; "file_list";
      "download_size_mb"; "errors"; "configuration"]
  /\ option_map keys (field "configuration" (to_dict cfg s)) =
     Some ["s3_bucket"; "s3_prefix"; "chunk_size"; "aws_region"]
  /\ field "status" (to_dict cfg s) = Some (JString (status s))
  /\ field "start_time" (to_dict cfg s) = Some (JIsoformat (start_time s))
  /\ field "total_rows_processed" (to_dict cfg s) = Some (JInt (total_rows s))
  /\ field "files_uploaded" (to_dict cfg s) =
     Some (JInt (List.length (files_uploaded s)))
  /\ field "file_list" (to_dict cfg s) = Some (JArray (map JString (files_uploaded s)))
  /\ field "errors" (to_dict cfg s) = Some (JArray (map json_of_error (errors s))).
Proof.
  split.
  - intros H. unfold to_dict. rewrite H. split; reflexivity.
  - repeat split.
Qed.

Lemma unfinalized_summary_serializes_witness :
  let s := s_init 1762185600000000%Z in
  field "end_time" (to_dict Sample.config s) = Some JNull
  /\ field "duration_seconds" (to_dict Sample.config s) = Some (JNumber (PyInt 0)).
Proof.
  cbv zeta.
  apply (proj1 (unfinalized_summary_serializes Sample.config
                  (s_init 1762185600000000%Z))).
  reflexivity.
Defined.

(* ================================================================== *)
(** * More of the script *)

(** ** What the function writes *)


Lemma frames_rows_app (a b : list DataFrame) :
  frames_rows (a ++ b) = (frames_rows a ++ frames_rows b)%list.
Proof. unfold frames_rows. apply flat_map_app. Qed.

Lemma temp_files_app (acc : list string) (a b : list event) :
  temp_files acc (a ++ b) = temp_files (temp_files acc a) b.
Proof.
  revert acc. induction a as [|ev a IH]; intros acc; simpl; [reflexivity|].
  destruct ev; simpl; apply IH.
Qed.

Lemma rows_nil_of_len (df : DataFrame) : len df = 0 -> rows df = [].
Proof. unfold len. destruct (rows df); simpl; [reflexivity|discriminate]. Qed.

Lemma firstn_succ_cons {A} (n : nat) (x : A) (l : list A) :
  firstn (S n) (x :: l) = x :: firstn n l.
Proof. reflexivity. Qed.

Section WrittenFacts.

Variable parse_datetime : Parser.
Variable env : Env.
Variable cfg : Config.
Variable s3 : S3Client.

Abbreviation run := (loop_run parse_datetime env cfg s3).

Lemma reader_batches_skip (chunk : DataFrame) (rest : list read_item) (j : nat)
      (df : DataFrame) :
  index_of video_published_at (columns chunk) = Some j ->
  filter_chunk parse_datetime j chunk = inr df ->
  len df = 0 ->
  reader_batches parse_datetime (Chunk chunk :: rest) =
  reader_batches parse_datetime rest.
Proof.
  intros Hj Hf E. cbn [reader_batches].
  rewrite (filter_frame_at _ _ _ Hj), Hf, E. reflexivity.
Qed.

Lemma reader_batches_keep (chunk : DataFrame) (rest : list read_item) (j : nat)
      (df : DataFrame) :
  index_of video_published_at (columns chunk) = Some j ->
  filter_chunk parse_datetime j chunk = inr df ->
  len df <> 0 ->
  reader_batches parse_datetime (Chunk chunk :: rest) =
  df :: reader_batches parse_datetime rest.
Proof.
  intros Hj Hf E. cbn [reader_batches].
  rewrite (filter_frame_at _ _ _ Hj), Hf.
  destruct (Nat.eqb_spec (len df) 0); [contradiction|reflexivity].
Qed.

(** The frames a run hands to [to_csv] are, in order, the first filtered
    batches of its reader that keep a row; all of them when the loop runs
    to its end. *)
Lemma run_written (reader : list read_item) (pn : nat) (w : World)
      (out : result bool * World) :
  run reader pn w out ->
  exists tr n,
    trace (snd out) = (trace w ++ tr)%list
    /\ written_frames tr = firstn n (reader_batches parse_datetime reader)
    /\ (fst out = Ok true ->
        written_frames tr = reader_batches parse_datetime reader).
Proof.
  induction 1 as [pn w|e rest pn w|chunk rest pn w Hj|chunk rest pn w j e Hj Hf
                 |chunk rest pn w j df out Hj Hf E _ IH
                 |chunk rest pn w j df out Hj Hf E U _ IH
                 |chunk rest pn w j df m Hj Hf E U
                 |chunk rest pn w j df e Hj Hf E U NC];
    cbn [snd fst].
  - exists [], 0. rewrite app_nil_r. repeat split; auto.
  - exists [EvReadError e], 0. repeat split; auto. discriminate.
  - exists [EvRead (len chunk)], 0. repeat split; auto. discriminate.
  - exists [EvRead (len chunk)], 0. repeat split; auto. discriminate.
  - destruct IH as (tr & n & T & W & K). cbn [trace logged] in T.
    rewrite (reader_batches_skip _ _ _ _ Hj Hf E).
    exists (EvRead (len chunk) :: tr), n. rewrite T, <- app_assoc.
    repeat split; auto.
  - destruct IH as (tr & n & T & W & K). rewrite trace_turn_delivered in T.
    cbn [trace logged] in T. rewrite <- !app_assoc in T.
    rewrite (reader_batches_keep _ _ _ _ Hj Hf E).
    eexists. exists (S n). split; [exact T|].
    cbn [app written_frames]. rewrite firstn_succ_cons, W.
    split; [reflexivity|]. intros Hok. rewrite <- W. f_equal. exact (K Hok).
  - rewrite trace_turn_refused. cbn [trace logged]. rewrite <- !app_assoc.
    rewrite (reader_batches_keep _ _ _ _ Hj Hf E).
    eexists. exists 1. split; [reflexivity|].
    cbn [app written_frames]. rewrite firstn_succ_cons, firstn_O.
    split; [reflexivity|discriminate].
  - rewrite trace_attempted. cbn [trace logged]. rewrite <- !app_assoc.
    rewrite (reader_batches_keep _ _ _ _ Hj Hf E).
    eexists. exists 1. split; [reflexivity|].
    cbn [app written_frames]. rewrite firstn_succ_cons, firstn_O.
    split; [reflexivity|discriminate].
Qed.

(** Every batch is what lines 249-252 keep of one frame of the reader,
    under the reading of that frame, and holds a row. *)
Lemma reader_batches_from (reader : list read_item) :
  Forall (fun b =>
            exists df j read,
              In (Chunk df) reader
              /\ index_of video_published_at (columns df) = Some j
              /\ parse_datetime (column j df) = inr read
              /\ columns b = columns df
              /\ rows b =
                 map (fun r => set_cell j (to_datetime read (cell_at j r)) r)
                     (filter (accepts read j cutoff_date) (rows df))
              /\ 1 <= len b <= len df)
         (reader_batches parse_datetime reader).
Proof.
  induction reader as [|[df|e] reader IH]; cbn [reader_batches].
  - constructor.
  - assert (IH' : Forall (fun b =>
            exists df0 j read,
              In (Chunk df0) (Chunk df :: reader)
              /\ index_of video_published_at (columns df0) = Some j
              /\ parse_datetime (column j df0) = inr read
              /\ columns b = columns df0
              /\ rows b =
                 map (fun r => set_cell j (to_datetime read (cell_at j r)) r)
                     (filter (accepts read j cutoff_date) (rows df0))
              /\ 1 <= len b <= len df0)
         (reader_batches parse_datetime reader)).
    { eapply Forall_impl; [|exact IH].
      intros b (df0 & j & read & HIn & H). exists df0, j, read.
      split; [right; exact HIn|exact H]. }
    unfold filter_frame.
    destruct (index_of video_published_at (columns df)) as [j|] eqn:Hj; [|exact IH'].
    destruct (filter_chunk parse_datetime j df) as [e|kept] eqn:Hf; [exact IH'|].
    destruct (Nat.eqb_spec (len kept) 0) as [E|N]; [exact IH'|].
    constructor; [|exact IH'].
    destruct (filter_chunk_rows _ _ _ _ Hf) as (read & P & C & R).
    exists df, j, read. split; [left; reflexivity|].
    repeat split; auto; [lia|].
    exact (len_filter_chunk _ _ _ _ Hf).
  - eapply Forall_impl; [|exact IH].
    intros b (df0 & j & read & HIn & H). exists df0, j, read.
    split; [right; exact HIn|exact H].
Qed.

End WrittenFacts.

Lemma tokenize_length (ls : list (exn + Row)) (rs : list Row) :
  tokenize ls = inr rs -> List.length rs = List.length ls.
Proof.
  revert rs. induction ls as [|[e|r] ls IH]; simpl; intros rs H.
  - injection H as <-. reflexivity.
  - discriminate.
  - destruct (tokenize ls) as [m|rs'] eqn:T; [discriminate|].
    injection H as <-. simpl. f_equal. apply IH. reflexivity.
Qed.

(** No frame of the reader has more rows than the chunk size, whatever the
    lines are. *)
Lemma chunks_from_bound (hdr : list string) (n fuel : nat) (ls : list (exn + Row)) :
  Forall (fun it => match it with
                    | Chunk df => columns df = hdr /\ len df <= n
                    | ReadRaises _ => True
                    end)
         (chunks_from fuel n hdr ls).
Proof.
  revert ls. induction fuel as [|fuel IH]; intros ls; simpl; [constructor|].
  destruct ls as [|l ls]; [constructor|].
  destruct (tokenize (firstn n (l :: ls))) as [m|rs] eqn:T.
  - repeat constructor.
  - constructor; [|apply IH].
    split; [reflexivity|]. unfold len. cbn [rows].
    rewrite (tokenize_length _ _ T). apply firstn_le_length.
Qed.

Lemma read_csv_bound (N : Z) (f : csv_file) :
  Forall (fun it => match it with
                    | Chunk df =>
                        columns df = header f /\ (Z.of_nat (len df) <= Z.max N 0)%Z
                    | ReadRaises _ => True
                    end)
         (read_csv N f).
Proof.
  unfold read_csv. destruct (Z.ltb_spec N 1) as [?|HN]; [repeat constructor|].
  destruct (tokenized f) as [|l ls] eqn:E.
  - repeat constructor. unfold len. simpl. lia.
  - eapply Forall_impl; [|apply chunks_from_bound].
    intros [df|e]; [|auto]. intros [C L]. split; [exact C|]. lia.
Qed.

Lemma process_result_ok (parse_datetime : Parser) (env : Env)
      (cfg : Config) (s3 : S3Client) (reader : list read_item) (w : World) :
  fst (process_reader parse_datetime env cfg s3 reader w) = Ok true ->
  fst (for_chunks parse_datetime env cfg s3 reader 1 w) = Ok true.
Proof.
  rewrite process_reader_unfold.
  destruct (for_chunks parse_datetime env cfg s3 reader 1 w) as [[b|e|c] w']; auto.
  destruct (isinstance_Exception e); cbn; congruence.
Qed.

(** X1.  No row lost, doubled or moved.  For a chunk size of at least 1:
    the frames handed to [to_csv] are, in order, the first filtered batches
    of the reader that keep a row, and all of them when the function
    returns [True].  Each batch carries the header of the file, has between
    1 and [CHUNK_ROWS] rows, and holds, in their order, exactly the rows of
    one frame of the reader that the reading of that frame accepts, with
    only the timestamp cell replaced by its parsed value.  And when no
    line of the file is refused, the frames of the reader hold, in file
    order, the rows of the file as [read_csv] reads them: a marker of a
    missing value as NaN, a short line filled up, a blank line skipped. *)
Theorem accepted_rows_are_written_in_order
        (parse_datetime : Parser) (env : Env)
        (cfg : Config) (s3 : S3Client) (f : csv_file) (w : World) :
  (1 <= CHUNK_ROWS cfg)%Z ->
  let reader := read_csv (CHUNK_ROWS cfg) f in
  let out := process_reader parse_datetime env cfg s3 reader w in
  let written := written_frames (events_since w (snd out)) in
  let batches := reader_batches parse_datetime reader in
  (exists n, written = firstn n batches)
  /\ (fst out = Ok true -> written = batches)
  /\ Forall (fun b =>
               columns b = header f
               /\ 1 <= len b
               /\ (Z.of_nat (len b) <= CHUNK_ROWS cfg)%Z
               /\ exists df j read,
                   In (Chunk df) reader
                   /\ index_of video_published_at (header f) = Some j
                   /\ parse_datetime (column j df) = inr read
                   /\ rows b =
                      map (fun r => set_cell j (to_datetime read (cell_at j r)) r)
                          (filter (accepts read j cutoff_date) (rows df)))
            batches
  /\ (well_formed f = true -> reader_rows reader = file_rows f).
Proof.
  intros HN. cbv zeta.
  destruct (process_reader_same parse_datetime env cfg s3
              (read_csv (CHUNK_ROWS cfg) f) w) as (T & _).
  pose proof (for_chunks_run parse_datetime env cfg s3
                (read_csv (CHUNK_ROWS cfg) f) 1 w) as R.
  destruct (run_written _ _ _ _ _ _ _ _ R) as (tr & n & Tr & W & K).
  rewrite <- T in Tr. rewrite (events_since_app _ _ _ Tr).
  split; [exists n; exact W|]. split.
  - intros Hok. apply K. apply process_result_ok. exact Hok.
  - split.
    + pose proof (read_csv_bound (CHUNK_ROWS cfg) f) as B.
      rewrite Forall_forall in B.
      eapply Forall_impl; [|apply reader_batches_from].
      intros b (df & j & read & HIn & Hj & P & C & Rw & L1 & L2).
      specialize (B _ HIn). cbn beta iota in B. destruct B as [Hc Hl].
      rewrite Hc in C, Hj.
      split; [exact C|]. split; [exact L1|]. split; [lia|].
      exists df, j, read. auto.
    + intros Hwf. apply (read_csv_spec (CHUNK_ROWS cfg) f HN Hwf).
Qed.

Lemma accepted_rows_are_written_in_order_witness :
  let f := mkCsv Sample.hdr
             [Sample.late; Sample.early; Sample.at_cutoff; Sample.blank; Sample.late] in
  let out := process_reader Inferred.parse (Sample.env_of Sample.s3_ok f)
               (Sample.with_chunk_rows 2) Sample.s3_ok (read_csv 2 f) Sample.world0 in
  fst out = Ok true
  /\ written_frames (events_since Sample.world0 (snd out))
     = reader_batches Inferred.parse (read_csv 2 f)
  /\ map len (reader_batches Inferred.parse (read_csv 2 f)) = [1; 1; 1].
Proof.
  cbv zeta.
  destruct (accepted_rows_are_written_in_order Inferred.parse
              (Sample.env_of Sample.s3_ok
                 (mkCsv Sample.hdr
                    [Sample.late; Sample.early; Sample.at_cutoff; Sample.blank;
                     Sample.late]))
              (Sample.with_chunk_rows 2) Sample.s3_ok
              (mkCsv Sample.hdr
                 [Sample.late; Sample.early; Sample.at_cutoff; Sample.blank;
                  Sample.late])
              Sample.world0) as (_ & H & _).
  - simpl. lia.
  - split; [reflexivity|]. split; [apply H; reflexivity|reflexivity].
Defined.

(** ** Runs that reach the end *)

Section CompleteFacts.

Variable parse_datetime : Parser.
Variable env : Env.
Variable cfg : Config.
Variable s3 : S3Client.

Abbreviation run := (loop_run parse_datetime env cfg s3).

(** A loop that ends with [True] has counted every row its filter kept and
    uploaded one partition for each batch that kept a row. *)
Lemma run_ok_counts (reader : list read_item) (pn : nat) (w : World)
      (out : result bool * World) :
  run reader pn w out ->
  fst out = Ok true ->
  total_rows (summary (snd out)) =
    total_rows (summary w) + reader_accepted parse_datetime reader
  /\ files_uploaded (summary (snd out)) =
     (files_uploaded (summary w)
      ++ map (s3_url_of cfg)
             (parts pn (List.length (reader_batches parse_datetime reader))))%list
  /\ forallb (filters parse_datetime) reader = true.
Proof.
  induction 1 as [pn w|e rest pn w|chunk rest pn w Hj|chunk rest pn w j e Hj Hf
                 |chunk rest pn w j df out Hj Hf E _ IH
                 |chunk rest pn w j df out Hj Hf E U _ IH
                 |chunk rest pn w j df m Hj Hf E U
                 |chunk rest pn w j df e Hj Hf E U NC];
    cbn [fst snd]; intros Hok; try discriminate;
    cbn [reader_accepted forallb filters];
    rewrite ?(count_accepted_at _ _ _ _ Hj Hf), ?(filter_frame_at _ _ _ Hj), ?Hf.
  - simpl. rewrite app_nil_r. repeat split; auto.
  - destruct (IH Hok) as (T & F & C).
    rewrite (reader_batches_skip _ _ _ _ _ Hj Hf E).
    cbn [summary logged] in T, F. rewrite T, F. repeat split; auto. lia.
  - destruct (IH Hok) as (T & F & C).
    rewrite (reader_batches_keep _ _ _ _ _ Hj Hf E).
    rewrite summary_turn_delivered in T, F.
    cbn [summary logged total_rows files_uploaded s_append_file s_add_rows] in T, F.
    cbn [List.length]. rewrite T, F, parts_succ. cbn [map]. rewrite <- app_assoc.
    repeat split; auto. lia.
Qed.


(** The count of a reader is the number of rows of its batches. *)
Lemma reader_accepted_batches (reader : list read_item) :
  reader_accepted parse_datetime reader =
  List.length (frames_rows (reader_batches parse_datetime reader)).
Proof.
  induction reader as [|[df|e] reader IH]; cbn [reader_accepted reader_batches];
    [reflexivity| |exact IH].
  unfold count_accepted.
  destruct (filter_frame parse_datetime df) as [e|kept]; [exact IH|].
  destruct (Nat.eqb_spec (len kept) 0) as [E|N]; [rewrite E; exact IH|].
  unfold frames_rows in *. cbn [flat_map]. rewrite length_app, <- IH. reflexivity.
Qed.

End CompleteFacts.

(** What the summary holds when the function has returned [True]. *)
Lemma process_ok_summary
        (parse_datetime : Parser) (env : Env)
        (cfg : Config) (s3 : S3Client) (reader : list read_item) (w : World) :
  let out := process_reader parse_datetime env cfg s3 reader w in
  fst out = Ok true ->
  total_rows (summary (snd out)) =
    total_rows (summary w)
    + List.length (frames_rows (reader_batches parse_datetime reader))
  /\ files_uploaded (summary (snd out)) =
     (files_uploaded (summary w)
      ++ map (s3_url_of cfg)
             (seq 1 (List.length (reader_batches parse_datetime reader))))%list
  /\ errors (summary (snd out)) = errors (summary w)
  /\ forallb (filters parse_datetime) reader = true.
Proof.
  cbv zeta. intros Hok.
  pose proof (process_result_ok _ _ _ _ _ _ Hok) as Hin.
  pose proof (for_chunks_run parse_datetime env cfg s3 reader 1 w) as R.
  destruct (run_ok_counts _ _ _ _ _ _ _ _ R Hin) as (T & F & C).
  destruct (process_reader_same parse_datetime env cfg s3 reader w)
    as (_ & F' & T' & _).
  rewrite F', T', <- reader_accepted_batches.
  split; [exact T|]. split; [exact F|]. split; [|exact C].
  destruct (process_ends parse_datetime env cfg s3 reader w) as (r1 & w1 & Fc & L & _ & P).
  rewrite Fc in Hin. cbn [fst] in Hin. subst r1. rewrite P. cbn [snd].
  inversion L; subst; assumption.
Qed.

(** X2.  One partition per batch that keeps a row.  When the function
    returns [True], lines 249-252 raised on no frame of the reader, the
    running total has grown by the number of rows of the filtered batches,
    and the list has grown by the URLs of parts 1, ..., n, where n is the
    number of filtered batches that kept at least one row. *)
Theorem completed_run_uploads_each_nonempty_batch
        (parse_datetime : Parser) (env : Env)
        (cfg : Config) (s3 : S3Client) (reader : list read_item) (w : World) :
  let out := process_reader parse_datetime env cfg s3 reader w in
  fst out = Ok true ->
  total_rows (summary (snd out)) =
    total_rows (summary w)
    + List.length (frames_rows (reader_batches parse_datetime reader))
  /\ files_uploaded (summary (snd out)) =
     (files_uploaded (summary w)
      ++ map (s3_url_of cfg)
             (seq 1 (List.length (reader_batches parse_datetime reader))))%list
  /\ errors (summary (snd out)) = errors (summary w)
  /\ forallb (filters parse_datetime) reader = true.
Proof. exact (process_ok_summary parse_datetime env cfg s3 reader w). Qed.

Lemma completed_run_uploads_each_nonempty_batch_witness :
  let f := mkCsv Sample.hdr
             [Sample.late; Sample.at_cutoff; Sample.early; Sample.blank; Sample.late] in
  let out := process_reader Inferred.parse (Sample.env_of Sample.s3_ok f)
               (Sample.with_chunk_rows 2) Sample.s3_ok (read_csv 2 f) Sample.world0 in
  map len (reader_batches Inferred.parse (read_csv 2 f)) = [2; 1]
  /\ files_uploaded (summary (snd out)) =
     ["s3://bronze-03/final-raw/part_0001.csv"; "s3://bronze-03/final-raw/part_0002.csv"]
  /\ total_rows (summary (snd out)) = 3.
Proof.
  cbv zeta. split; [reflexivity|].
  destruct (completed_run_uploads_each_nonempty_batch Inferred.parse
              (Sample.env_of Sample.s3_ok
                 (mkCsv Sample.hdr
                    [Sample.late; Sample.at_cutoff; Sample.early; Sample.blank;
                     Sample.late]))
              (Sample.with_chunk_rows 2) Sample.s3_ok
              (read_csv 2
                 (mkCsv Sample.hdr
                    [Sample.late; Sample.at_cutoff; Sample.early; Sample.blank;
                     Sample.late]))
              Sample.world0) as (T & F & _).
  - reflexivity.
  - split; [rewrite F; reflexivity|rewrite T; reflexivity].
Defined.



(** ** Temporary files *)

Lemma escaped_files_app (a b : list event) :
  escaped_files (a ++ b) = (escaped_files a ++ escaped_files b)%list.
Proof.
  induction a as [|ev a IH]; [reflexivity|].
  destruct ev as [| | |file bucket key [[m|m|m|]|]| | |]; simpl; rewrite IH; reflexivity.
Qed.

Lemma run_temp_files (parse_datetime : Parser) (env : Env)
      (cfg : Config) (s3 : S3Client) (reader : list read_item) (pn : nat)
      (w : World) (out : result bool * World) :
  loop_run parse_datetime env cfg s3 reader pn w out ->
  exists tr,
    trace (snd out) = (trace w ++ tr)%list
    /\ temp_files [] tr = escaped_files tr
    /\ List.length (escaped_files tr) <= 1
    /\ (forall b, fst out = Ok b -> escaped_files tr = []).
Proof.
  induction 1 as [pn w|e rest pn w|chunk rest pn w Hj|chunk rest pn w j e Hj Hf
                 |chunk rest pn w j df out Hj Hf E _ IH
                 |chunk rest pn w j df out Hj Hf E U _ IH
                 |chunk rest pn w j df m Hj Hf E U
                 |chunk rest pn w j df e Hj Hf E U NC];
    cbn [snd fst].
  - exists []. rewrite app_nil_r. simpl. auto.
  - eexists. split; [reflexivity|]. simpl. split; [reflexivity|].
    split; [lia|discriminate].
  - eexists. split; [reflexivity|]. simpl. split; [reflexivity|].
    split; [lia|discriminate].
  - eexists. split; [reflexivity|]. simpl. split; [reflexivity|].
    split; [lia|discriminate].
  - destruct IH as (tr & T & F & L & K). cbn [trace logged] in T.
    exists (EvRead (len chunk) :: tr). rewrite T, <- app_assoc.
    split; [reflexivity|]. simpl. auto.
  - destruct IH as (tr & T & F & L & K). rewrite trace_turn_delivered in T.
    cbn [trace logged] in T. rewrite <- !app_assoc in T.
    eexists. split; [exact T|]. simpl. rewrite String.eqb_refl. simpl. auto.
  - rewrite trace_turn_refused. cbn [trace logged]. rewrite <- !app_assoc.
    eexists. split; [reflexivity|]. simpl. rewrite String.eqb_refl. simpl.
    split; [reflexivity|]. split; [lia|reflexivity].
  - rewrite trace_attempted. cbn [trace logged]. rewrite <- !app_assoc.
    eexists. split; [reflexivity|].
    destruct e as [m|m|m|]; [destruct (NC m); reflexivity| | |];
      simpl; (split; [reflexivity|]); (split; [lia|discriminate]).
Qed.

(** X4.  Partition files left on disk.  Of the files the function writes
    with [to_csv], the ones still there when it ends are the files of the
    uploads that raised something other than a [ClientError]: at most one,
    and none when the function gives back a result from inside the loop
    (the [ClientError] clause removes the file, the outer clause does not). *)
Theorem temp_file_stays_when_upload_raises_other
        (parse_datetime : Parser) (env : Env)
        (cfg : Config) (s3 : S3Client) (reader : list read_item) (w : World) :
  let out := process_reader parse_datetime env cfg s3 reader w in
  let tr := events_since w (snd out) in
  temp_files [] tr = escaped_files tr
  /\ List.length (escaped_files tr) <= 1
  /\ (forall file bucket key m,
        In (EvUpload file bucket key (Some (ClientError m))) tr ->
        temp_files [] tr = [])
  /\ (forall file bucket key e,
        In (EvUpload file bucket key (Some e)) tr ->
        (forall m, e <> ClientError m) ->
        temp_files [] tr = [file] /\ fst out <> Ok true).
Proof.
  cbv zeta.
  destruct (process_ends parse_datetime env cfg s3 reader w) as (r1 & w1 & F & L & T & P).
  pose proof (for_chunks_run parse_datetime env cfg s3 reader 1 w) as R.
  destruct (run_temp_files _ _ _ _ _ _ _ _ R) as (tr & Tr & TF & Len & K).
  rewrite F in Tr, K. cbn [fst snd] in Tr, K.
  unfold events_since. rewrite T, Tr, skipn_length_app.
  split; [exact TF|]. split; [exact Len|].
  assert (Tw : trace w1 = (trace w ++ tr)%list) by exact Tr.
  inversion L as [q w' Q Te Er Ti|q e0 w' Q Te Er Ti|q e0 w' Q Te Er Ti
                 |q i df m0 w' Q Te Er Ti|q i df e0 w' Q NC Te Er Ti]; subst;
    rewrite Te in Tw; apply app_inv_head in Tw; subst tr.
  - split; intros file bucket key x HIn;
      exfalso; exact (quiet_no_failed_upload _ _ _ _ _ Q HIn).
  - split; intros file bucket key x HIn; exfalso;
      apply in_app_or in HIn; destruct HIn as [H|[H|[]]];
      try discriminate; exact (quiet_no_failed_upload _ _ _ _ _ Q H).
  - split; intros file bucket key x HIn;
      exfalso; exact (quiet_no_failed_upload _ _ _ _ _ Q HIn).
  - split.
    + intros _ _ _ _ _. rewrite TF. apply (K false). reflexivity.
    + intros file bucket key x HIn NC. exfalso.
      apply in_app_or in HIn. destruct HIn as [H|[H|[H|[H|[]]]]]; try discriminate.
      * exact (quiet_no_failed_upload _ _ _ _ _ Q H).
      * injection H as _ _ _ Hx. exact (NC m0 (eq_sym Hx)).
  - split.
    + intros file bucket key m HIn. exfalso.
      apply in_app_or in HIn. destruct HIn as [H|[H|[H|[]]]]; try discriminate.
      * exact (quiet_no_failed_upload _ _ _ _ _ Q H).
      * injection H as _ _ _ Hx. exact (NC m Hx).
    + intros file bucket key x HIn NCx.
      apply in_app_or in HIn. destruct HIn as [H|[H|[H|[]]]]; try discriminate.
      * exfalso. exact (quiet_no_failed_upload _ _ _ _ _ Q H).
      * injection H as Hf _ _ Hx. subst file x. split.
        -- rewrite TF, escaped_files_app.
           assert (Eq : escaped_files q = []).
           { clear - Q. induction Q as [|ev q [Hf _] _ IH]; [reflexivity|].
             destruct ev as [| | |file bucket key [e|]| | |]; simpl; auto.
             discriminate. }
           rewrite Eq. destruct e0 as [m|m|m|]; [destruct (NC m); reflexivity| | |];
             reflexivity.
        -- destruct (isinstance_Exception e0); rewrite P; discriminate.
Qed.

Lemma temp_file_stays_when_upload_raises_other_witness :
  let f := mkCsv Sample.hdr [Sample.late; Sample.at_cutoff] in
  let s3 := Sample.s3_refusing "final-raw/part_0002.csv"
              (OtherException "Failed to upload part_0002.csv") in
  let out := process_reader Inferred.parse (Sample.env_of s3 f)
               (Sample.with_chunk_rows 1) s3 (read_csv 1 f) Sample.world0 in
  temp_files [] (events_since Sample.world0 (snd out)) = ["part_0002.csv"]
  /\ fst out <> Ok true.
Proof.
  cbv zeta.
  apply (proj2 (proj2 (proj2
           (temp_file_stays_when_upload_raises_other Inferred.parse
              (Sample.env_of
                 (Sample.s3_refusing "final-raw/part_0002.csv"
                    (OtherException "Failed to upload part_0002.csv"))
                 (mkCsv Sample.hdr [Sample.late; Sample.at_cutoff]))
              (Sample.with_chunk_rows 1)
              (Sample.s3_refusing "final-raw/part_0002.csv"
                 (OtherException "Failed to upload part_0002.csv"))
              (read_csv 1 (mkCsv Sample.hdr [Sample.late; Sample.at_cutoff]))
              Sample.world0)))
         "part_0002.csv" "bronze-03" "final-raw/part_0002.csv"
         (OtherException "Failed to upload part_0002.csv")).
  - vm_compute. do 6 right. left. reflexivity.
  - intros m. discriminate.
Defined.

(** ** What the function gives back *)

(** The ways the function can end, with what each leaves in the error
    list and on the clock. *)
Lemma process_result_cases
        (parse_datetime : Parser) (env : Env)
        (cfg : Config) (s3 : S3Client) (reader : list read_item) (w : World) :
  let out := process_reader parse_datetime env cfg s3 reader w in
  match fst out with
  | Ok true =>
      errors (summary (snd out)) = errors (summary w)
      /\ ticks (snd out) = ticks w
  | Ok false =>
      (exists msg,
         errors (summary (snd out)) =
         (errors (summary w)
          ++ [{| timestamp := clock env (ticks w); error := msg |}])%list)
      /\ ticks (snd out) = S (ticks w)
  | Raised e =>
      e = KeyboardInterrupt
      /\ errors (summary (snd out)) = errors (summary w)
      /\ ticks (snd out) = ticks w
  | Exit _ => False
  end.
Proof.
  cbv zeta.
  destruct (process_ends parse_datetime env cfg s3 reader w) as (r1 & w1 & F & L & T & P).
  inversion L as [q w' Q Te Er Ti|q e0 w' Q Te Er Ti|q e0 w' Q Te Er Ti
                 |q i df m0 w' Q Te Er Ti|q i df e0 w' Q NC Te Er Ti]; subst.
  - rewrite P. cbn [fst snd]. auto.
  - destruct e0 as [m|m|m|]; cbn [isinstance_Exception] in P; rewrite P;
      cbn [fst snd processing_failed with_summary ticked summary ticks errors s_add_error];
      rewrite ?Er, ?Ti; eauto.
  - destruct e0 as [m|m|m|]; cbn [isinstance_Exception] in P; rewrite P;
      cbn [fst snd processing_failed with_summary ticked summary ticks errors s_add_error];
      rewrite ?Er, ?Ti; eauto.
  - rewrite P. cbn [fst snd]. rewrite Er, Ti. eauto.
  - destruct e0 as [m|m|m|]; cbn [isinstance_Exception] in P; rewrite P;
      cbn [fst snd processing_failed with_summary ticked summary ticks errors s_add_error];
      rewrite ?Er, ?Ti; eauto.
Qed.

(** Every answer of [upload_file] in the trace is the client's answer to
    the call the event records. *)
Lemma run_upload_answers (parse_datetime : Parser) (env : Env)
      (cfg : Config) (s3 : S3Client) (reader : list read_item) (pn : nat)
      (w : World) (out : result bool * World) :
  loop_run parse_datetime env cfg s3 reader pn w out ->
  exists tr,
    trace (snd out) = (trace w ++ tr)%list
    /\ forall f b k r, In (EvUpload f b k r) tr -> upload_file s3 f b k = r.
Proof.
  induction 1 as [pn w|e rest pn w|chunk rest pn w Hj|chunk rest pn w j e Hj Hf
                 |chunk rest pn w j df out Hj Hf E _ IH
                 |chunk rest pn w j df out Hj Hf E U _ IH
                 |chunk rest pn w j df m Hj Hf E U
                 |chunk rest pn w j df e Hj Hf E U NC];
    cbn [snd fst].
  - exists []. rewrite app_nil_r. split; [reflexivity|]. intros f b k r [].
  - eexists. split; [reflexivity|]. intros f b k r [H|[]]. discriminate.
  - eexists. split; [reflexivity|]. intros f b k r [H|[]]. discriminate.
  - eexists. split; [reflexivity|]. intros f b k r [H|[]]. discriminate.
  - destruct IH as (tr & T & A). cbn [trace logged] in T.
    exists (EvRead (len chunk) :: tr). rewrite T, <- app_assoc.
    split; [reflexivity|]. intros f b k r [H|H]; [discriminate|eauto].
  - destruct IH as (tr & T & A). rewrite trace_turn_delivered in T.
    cbn [trace logged] in T. rewrite <- !app_assoc in T.
    eexists. split; [exact T|].
    intros f b k r [H|[H|[H|[H|H]]]]; try discriminate; [|eauto].
    injection H as <- <- <- <-. exact U.
  - rewrite trace_turn_refused. cbn [trace logged]. rewrite <- !app_assoc.
    eexists. split; [reflexivity|].
    intros f b k r [H|[H|[H|[H|[]]]]]; try discriminate.
    injection H as <- <- <- <-. exact U.
  - rewrite trace_attempted. cbn [trace logged]. rewrite <- !app_assoc.
    eexists. split; [reflexivity|].
    intros f b k r [H|[H|[H|[]]]]; try discriminate.
    injection H as <- <- <- <-. exact U.
Qed.

(** X6.  The entry a failed upload leaves.  When [upload_file] raises a
    subclass of [Exception] for a file, the function returns [False] and the
    one entry it adds reads [Upload failed for <file>: <text>] for a
    [ClientError] and [Processing failed: <text>] for anything else; the
    file is the partition file of the key that was refused. *)
Theorem failed_upload_is_recorded_by_class
        (parse_datetime : Parser) (env : Env)
        (cfg : Config) (s3 : S3Client) (reader : list read_item) (w : World)
        (file bucket key : string) (e : exn) :
  let out := process_reader parse_datetime env cfg s3 reader w in
  In (EvUpload file bucket key (Some e)) (events_since w (snd out)) ->
  isinstance_Exception e = true ->
  fst out = Ok false
  /\ errors (summary (snd out)) =
     (errors (summary w)
      ++ [{| timestamp := clock env (ticks w);
             error := upload_error_text file e |}])%list
  /\ upload_file s3 file bucket key = Some e
  /\ exists i, file = temp_file_name i /\ key = s3_key_of cfg i
               /\ bucket = S3_BUCKET cfg.
Proof.
  cbv zeta. intros HIn HEx.
  destruct (process_ends parse_datetime env cfg s3 reader w) as (r1 & w1 & F & L & T & P).
  unfold events_since in HIn. rewrite T in HIn.
  assert (Up : upload_file s3 file bucket key = Some e).
  { pose proof (for_chunks_run parse_datetime env cfg s3 reader 1 w) as R.
    destruct (run_upload_answers _ _ _ _ _ _ _ _ R) as (tr & Tr & A).
    rewrite F in Tr. cbn [snd] in Tr. rewrite Tr, skipn_length_app in HIn.
    exact (A _ _ _ _ HIn). }
  inversion L as [q w' Q Te Er Ti|q e0 w' Q Te Er Ti|q e0 w' Q Te Er Ti
                 |q i df m0 w' Q Te Er Ti|q i df e0 w' Q NC Te Er Ti]; subst;
    rewrite Te, skipn_length_app in HIn.
  - exfalso. exact (quiet_no_failed_upload _ _ _ _ _ Q HIn).
  - exfalso. apply in_app_or in HIn. destruct HIn as [H|[H|[]]].
    + exact (quiet_no_failed_upload _ _ _ _ _ Q H).
    + discriminate.
  - exfalso. exact (quiet_no_failed_upload _ _ _ _ _ Q HIn).
  - apply in_app_or in HIn. destruct HIn as [H|[H|[H|[H|[]]]]]; try discriminate.
    + exfalso. exact (quiet_no_failed_upload _ _ _ _ _ Q H).
    + injection H as Hf Hb Hk He. subst file bucket key e.
      rewrite P. cbn [fst snd upload_error_text].
      split; [reflexivity|]. split; [exact Er|]. split; [exact Up|].
      exists i. auto.
  - apply in_app_or in HIn. destruct HIn as [H|[H|[H|[]]]]; try discriminate.
    + exfalso. exact (quiet_no_failed_upload _ _ _ _ _ Q H).
    + injection H as Hf Hb Hk He. subst file bucket key e.
      rewrite HEx in P. rewrite P.
      cbn [fst snd processing_failed with_summary ticked summary ticks errors s_add_error].
      split; [reflexivity|]. rewrite Er, Ti.
      split; [|split; [exact Up|exists i; auto]].
      destruct e0 as [m|m|m|]; [destruct (NC m); reflexivity| | |]; reflexivity.
Qed.

Lemma failed_upload_is_recorded_by_class_witness :
  let f := mkCsv Sample.hdr [Sample.late; Sample.at_cutoff] in
  let s3 := Sample.s3_refusing "final-raw/part_0002.csv"
              (OtherException "Failed to upload part_0002.csv") in
  let out := process_reader Inferred.parse (Sample.env_of s3 f)
               (Sample.with_chunk_rows 1) s3 (read_csv 1 f) Sample.world0 in
  fst out = Ok false
  /\ errors (summary (snd out)) =
     [{| timestamp := 1000000%Z;
         error := "Processing failed: Failed to upload part_0002.csv" |}].
Proof.
  cbv zeta.
  destruct (failed_upload_is_recorded_by_class Inferred.parse
              (Sample.env_of
                 (Sample.s3_refusing "final-raw/part_0002.csv"
                    (OtherException "Failed to upload part_0002.csv"))
                 (mkCsv Sample.hdr [Sample.late; Sample.at_cutoff]))
              (Sample.with_chunk_rows 1)
              (Sample.s3_refusing "final-raw/part_0002.csv"
                 (OtherException "Failed to upload part_0002.csv"))
              (read_csv 1 (mkCsv Sample.hdr [Sample.late; Sample.at_cutoff]))
              Sample.world0
              "part_0002.csv" "bronze-03" "final-raw/part_0002.csv"
              (OtherException "Failed to upload part_0002.csv")) as (R & E & _).
  - vm_compute. do 6 right. left. reflexivity.
  - reflexivity.
  - split; [exact R|]. rewrite E. reflexivity.
Defined.

(** ** A frame without the timestamp column *)

(** X7.  A missing column is a failed run, not an empty one.  When the
    first frame the reader gives has no [video_published_at] column, the
    subscript of line 249 raises [KeyError]: the function returns [False]
    with the entry [Processing failed: 'video_published_at'], having read
    that one frame, with no file written, no upload made and no row
    counted, whatever the rest of the reader holds. *)
Theorem missing_column_fails_the_run
        (parse_datetime : Parser) (env : Env)
        (cfg : Config) (s3 : S3Client) (df : DataFrame) (rest : list read_item)
        (w : World) :
  index_of video_published_at (columns df) = None ->
  let out := process_reader parse_datetime env cfg s3 (Chunk df :: rest) w in
  fst out = Ok false
  /\ errors (summary (snd out)) =
     (errors (summary w)
      ++ [{| timestamp := clock env (ticks w);
             error := "Processing failed: 'video_published_at'" |}])%list
  /\ events_since w (snd out) = [EvRead (len df)]
  /\ total_rows (summary (snd out)) = total_rows (summary w)
  /\ files_uploaded (summary (snd out)) = files_uploaded (summary w).
Proof.
  intros Hj. cbv zeta.
  rewrite process_reader_unfold, for_chunks_chunk.
  rewrite (loop_body_no_column _ _ _ _ _ _ _ Hj).
  cbn [isinstance_Exception fst snd].
  unfold processing_failed, events_since.
  cbn [with_summary ticked logged summary ticks errors trace s_add_error
       total_rows files_uploaded str_exn].
  rewrite skipn_length_app. auto.
Qed.

Lemma missing_column_fails_the_run_witness :
  let df := {| columns := ["video_id"; "published"]; rows := [] |} in
  let out := process_reader Inferred.parse
               (Sample.env_of Sample.s3_ok (mkCsv Sample.hdr []))
               Sample.config Sample.s3_ok [Chunk df] Sample.world0 in
  fst out = Ok false
  /\ events_since Sample.world0 (snd out) = [EvRead 0].
Proof.
  cbv zeta.
  destruct (missing_column_fails_the_run Inferred.parse
              (Sample.env_of Sample.s3_ok (mkCsv Sample.hdr []))
              Sample.config Sample.s3_ok
              {| columns := ["video_id"; "published"]; rows := [] |} []
              Sample.world0) as (R & _ & E & _).
  - reflexivity.
  - split; [exact R|exact E].
Defined.

(** ** The stages of [main], one by one *)

Section StageFacts.

Variable parse_datetime : Parser.
Variable env : Env.
Variable cfg : Config.

Hypothesis save_works : save_outcome env (SUMMARY_FILE cfg) = None.

Lemma early_body_exit (w : World) :
  early_body env cfg w = (Exit 1%Z, summary_saved cfg (completed env false w)).
Proof.
  unfold early_body, complete, save, utcnow, modify_summary, get_summary, log,
    or_raise, bind, sys_exit, ret.
  cbn. rewrite save_works. reflexivity.
Qed.


Lemma closing_body_exit (b : bool) (w : World) :
  cleanup_outcome env (cleanups w) = None ->
  closing_body env cfg b w =
  (Exit (if b then 0 else 1)%Z, summary_saved cfg (completed env b (cleaned w))).
Proof.
  intros C.
  unfold closing_body, complete, cleanup_files, save, utcnow,
    modify_summary, get_summary, log, or_raise, bind, sys_exit, ret.
  cbn. rewrite C. cbn. rewrite save_works. destruct b; reflexivity.
Qed.

Lemma run_of_early (w : World) :
  main_try parse_datetime env cfg (fresh_world env) = early_body env cfg w ->
  run_main parse_datetime env cfg =
  (Exit 1%Z, summary_saved cfg (completed env false w)).
Proof.
  intros E. rewrite main_eq. unfold with_handlers. rewrite E, early_body_exit.
  reflexivity.
Qed.


Lemma run_of_closing (b : bool) (w : World) :
  main_try parse_datetime env cfg (fresh_world env) = closing_body env cfg b w ->
  cleanup_outcome env (cleanups w) = None ->
  run_main parse_datetime env cfg =
  (Exit (if b then 0 else 1)%Z, summary_saved cfg (completed env b (cleaned w))).
Proof.
  intros E C. rewrite main_eq. unfold with_handlers.
  rewrite E, (closing_body_exit b w C). destruct b; reflexivity.
Qed.

End StageFacts.

Section TryFacts.

Variable parse_datetime : Parser.
Variable env : Env.
Variable cfg : Config.

Abbreviation try_block := (main_try parse_datetime env cfg (fresh_world env)).

Ltac open_try :=
  unfold main_try, initialize_s3_client, verify_s3_access,
    download_kaggle_dataset, extract_csv_from_zip, try_except, bind.

Lemma try_config_missing :
  validate cfg = false -> try_block = early_body env cfg (fresh_world env).
Proof. intros V. open_try. rewrite V. reflexivity. Qed.

Lemma try_client_raises (e : exn) :
  validate cfg = true -> boto3_client env = inl e ->
  try_block = (Raised e, fresh_world env).
Proof. intros V B. open_try. rewrite V, B. reflexivity. Qed.

Lemma try_bucket_answers (s3 : S3Client) (e : exn) :
  validate cfg = true -> boto3_client env = inr s3 ->
  head_bucket s3 (S3_BUCKET cfg) = Some e ->
  try_block =
  match e with
  | ClientError _ =>
      early_body env cfg (error_added env "S3 bucket not accessible" (fresh_world env))
  | _ => (Raised e, fresh_world env)
  end.
Proof.
  intros V B H. open_try. rewrite V, B. cbn. rewrite H.
  destruct e; reflexivity.
Qed.

Lemma try_download_fails (s3 : S3Client) (e : exn) :
  validate cfg = true -> boto3_client env = inr s3 ->
  head_bucket s3 (S3_BUCKET cfg) = None ->
  download env = DownloadFails e ->
  try_block =
  match e with
  | RequestException m =>
      closing_body env cfg false
        (error_added env ("Download failed: " ++ m) (fresh_world env))
  | _ => (Raised e, fresh_world env)
  end.
Proof.
  intros V B H D. open_try. rewrite V, B. cbn. rewrite H. cbn. rewrite D.
  destruct e; reflexivity.
Qed.

Lemma try_extract_fails (s3 : S3Client) (bytes : Z) :
  validate cfg = true -> boto3_client env = inr s3 ->
  head_bucket s3 (S3_BUCKET cfg) = None ->
  download env = Downloaded bytes ->
  extract env <> Extracted ->
  try_block =
  match extract_error_text (extract env) with
  | Some msg =>
      closing_body env cfg false (error_added env msg (downloaded_world env bytes))
  | None => (Raised KeyboardInterrupt, downloaded_world env bytes)
  end.
Proof.
  intros V B H D X. open_try. rewrite V, B. cbn. rewrite H. cbn. rewrite D.
  unfold downloaded_world.
  destruct (extract env) as [| |[m|m|m|]]; [contradiction| | | | |]; reflexivity.
Qed.

Lemma try_processes (s3 : S3Client) (bytes : Z) :
  validate cfg = true -> boto3_client env = inr s3 ->
  head_bucket s3 (S3_BUCKET cfg) = None ->
  download env = Downloaded bytes ->
  extract env = Extracted ->
  try_block =
  match process_and_upload_data parse_datetime env cfg s3 (downloaded_world env bytes) with
  | (Ok b, wp) => closing_body env cfg b wp
  | (Raised e, wp) => (Raised e, wp)
  | (Exit c, wp) => (Exit c, wp)
  end.
Proof.
  intros V B H D X. open_try. rewrite V, B. cbn. rewrite H. cbn. rewrite D, X.
  unfold downloaded_world. cbn.
  destruct (process_and_upload_data parse_datetime env cfg s3 _) as [[[|]|e|c] wp];
    reflexivity.
Qed.

End TryFacts.

(** What [process_and_upload_data] does not touch. *)
Lemma process_frame (parse_datetime : Parser) (env : Env)
      (cfg : Config) (s3 : S3Client) (reader : list read_item) (w : World) :
  let out := process_reader parse_datetime env cfg s3 reader w in
  download_size_mb (summary (snd out)) = download_size_mb (summary w)
  /\ cleanups (snd out) = cleanups w
  /\ saved (trace (snd out)) = saved (trace w).
Proof.
  cbv zeta.
  pose proof (for_chunks_run parse_datetime env cfg s3 reader 1 w) as R.
  destruct (run_frame _ _ _ _ _ _ _ _ R) as (_ & _ & _ & D & C).
  pose proof (run_saved _ _ _ _ _ _ _ _ R) as S.
  destruct (process_reader_same parse_datetime env cfg s3 reader w)
    as (T & _ & _ & _ & _ & _ & D' & C').
  rewrite D', C', T. auto.
Qed.

Lemma ends_failed_not_zero (env : Env) (cfg : Config) (w : World)
      (out : result unit * World) :
  ends_run env cfg true w out -> fst out <> Exit 0%Z.
Proof.
  intros (St & _ & _ & _ & _ & _ & Z0 & _) E.
  destruct St as [St|[St _]]; [|discriminate].
  destruct (Z0 _ E) as [Z1 _]. rewrite (Z1 eq_refl) in St. discriminate.
Qed.

(** ** Runs that stop early *)

(** X8.  A missing Kaggle variable stops the run before any stage.  When
    [KAGGLE_USERNAME] or [KAGGLE_KEY] is unset or empty, whatever the AWS
    variables are, and the summary can be written, the script exits with
    code 1 having done nothing but finalize and write the summary: status
    [failed], an empty error list (the missing names are only printed), no
    [cleanup_files] call, whatever the later stages would have answered. *)
Theorem missing_kaggle_variable_stops_the_run
        (parse_datetime : Parser) (env : Env) (cfg : Config) :
  truthy (KAGGLE_USERNAME cfg) = false \/ truthy (KAGGLE_KEY cfg) = false ->
  save_outcome env (SUMMARY_FILE cfg) = None ->
  let out := run_main parse_datetime env cfg in
  out = (Exit 1%Z, summary_saved cfg (completed env false (fresh_world env)))
  /\ status (summary (snd out)) = "failed"
  /\ errors (summary (snd out)) = []
  /\ trace (snd out) =
     [EvSave (SUMMARY_FILE cfg) (to_dict cfg (summary (snd out))) None]
  /\ cleanups (snd out) = 0.
Proof.
  intros K S. cbv zeta.
  assert (V : validate cfg = false).
  { unfold validate. cbn [filter snd].
    destruct K as [K|K]; rewrite K; cbn [negb];
      [reflexivity|destruct (truthy (KAGGLE_USERNAME cfg)); reflexivity]. }
  rewrite (run_of_early parse_datetime env cfg S _
             (try_config_missing parse_datetime env cfg V)).
  repeat split.
Qed.

Lemma missing_kaggle_variable_stops_the_run_witness :
  let cfg := {| KAGGLE_USERNAME := Some "user"; KAGGLE_KEY := Some EmptyString;
                AWS_ACCESS_KEY := Some "id"; AWS_SECRET_KEY := Some "secret";
                AWS_REGION := "us-east-1";
                S3_BUCKET := "bronze-03"; S3_PREFIX := "final-raw/";
                CHUNK_ROWS := 100000;
                ZIP_PATH := "youtube.zip"; EXTRACTED_CSV := "youtube.csv";
                SUMMARY_FILE := "ingestion_summary.json" |} in
  let out := run_main Inferred.parse
               (Sample.env_of Sample.s3_ok (mkCsv Sample.hdr [Sample.late])) cfg in
  fst out = Exit 1%Z /\ errors (summary (snd out)) = [].
Proof.
  cbv zeta.
  destruct (missing_kaggle_variable_stops_the_run Inferred.parse
              (Sample.env_of Sample.s3_ok (mkCsv Sample.hdr [Sample.late]))
              {| KAGGLE_USERNAME := Some "user"; KAGGLE_KEY := Some EmptyString;
                 AWS_ACCESS_KEY := Some "id"; AWS_SECRET_KEY := Some "secret";
                 AWS_REGION := "us-east-1";
                 S3_BUCKET := "bronze-03"; S3_PREFIX := "final-raw/";
                 CHUNK_ROWS := 100000;
                 ZIP_PATH := "youtube.zip"; EXTRACTED_CSV := "youtube.csv";
                 SUMMARY_FILE := "ingestion_summary.json" |})
    as (R & _ & E & _).
  - right. reflexivity.
  - reflexivity.
  - split; [rewrite R; reflexivity|exact E].
Defined.









(** ** What exit code 0 certifies *)

Section ExitFacts.

Variable parse_datetime : Parser.
Variable env : Env.
Variable cfg : Config.

Lemma not_zero_of_early (w : World) :
  main_try parse_datetime env cfg (fresh_world env) = early_body env cfg w ->
  fst (run_main parse_datetime env cfg) <> Exit 0%Z.
Proof.
  intros E. rewrite main_eq. unfold with_handlers. rewrite E.
  pose proof (early_body_ends env cfg w) as EB. unfold with_handlers in EB.
  exact (ends_failed_not_zero _ _ _ _ EB).
Qed.

Lemma not_zero_of_raised (e : exn) (w : World) :
  main_try parse_datetime env cfg (fresh_world env) = (Raised e, w) ->
  fst (run_main parse_datetime env cfg) <> Exit 0%Z.
Proof.
  intros E. rewrite main_eq. unfold with_handlers. rewrite E.
  exact (ends_failed_not_zero _ _ _ _ (handler_body_ends env cfg _ w)).
Qed.

Lemma not_zero_of_closing_false (w : World) :
  main_try parse_datetime env cfg (fresh_world env) = closing_body env cfg false w ->
  fst (run_main parse_datetime env cfg) <> Exit 0%Z.
Proof.
  intros E. rewrite main_eq. unfold with_handlers. rewrite E.
  pose proof (closing_body_ends env cfg false w) as CB. unfold with_handlers in CB.
  exact (ends_failed_not_zero _ _ _ _ CB).
Qed.

Lemma closing_raises_or_exits (b : bool) (w : World) :
  (exists e w', closing_body env cfg b w = (Raised e, w'))
  \/ (cleanup_outcome env (cleanups w) = None
      /\ save_outcome env (SUMMARY_FILE cfg) = None).
Proof.
  unfold closing_body, complete, cleanup_files, save, utcnow,
    modify_summary, get_summary, log, or_raise, bind, sys_exit, ret, raise.
  cbn.
  destruct (cleanup_outcome env (cleanups w)) as [e|]; cbn; [left; eauto|].
  destruct (save_outcome env (SUMMARY_FILE cfg)) as [e|]; cbn; [left; eauto|].
  right. auto.
Qed.

End ExitFacts.

(** A frame that lines 249-252 filter has the timestamp column. *)
Lemma filters_has_column (parse_datetime : Parser) (reader : list read_item) :
  forallb (filters parse_datetime) reader = true ->
  forallb has_column reader = true.
Proof.
  induction reader as [|[df|e] reader IH]; cbn [forallb filters has_column];
    [reflexivity| |discriminate].
  unfold filter_frame.
  destruct (index_of video_published_at (columns df)); [|discriminate].
  intros H. apply andb_prop in H. destruct H as [_ H]. exact (IH H).
Qed.

(** X13.  What exit code 0 certifies.  The script exits with code 0 only
    when every stage went through: the configuration validated, the bucket
    answered, the download and the extraction finished, every frame had the
    timestamp column, lines 249-252 raised on no frame and every upload was
    stored, and [cleanup_files] and the write of the summary did not raise.
    The summary written then has status [success], no error entry, the
    number of rows of the filtered batches of the reader over the extracted
    file as its total, one URL per filtered batch that kept a row, and it
    is the only document written. *)
Theorem exit_code_zero_certifies_the_run
        (parse_datetime : Parser) (env : Env) (cfg : Config) :
  let out := run_main parse_datetime env cfg in
  let reader := open_reader env cfg in
  fst out = Exit 0%Z ->
  (exists s3 bytes,
      validate cfg = true
      /\ boto3_client env = inr s3
      /\ head_bucket s3 (S3_BUCKET cfg) = None
      /\ download env = Downloaded bytes
      /\ extract env = Extracted
      /\ download_size_mb (summary (snd out)) = PyFloat (Qmake bytes (1024 * 1024)))
  /\ cleanup_outcome env 0 = None
  /\ save_outcome env (SUMMARY_FILE cfg) = None
  /\ forallb has_column reader = true
  /\ forallb (filters parse_datetime) reader = true
  /\ status (summary (snd out)) = "success"
  /\ errors (summary (snd out)) = []
  /\ total_rows (summary (snd out)) =
     List.length (frames_rows (reader_batches parse_datetime reader))
  /\ files_uploaded (summary (snd out)) =
     map (s3_url_of cfg)
         (seq 1 (List.length (reader_batches parse_datetime reader)))
  /\ saved (trace (snd out)) = [to_dict cfg (summary (snd out))].
Proof.
  cbv zeta. intros E.
  destruct (validate cfg) eqn:V.
  2: { destruct (not_zero_of_early parse_datetime env cfg _
                   (try_config_missing parse_datetime env cfg V) E). }
  destruct (boto3_client env) as [e|s3] eqn:B.
  { destruct (not_zero_of_raised parse_datetime env cfg _ _
                (try_client_raises parse_datetime env cfg e V B) E). }
  destruct (head_bucket s3 (S3_BUCKET cfg)) as [e|] eqn:H.
  { pose proof (try_bucket_answers parse_datetime env cfg s3 e V B H) as T.
    destruct e as [m|m|m|];
      first [destruct (not_zero_of_early parse_datetime env cfg _ T E)
            |destruct (not_zero_of_raised parse_datetime env cfg _ _ T E)]. }
  destruct (download env) as [bytes|e] eqn:D.
  2: { pose proof (try_download_fails parse_datetime env cfg s3 e V B H D) as T.
       destruct e as [m|m|m|];
         first [destruct (not_zero_of_closing_false parse_datetime env cfg _ T E)
               |destruct (not_zero_of_raised parse_datetime env cfg _ _ T E)]. }
  destruct (extract env) as [| |e] eqn:X.
  2,3: assert (NX : extract env <> Extracted) by (rewrite X; discriminate);
       pose proof (try_extract_fails parse_datetime env cfg s3 bytes V B H D NX) as T;
       rewrite X in T; cbn [extract_error_text] in T;
       try destruct (isinstance_Exception e);
       first [destruct (not_zero_of_closing_false parse_datetime env cfg _ T E)
             |destruct (not_zero_of_raised parse_datetime env cfg _ _ T E)].
  pose proof (try_processes parse_datetime env cfg s3 bytes V B H D X) as T.
  unfold process_and_upload_data in T.
  pose proof (process_ok_summary parse_datetime env cfg s3 (open_reader env cfg)
                (downloaded_world env bytes)) as PS.
  pose proof (process_result_cases parse_datetime env cfg s3 (open_reader env cfg)
                (downloaded_world env bytes)) as PC.
  destruct (process_frame parse_datetime env cfg s3 (open_reader env cfg)
              (downloaded_world env bytes)) as (PD & PCl & PSv).
  cbv zeta in PS, PC.
  destruct (process_reader parse_datetime env cfg s3 (open_reader env cfg)
              (downloaded_world env bytes)) as [[[|]|e|c] wp];
    cbn [fst snd] in *.
  2: destruct (not_zero_of_closing_false parse_datetime env cfg _ T E).
  2: destruct (not_zero_of_raised parse_datetime env cfg _ _ T E).
  2: destruct PC.
  destruct (closing_raises_or_exits env cfg true wp) as [(e & w' & R)|[C S]].
  { rewrite R in T. destruct (not_zero_of_raised parse_datetime env cfg _ _ T E). }
  rewrite PCl in C. change (cleanups (downloaded_world env bytes)) with 0 in C, PCl.
  assert (C' : cleanup_outcome env (cleanups wp) = None) by (rewrite PCl; exact C).
  rewrite (run_of_closing parse_datetime env cfg S true wp T C').
  destruct (PS eq_refl) as (Tot & Fil & _ & Col).
  destruct PC as [Er _].
  cbn [snd summary_saved completed cleaned logged with_summary ticked summary trace
       s_complete status errors total_rows files_uploaded download_size_mb].
  split; [exists s3, bytes; repeat split; auto|].
  split; [exact C|]. split; [exact S|].
  split; [exact (filters_has_column _ _ Col)|]. split; [exact Col|].
  split; [reflexivity|]. split; [rewrite Er; reflexivity|].
  split; [rewrite Tot; reflexivity|]. split; [rewrite Fil; reflexivity|].
  rewrite !saved_app, PSv. reflexivity.
Qed.

Lemma exit_code_zero_certifies_the_run_witness :
  let f := mkCsv Sample.hdr [Sample.late; Sample.early; Sample.at_cutoff] in
  let out := run_main Inferred.parse (Sample.env_of Sample.s3_ok f) Sample.config in
  fst out = Exit 0%Z
  /\ status (summary (snd out)) = "success"
  /\ total_rows (summary (snd out)) = 2
  /\ files_uploaded (summary (snd out)) = ["s3://bronze-03/final-raw/part_0001.csv"].
Proof.
  cbv zeta.
  assert (E : fst (run_main Inferred.parse
                     (Sample.env_of Sample.s3_ok
                        (mkCsv Sample.hdr [Sample.late; Sample.early; Sample.at_cutoff]))
                     Sample.config) = Exit 0%Z) by (vm_compute; reflexivity).
  destruct (exit_code_zero_certifies_the_run Inferred.parse
              (Sample.env_of Sample.s3_ok
                 (mkCsv Sample.hdr [Sample.late; Sample.early; Sample.at_cutoff]))
              Sample.config E) as (_ & _ & _ & _ & _ & St & _ & T & F & _).
  split; [exact E|]. split; [exact St|].
  split; [rewrite T; reflexivity|rewrite F; reflexivity].
Defined.



(** ** Inside the download *)

Lemma write_chunks_spec (items : list Download.stream_item) (p : Download.progress) :
  let out := Download.write_chunks items p in
  Download.file (snd out) = (Download.file p ++ Download.payload items)%list
  /\ Download.downloaded (snd out) =
     (Download.downloaded p + Z.of_nat (List.length (Download.payload items)))%Z
  /\ (fst out = None <-> Download.unbroken items = true).
Proof.
  cbv zeta. revert p.
  induction items as [|[[|b chunk]|e] items IH]; intros p; simpl.
  - rewrite app_nil_r. repeat split; auto. lia.
  - apply IH.
  - destruct (IH {| Download.file := (Download.file p ++ b :: chunk)%list;
                    Download.downloaded :=
                      (Download.downloaded p
                       + Z.pos (Pos.of_succ_nat (List.length chunk)))%Z |})
      as (F & D & U).
    cbn [Download.file Download.downloaded] in F, D.
    split; [rewrite F, <- app_assoc; reflexivity|].
    split; [rewrite D, length_app; simpl; lia|exact U].
  - rewrite app_nil_r. repeat split; try discriminate. lia.
Qed.

(** X15.  The recorded size is the size of the file on disk.  When the
    download succeeds, the stream did not break, [ZIP_PATH] holds all the
    bytes of the stream in order (empty chunks add nothing), and the count
    that becomes [download_size_mb] is the length of that file, whatever
    the [content-length] header said.  When the stream breaks, the bytes
    written before the break stay in [ZIP_PATH]. *)
Theorem download_size_is_the_size_written
        (get : exn + Download.Response) (open_zip : option exn) :
  match Download.fetch get open_zip with
  | (Downloaded n, Some written) =>
      exists response,
        get = inr response
        /\ Download.unbroken (Download.iter_content response) = true
        /\ written = Download.payload (Download.iter_content response)
        /\ n = Z.of_nat (List.length written)
  | (Downloaded _, None) => False
  | (DownloadFails e, Some written) =>
      exists response,
        get = inr response
        /\ Download.unbroken (Download.iter_content response) = false
        /\ written = Download.payload (Download.iter_content response)
  | (DownloadFails e, None) =>
      get = inl e
      \/ exists response,
           get = inr response
           /\ (Download.raise_for_status response = Some e
               \/ Download.total_size response = inl e
               \/ open_zip = Some e)
  end.
Proof.
  unfold Download.fetch.
  destruct get as [e|response]; [left; reflexivity|].
  destruct (Download.raise_for_status response) as [e|] eqn:R; [right; eauto|].
  destruct (Download.total_size response) as [e|t] eqn:T; [right; eauto|].
  destruct open_zip as [e|]; [right; eauto 6|].
  destruct (write_chunks_spec (Download.iter_content response)
              {| Download.file := []; Download.downloaded := 0 |}) as (F & D & U).
  destruct (Download.write_chunks (Download.iter_content response)
              {| Download.file := []; Download.downloaded := 0 |}) as [[e|] p];
    cbn [fst snd Download.file Download.downloaded] in *.
  - exists response. split; [reflexivity|]. split; [|exact F].
    destruct (Download.unbroken (Download.iter_content response)); [|reflexivity].
    destruct U as [_ U]. discriminate (U eq_refl).
  - exists response. split; [reflexivity|]. split; [apply U; reflexivity|].
    split; [exact F|]. rewrite D, F. reflexivity.
Qed.

(** ** Inside the extraction *)

Lemma endswith_spec (s suffix : string) :
  Zip.endswith s suffix = true <-> exists stem, s = stem ++ suffix.
Proof.
  induction s as [|a s IH]; cbn [Zip.endswith].
  - destruct (String.eqb_spec EmptyString suffix) as [E|N].
    + split; [intros _; exists EmptyString; exact E|reflexivity].
    + split; [discriminate|]. intros [[|b stem] H]; simpl in H.
      * contradiction.
      * discriminate.
  - destruct (String.eqb_spec (String a s) suffix) as [E|N].
    + split; [intros _; exists EmptyString; exact E|reflexivity].
    + rewrite IH. split.
      * intros [stem ->]. exists (String a stem). reflexivity.
      * intros [[|b stem] H]; simpl in H; [contradiction|].
        injection H as _ ->. exists stem. reflexivity.
Qed.

(** X16.  The member extracted is the first one, in archive order, whose
    name ends in [.csv].  [extract_csv_from_zip] reports
    [No CSV file found in archive] exactly when no member name ends in
    [.csv]; otherwise lines 217-222 run on the first such name, whatever
    follows it in the archive, and their outcome is the outcome of the
    stage. *)
Theorem first_csv_member_is_extracted
        (namelist : list string) (extract_rename : string -> option exn) :
  (Zip.outcome (inr namelist) extract_rename = NoCsvInArchive
   <-> Forall (fun f => ~ exists stem, f = stem ++ ".csv") namelist)
  /\ (forall before csv_file after,
        namelist = (before ++ csv_file :: after)%list ->
        (exists stem, csv_file = stem ++ ".csv") ->
        Forall (fun f => ~ exists stem, f = stem ++ ".csv") before ->
        Zip.outcome (inr namelist) extract_rename =
        match extract_rename csv_file with
        | None => Extracted
        | Some e => ExtractFails e
        end).
Proof.
  assert (None_before : forall l,
             Forall (fun f => ~ exists stem, f = stem ++ ".csv") l ->
             Zip.csv_files l = []).
  { induction 1 as [|f l Hf _ IH]; [reflexivity|].
    unfold Zip.csv_files in *. cbn [filter].
    destruct (Zip.endswith f ".csv") eqn:E; [|exact IH].
    apply endswith_spec in E. contradiction. }
  split.
  - unfold Zip.outcome. split.
    + intros H. destruct (Zip.csv_files namelist) as [|f l] eqn:E.
      * apply Forall_forall. intros f Hf Hs.
        apply endswith_spec in Hs.
        assert (Hin : In f (Zip.csv_files namelist)).
        { unfold Zip.csv_files. apply filter_In. auto. }
        rewrite E in Hin. exact Hin.
      * destruct (extract_rename f); discriminate.
    + intros H. rewrite (None_before _ H). reflexivity.
  - intros before csv_file after -> Hs Hb.
    unfold Zip.outcome, Zip.csv_files. rewrite filter_app.
    fold (Zip.csv_files before). rewrite (None_before _ Hb).
    cbn [app filter]. apply endswith_spec in Hs. rewrite Hs. reflexivity.
Qed.

Lemma first_csv_member_is_extracted_witness :
  Zip.outcome (inr ["README.md"; "data/US.csv"; "youtube.csv"]) (fun _ => None)
  = Extracted
  /\ Zip.csv_files ["README.md"; "data/US.csv"; "youtube.csv"]
     = ["data/US.csv"; "youtube.csv"].
Proof.
  split; [|reflexivity].
  apply (proj2 (first_csv_member_is_extracted
                  ["README.md"; "data/US.csv"; "youtube.csv"] (fun _ => None))
               ["README.md"] "data/US.csv" ["youtube.csv"]).
  - reflexivity.
  - exists "data/US". reflexivity.
  - constructor; [|constructor]. intros H.
    apply (proj2 (endswith_spec "README.md" ".csv")) in H. discriminate.
Defined.

(** ** Inside the cleanup *)

Lemma remove_each_frame (paths : list string) (d : Files.FileSystem) (p : string) :
  ~ In p paths -> snd (Files.remove_each paths d) p = d p.
Proof.
  revert d. induction paths as [|q paths IH]; intros d N; [reflexivity|].
  cbn [Files.remove_each]. unfold Files.os_path_exists, Files.os_remove.
  assert (Nq : p <> q) by (intros ->; apply N; left; reflexivity).
  assert (Np : ~ In p paths) by (intros H; apply N; right; exact H).
  destruct (d q) as [[|]|] eqn:Dq; cbn [snd].
  - rewrite IH by exact Np. destruct (String.eqb_spec p q); [contradiction|reflexivity].
  - reflexivity.
  - apply IH. exact Np.
Qed.

(** A directory stays where it is, whatever the loop removes. *)
Lemma remove_each_keeps_directories (paths : list string) (d : Files.FileSystem)
      (p : string) :
  d p = Some Files.Directory ->
  snd (Files.remove_each paths d) p = Some Files.Directory.
Proof.
  revert d. induction paths as [|q paths IH]; intros d Dp; [exact Dp|].
  cbn [Files.remove_each]. unfold Files.os_path_exists, Files.os_remove.
  destruct (d q) as [[|]|] eqn:Dq; cbn [snd]; auto.
  apply IH. destruct (String.eqb_spec p q) as [->|_]; [congruence|exact Dp].
Qed.

Lemma remove_each_outcome (paths : list string) (d : Files.FileSystem) :
  fst (Files.remove_each paths d) = None
  <-> Forall (fun p => d p <> Some Files.Directory) paths.
Proof.
  revert d. induction paths as [|q paths IH]; intros d.
  - split; [constructor|reflexivity].
  - cbn [Files.remove_each]. unfold Files.os_path_exists, Files.os_remove.
    destruct (d q) as [[|]|] eqn:Dq; cbn [fst].
    + rewrite IH. split.
      * intros F. constructor; [congruence|].
        rewrite Forall_forall in *. intros p Hp Dp.
        apply (F p Hp). destruct (String.eqb_spec p q) as [->|_]; congruence.
      * intros F. inversion F as [|? ? _ F']; subst.
        rewrite Forall_forall in *. intros p Hp.
        destruct (String.eqb_spec p q); [discriminate|]. exact (F' p Hp).
    + split; [discriminate|]. intros F. inversion F; congruence.
    + rewrite IH. split.
      * intros F. constructor; [congruence|exact F].
      * intros F. inversion F; assumption.
Qed.

Lemma remove_each_removes (paths : list string) (d : Files.FileSystem) (p : string) :
  fst (Files.remove_each paths d) = None ->
  In p paths -> snd (Files.remove_each paths d) p = None.
Proof.
  revert d. induction paths as [|q paths IH]; intros d R [].
  - subst q. revert R. cbn [Files.remove_each].
    unfold Files.os_path_exists, Files.os_remove.
    destruct (d p) as [[|]|] eqn:Dp; cbn [fst snd]; intros R.
    + destruct (in_dec string_dec p paths) as [I|N]; [exact (IH _ R I)|].
      rewrite remove_each_frame by exact N. rewrite String.eqb_refl. reflexivity.
    + discriminate.
    + destruct (in_dec string_dec p paths) as [I|N]; [exact (IH _ R I)|].
      rewrite remove_each_frame by exact N. exact Dp.
  - revert R. cbn [Files.remove_each].
    unfold Files.os_path_exists, Files.os_remove.
    destruct (d q) as [[|]|] eqn:Dq; cbn [fst snd]; intros R;
      [apply IH; assumption|discriminate|apply IH; assumption].
Qed.

Lemma cleanup_keeps_raising (cfg : Config) (n : nat) :
  forall d : Files.FileSystem,
    d (ZIP_PATH cfg) = Some Files.Directory
    \/ d (EXTRACTED_CSV cfg) = Some Files.Directory ->
    Files.nth_cleanup cfg d n <> None.
Proof.
  assert (Raises : forall d : Files.FileSystem,
             d (ZIP_PATH cfg) = Some Files.Directory
             \/ d (EXTRACTED_CSV cfg) = Some Files.Directory ->
             fst (Files.cleanup_files cfg d) <> None).
  { intros d D R. apply remove_each_outcome in R.
    inversion R as [|? ? Z R']; subst. inversion R' as [|? ? C _]; subst.
    destruct D; contradiction. }
  induction n as [|n IH]; intros d D; cbn [Files.nth_cleanup].
  - exact (Raises d D).
  - apply IH. unfold Files.cleanup_files.
    destruct D as [D|D]; [left|right]; apply remove_each_keeps_directories; exact D.
Qed.

(** X17.  [cleanup_files] raises exactly on a directory, and then keeps
    raising.  The call goes through if and only if neither [ZIP_PATH] nor
    [EXTRACTED_CSV] names a directory; then neither path exists afterwards.
    In every case all other paths, the partition files among them, are left
    as they were.  When the call raises, every later call raises as well:
    the second [cleanup_files] call, in the handlers of [main], cannot
    succeed where the first one failed. *)
Theorem cleanup_raises_exactly_on_a_directory
        (cfg : Config) (d : Files.FileSystem) :
  let out := Files.cleanup_files cfg d in
  (fst out = None
   <-> d (ZIP_PATH cfg) <> Some Files.Directory
       /\ d (EXTRACTED_CSV cfg) <> Some Files.Directory)
  /\ (fst out = None ->
      snd out (ZIP_PATH cfg) = None /\ snd out (EXTRACTED_CSV cfg) = None)
  /\ (forall p, p <> ZIP_PATH cfg -> p <> EXTRACTED_CSV cfg -> snd out p = d p)
  /\ (fst out <> None -> forall n, Files.nth_cleanup cfg d n <> None).
Proof.
  cbv zeta. unfold Files.cleanup_files.
  pose proof (remove_each_outcome [ZIP_PATH cfg; EXTRACTED_CSV cfg] d) as O.
  assert (O' : fst (Files.remove_each [ZIP_PATH cfg; EXTRACTED_CSV cfg] d) = None
               <-> d (ZIP_PATH cfg) <> Some Files.Directory
                   /\ d (EXTRACTED_CSV cfg) <> Some Files.Directory).
  { rewrite O. split.
    - intros F. inversion F as [|? ? Z F']; subst.
      inversion F' as [|? ? C _]; subst. auto.
    - intros [Z C]. repeat constructor; assumption. }
  split; [exact O'|]. split; [|split].
  - intros R. split; apply remove_each_removes; simpl; auto.
  - intros p Nz Nc. apply remove_each_frame. intros [H|[H|[]]]; congruence.
  - intros R n. apply cleanup_keeps_raising.
    destruct (d (ZIP_PATH cfg)) as [[|]|] eqn:Z; auto;
      destruct (d (EXTRACTED_CSV cfg)) as [[|]|] eqn:C; auto;
      exfalso; apply R, O'; split; congruence.
Qed.

Lemma cleanup_raises_exactly_on_a_directory_witness :
  let d : Files.FileSystem :=
    fun p => if String.eqb p "youtube.csv" then Some Files.Directory
             else if String.eqb p "youtube.zip" then Some Files.File
             else if String.eqb p "part_0002.csv" then Some Files.File
             else None in
  Files.nth_cleanup Sample.config d 1 <> None
  /\ snd (Files.cleanup_files Sample.config d) "part_0002.csv" = Some Files.File.
Proof.
  cbv zeta.
  destruct (cleanup_raises_exactly_on_a_directory Sample.config
              (fun p => if String.eqb p "youtube.csv" then Some Files.Directory
                        else if String.eqb p "youtube.zip" then Some Files.File
                        else if String.eqb p "part_0002.csv" then Some Files.File
                        else None)) as (_ & _ & F & K).
  split.
  - apply K. discriminate.
  - rewrite F; [reflexivity|discriminate|discriminate].
Defined.

Lemma download_size_is_the_size_written_witness :
  let response :=
    {| Download.raise_for_status := None;
       Download.total_size := inr 0%Z;
       Download.iter_content :=
         [Download.Piece [Byte.x50; Byte.x4b]; Download.Piece [];
          Download.Piece [Byte.x03]] |} in
  exists r,
    @inr exn Download.Response response = inr r
    /\ Download.unbroken (Download.iter_content r) = true
    /\ [Byte.x50; Byte.x4b; Byte.x03] = Download.payload (Download.iter_content r)
    /\ 3%Z = Z.of_nat (List.length [Byte.x50; Byte.x4b; Byte.x03]).
Proof.
  cbv zeta.
  exact (download_size_is_the_size_written
           (inr {| Download.raise_for_status := None;
                   Download.total_size := inr 0%Z;
                   Download.iter_content :=
                     [Download.Piece [Byte.x50; Byte.x4b]; Download.Piece [];
                      Download.Piece [Byte.x03]] |})
           None).
Defined.

(** ** What the bucket receives *)

Lemma partition_objects_cons (cfg : Config) (first : nat) (df : DataFrame)
      (frames : list DataFrame) :
  partition_objects cfg first (df :: frames) =
  (S3_BUCKET cfg, s3_key_of cfg first, df) :: partition_objects cfg (first + 1) frames.
Proof.
  unfold partition_objects. cbn [List.length seq combine map fst snd].
  rewrite Nat.add_1_r. reflexivity.
Qed.

Lemma reader_batches_rows (parse_datetime : Parser)
      (reader : list read_item) :
  frames_rows (reader_batches parse_datetime reader) = reader_kept parse_datetime reader.
Proof.
  induction reader as [|[df|e] reader IH]; cbn [reader_batches reader_kept];
    [reflexivity| |exact IH].
  destruct (filter_frame parse_datetime df) as [e|kept]; [exact IH|].
  destruct (Nat.eqb_spec (len kept) 0) as [E|_].
  - rewrite (rows_nil_of_len _ E). exact IH.
  - unfold frames_rows in *. cbn [flat_map]. rewrite IH. reflexivity.
Qed.

Lemma run_stored (parse_datetime : Parser) (env : Env)
      (cfg : Config) (s3 : S3Client) (reader : list read_item) (pn : nat)
      (w : World) (out : result bool * World) :
  loop_run parse_datetime env cfg s3 reader pn w out ->
  exists tr n,
    trace (snd out) = (trace w ++ tr)%list
    /\ stored_objects [] tr =
       partition_objects cfg pn (firstn n (reader_batches parse_datetime reader))
    /\ n <= List.length (reader_batches parse_datetime reader)
    /\ (fst out = Ok true -> n = List.length (reader_batches parse_datetime reader)).
Proof.
  induction 1 as [pn w|e rest pn w|chunk rest pn w Hj|chunk rest pn w j e Hj Hf
                 |chunk rest pn w j df out Hj Hf E _ IH
                 |chunk rest pn w j df out Hj Hf E U _ IH
                 |chunk rest pn w j df m Hj Hf E U
                 |chunk rest pn w j df e Hj Hf E U NC];
    cbn [snd fst];
    rewrite ?(reader_batches_skip parse_datetime chunk rest j df Hj Hf E),
            ?(reader_batches_keep parse_datetime chunk rest j df Hj Hf E).
  - exists [], 0. rewrite app_nil_r. repeat split; auto.
  - exists [EvReadError e], 0. repeat split; auto; [lia|discriminate].
  - exists [EvRead (len chunk)], 0. repeat split; auto; [lia|discriminate].
  - exists [EvRead (len chunk)], 0. repeat split; auto; [lia|discriminate].
  - destruct IH as (tr & n & T & St & L & K). cbn [trace logged] in T.
    exists (EvRead (len chunk) :: tr), n. rewrite T, <- app_assoc.
    repeat split; auto.
  - destruct IH as (tr & n & T & St & L & K). rewrite trace_turn_delivered in T.
    cbn [trace logged] in T. rewrite <- !app_assoc in T.
    eexists. exists (S n). split; [exact T|].
    cbn [firstn List.length]. rewrite partition_objects_cons.
    split; [|split; [lia|intros Hok; rewrite (K Hok); reflexivity]].
    cbn [app stored_objects]. unfold disk_read, disk_write, disk_remove.
    cbn [filter find fst snd]. rewrite !String.eqb_refl.
    cbn [negb filter snd]. rewrite St. reflexivity.
  - rewrite trace_turn_refused. cbn [trace logged]. rewrite <- !app_assoc.
    eexists. exists 0. split; [reflexivity|].
    repeat split; auto; [lia|discriminate].
  - rewrite trace_attempted. cbn [trace logged]. rewrite <- !app_assoc.
    eexists. exists 0. split; [reflexivity|].
    repeat split; auto; [lia|discriminate].
Qed.

(** X19.  Every stored object holds the batch it was written from.  The
    objects the client has stored when the function ends are, in order, the
    first filtered batches that kept a row, the batch number i under the key
    of part i, each object holding the frame written for it; all such
    batches when the function returns [True].  Together these batches hold
    the rows the loop keeps of the reader. *)
Theorem stored_objects_hold_the_batches
        (parse_datetime : Parser) (env : Env)
        (cfg : Config) (s3 : S3Client) (reader : list read_item) (w : World) :
  let out := process_reader parse_datetime env cfg s3 reader w in
  let batches := reader_batches parse_datetime reader in
  (exists n,
      stored_objects [] (events_since w (snd out)) =
      partition_objects cfg 1 (firstn n batches)
      /\ n <= List.length batches
      /\ (fst out = Ok true -> n = List.length batches))
  /\ frames_rows batches = reader_kept parse_datetime reader
  /\ Forall (fun df => 1 <= len df) batches.
Proof.
  cbv zeta. split; [|split; [apply reader_batches_rows|]].
  - pose proof (for_chunks_run parse_datetime env cfg s3 reader 1 w) as R.
    destruct (run_stored _ _ _ _ _ _ _ _ R) as (tr & n & T & S & L & K).
    destruct (process_reader_same parse_datetime env cfg s3 reader w) as (T' & _).
    exists n. unfold events_since. rewrite T', T, skipn_length_app.
    split; [exact S|]. split; [exact L|].
    intros Hok. apply K. apply process_result_ok. exact Hok.
  - induction reader as [|[df|e] reader IH]; cbn [reader_batches];
      [constructor| |exact IH].
    destruct (filter_frame parse_datetime df) as [e|kept]; [exact IH|].
    destruct (Nat.eqb_spec (len kept) 0) as [E|N]; [exact IH|].
    constructor; [lia|exact IH].
Qed.

Lemma stored_objects_hold_the_batches_witness :
  let f := mkCsv Sample.hdr [Sample.late; Sample.early; Sample.at_cutoff] in
  let out := process_reader Inferred.parse (Sample.env_of Sample.s3_ok f)
               (Sample.with_chunk_rows 1) Sample.s3_ok (read_csv 1 f) Sample.world0 in
  map (fun o => snd (fst o)) (stored_objects [] (events_since Sample.world0 (snd out)))
  = ["final-raw/part_0001.csv"; "final-raw/part_0002.csv"].
Proof.
  cbv zeta.
  destruct (stored_objects_hold_the_batches Inferred.parse
              (Sample.env_of Sample.s3_ok
                 (mkCsv Sample.hdr [Sample.late; Sample.early; Sample.at_cutoff]))
              (Sample.with_chunk_rows 1) Sample.s3_ok
              (read_csv 1 (mkCsv Sample.hdr [Sample.late; Sample.early; Sample.at_cutoff]))
              Sample.world0) as ((n & S & _ & K) & _).
  rewrite S, (K eq_refl). reflexivity.
Defined.

(** ** A summary that cannot be written *)

Section SaveFails.

Variable parse_datetime : Parser.
Variable env : Env.
Variable cfg : Config.
Variable e : exn.

Hypothesis save_fails : save_outcome env (SUMMARY_FILE cfg) = Some e.

Lemma early_body_raises (w : World) :
  early_body env cfg w = (Raised e, summary_unsaved cfg e (completed env false w)).
Proof.
  unfold early_body, complete, save, utcnow, modify_summary, get_summary, log,
    or_raise, bind, sys_exit, ret.
  cbn. rewrite save_fails. reflexivity.
Qed.

Lemma handler_body_raises (msg : string) (w : World) :
  cleanup_outcome env (cleanups w) = None ->
  handler_body env cfg msg w =
  (Raised e,
   summary_unsaved cfg e (cleaned (completed env false (error_added env msg w)))).
Proof.
  intros C.
  unfold handler_body, add_error, complete, cleanup_files, save, utcnow,
    modify_summary, get_summary, log, or_raise, bind, sys_exit, ret.
  cbn. rewrite C. cbn. rewrite save_fails. reflexivity.
Qed.

Lemma closing_body_raises (b : bool) (w : World) :
  cleanup_outcome env (cleanups w) = None ->
  closing_body env cfg b w =
  (Raised e, summary_unsaved cfg e (completed env b (cleaned w))).
Proof.
  intros C.
  unfold closing_body, complete, cleanup_files, save, utcnow,
    modify_summary, get_summary, log, or_raise, bind, sys_exit, ret.
  cbn. rewrite C. cbn. rewrite save_fails. reflexivity.
Qed.

End SaveFails.

(** X20.  A summary that cannot be written ends the run by the exception.
    When writing the summary raises [e] and [cleanup_files] does not raise,
    no run of [main] reaches [sys.exit]: the write is tried, the handler
    finalizes the summary as [failed] and tries the write once more, and
    [e] leaves [main] with no document written, also when every stage had
    succeeded. *)
Theorem unwritable_summary_ends_by_the_exception
        (parse_datetime : Parser) (env : Env) (cfg : Config)
        (e : exn) :
  save_outcome env (SUMMARY_FILE cfg) = Some e ->
  (forall n, cleanup_outcome env n = None) ->
  let out := run_main parse_datetime env cfg in
  fst out = Raised e
  /\ saved (trace (snd out)) = []
  /\ status (summary (snd out)) = "failed"
  /\ exists t, end_time (summary (snd out)) = Some t.
Proof.
  intros S C. cbv zeta. rewrite main_eq.
  destruct (main_try_cases parse_datetime env cfg) as (w1 & mf & wp & T & SU & St).
  assert (Sv : saved (trace w1) = []).
  { destruct SU as (Tr & _). rewrite Tr.
    destruct St as [(Tp & _)|(s3 & w0 & r & _ & T0 & _ & _ & _ & P & _)].
    - rewrite Tp. reflexivity.
    - unfold process_and_upload_data in P.
      destruct (process_frame parse_datetime env cfg s3 (open_reader env cfg) w0)
        as (_ & _ & PS).
      rewrite P in PS. cbn [snd] in PS. rewrite PS, T0. reflexivity. }
  unfold with_handlers.
  destruct T as [T|[(e0 & T)|(b & T & _)]]; rewrite T.
  - rewrite (early_body_raises env cfg e S w1).
    rewrite (handler_body_raises env cfg e S _ _ (C _)).
    cbn [fst snd summary_unsaved cleaned completed error_added logged with_summary
         ticked summary trace s_complete s_add_error status end_time].
    rewrite !saved_app, Sv. repeat split; eauto.
  - rewrite (handler_body_raises env cfg e S _ _ (C _)).
    cbn [fst snd summary_unsaved cleaned completed error_added logged with_summary
         ticked summary trace s_complete s_add_error status end_time].
    rewrite !saved_app, Sv. repeat split; eauto.
  - rewrite (closing_body_raises env cfg e S b w1 (C _)).
    rewrite (handler_body_raises env cfg e S _ _ (C _)).
    cbn [fst snd summary_unsaved cleaned completed error_added logged with_summary
         ticked summary trace s_complete s_add_error status end_time].
    rewrite !saved_app, Sv. repeat split; eauto.
Qed.

Lemma unwritable_summary_ends_by_the_exception_witness :
  let env := {| clock := fun k => (Z.of_nat k * 1000000)%Z;
                boto3_client := inr Sample.s3_ok;
                download := Downloaded 3145728;
                extract := Extracted;
                open_csv := fun _ => Some (mkCsv Sample.hdr [Sample.late]);
                cleanup_outcome := fun _ => None;
                save_outcome := fun _ => Some (OtherException "Permission denied") |} in
  let out := run_main Inferred.parse env Sample.config in
  fst out = Raised (OtherException "Permission denied")
  /\ files_uploaded (summary (snd out)) = ["s3://bronze-03/final-raw/part_0001.csv"]
  /\ status (summary (snd out)) = "failed".
Proof.
  cbv zeta.
  destruct (unwritable_summary_ends_by_the_exception Inferred.parse
              {| clock := fun k => (Z.of_nat k * 1000000)%Z;
                 boto3_client := inr Sample.s3_ok;
                 download := Downloaded 3145728;
                 extract := Extracted;
                 open_csv := fun _ => Some (mkCsv Sample.hdr [Sample.late]);
                 cleanup_outcome := fun _ => None;
                 save_outcome := fun _ => Some (OtherException "Permission denied") |}
              Sample.config (OtherException "Permission denied"))
    as (R & _ & St & _).
  - reflexivity.
  - reflexivity.
  - split; [exact R|]. split; [vm_compute; reflexivity|exact St].
Defined.
